(** * Timetable scheduler: the genetic engine and the repair optimiser

    A shallow embedding of [backend/services/ga_engine.py] and
    [backend/services/optimization.py].

    Conventions of the embedding.
    - Python [str] is [string], Python [int] is [Z], Python [float] is an
      exact rational [Q] (rounding is not modelled).
    - A [Gene] is a mutable object.  Chromosomes are lists of references into
      a heap of genes, so that two lists holding the same object see each
      other's field updates, as in Python.
    - The module-level generator of [random] is the sequence of raw draws it
      is going to deliver; a seed is identified with that sequence.
    - A [dict] is an association list in insertion order; a
      [defaultdict(set)] of time slots is the list of its (key, slot) pairs. *)

From Stdlib Require Import List ZArith QArith String Ascii DecimalString Bool Lia Lqa Arith.
Import ListNotations.

Local Open Scope string_scope.
Local Open Scope list_scope.

(** ** Settings ([config.py]) *)

Module Settings.
Record t := mk {
  DAYS : list string;
  HOURS_PER_DAY : Z;
  MAX_CONSECUTIVE_CLASSES : Z;
  POPULATION_SIZE : Z;
  MAX_GENERATIONS : Z;
  MUTATION_RATE : Q;
  ELITISM_RATE : Q;
  TOURNAMENT_SIZE : Z;
  MAX_PARALLEL_RUNS : Z
}.
End Settings.

Definition settings : Settings.t :=
  {| Settings.DAYS := ["Monday"; "Tuesday"; "Wednesday"; "Thursday"; "Friday"];
     Settings.HOURS_PER_DAY := 6;
     Settings.MAX_CONSECUTIVE_CLASSES := 4;
     Settings.POPULATION_SIZE := 100;
     Settings.MAX_GENERATIONS := 100;
     Settings.MUTATION_RATE := 2 # 100;
     Settings.ELITISM_RATE := 5 # 100;
     Settings.TOURNAMENT_SIZE := 5;
     Settings.MAX_PARALLEL_RUNS := 3 |}.

(** ** Data classes *)

Module GAConfig.
Record t := mk {
  population_size : Z;
  max_generations : Z;
  mutation_rate : Q;
  elitism_rate : Q;
  tournament_size : Z;
  parallel_runs : Z
}.
Definition default : t :=
  {| population_size := Settings.POPULATION_SIZE settings;
     max_generations := Settings.MAX_GENERATIONS settings;
     mutation_rate := Settings.MUTATION_RATE settings;
     elitism_rate := Settings.ELITISM_RATE settings;
     tournament_size := Settings.TOURNAMENT_SIZE settings;
     parallel_runs := Settings.MAX_PARALLEL_RUNS settings |}.
Definition set_mutation_rate (c : t) (r : Q) : t :=
  {| population_size := population_size c;
     max_generations := max_generations c;
     mutation_rate := r;
     elitism_rate := elitism_rate c;
     tournament_size := tournament_size c;
     parallel_runs := parallel_runs c |}.
End GAConfig.

Module ClassInfo.
Record t := mk {
  batch_id : string;
  subject_name : string;
  subject_type : string;
  student_count : Z;
  credits : Z;
  hours_per_week : Z
}.
End ClassInfo.

Definition timeslot : Type := (string * Z)%type.

Definition timeslot_eqb (a b : timeslot) : bool :=
  String.eqb (fst a) (fst b) && Z.eqb (snd a) (snd b).

Module Gene.
Record t := mk {
  batch_id : string;
  subject_name : string;
  faculty_id : string;
  room_id : string;
  day : string;
  hour : Z;
  week_type : string
}.
(** The dataclass default [week_type = "all"]. *)
Definition make (b s f r d : string) (h : Z) : t := mk b s f r d h "all".
Definition slot (g : t) : timeslot := (day g, hour g).
(** [gene.day = d; gene.hour = h] on the object. *)
Definition set_slot (g : t) (ts : timeslot) : t :=
  mk (batch_id g) (subject_name g) (faculty_id g) (room_id g)
     (fst ts) (snd ts) (week_type g).
End Gene.

(** ** The heap of gene objects *)

Definition ref := nat.
Definition heap := list Gene.t.
Definition Chromosome := list ref.

Definition null_gene : Gene.t := Gene.mk "" "" "" "" "" 0 "".

Definition deref (h : heap) (r : ref) : Gene.t := nth r h null_gene.

Definition alloc (h : heap) (g : Gene.t) : ref * heap :=
  (List.length h, h ++ [g]).

Fixpoint update_at {A} (i : nat) (f : A -> A) (l : list A) : list A :=
  match l, i with
  | [], _ => []
  | x :: t, O => f x :: t
  | x :: t, S j => x :: update_at j f t
  end.

Definition store_slot (h : heap) (r : ref) (ts : timeslot) : heap :=
  update_at r (fun g => Gene.set_slot g ts) h.

(** The assignments a list of references denotes in a heap. *)
Definition genes_of (h : heap) (c : Chromosome) : list Gene.t :=
  map (deref h) c.

(** ** [defaultdict(set)] of time slots, three of them per scan *)

Definition slot_sets := list (string * timeslot).

Definition slot_in (ts : timeslot) (d : slot_sets) (k : string) : bool :=
  existsb (fun p => String.eqb (fst p) k && timeslot_eqb (snd p) ts) d.

Definition slot_add (d : slot_sets) (k : string) (ts : timeslot) : slot_sets :=
  (k, ts) :: d.

Module Used.
Record t := mk { faculty : slot_sets; batch : slot_sets; room : slot_sets }.
Definition empty : t := mk [] [] [].
Definition conflicts (u : t) (g : Gene.t) : bool :=
  slot_in (Gene.slot g) (faculty u) (Gene.faculty_id g)
  || slot_in (Gene.slot g) (batch u) (Gene.batch_id g)
  || slot_in (Gene.slot g) (room u) (Gene.room_id g).
Definition record (u : t) (g : Gene.t) : t :=
  mk (slot_add (faculty u) (Gene.faculty_id g) (Gene.slot g))
     (slot_add (batch u) (Gene.batch_id g) (Gene.slot g))
     (slot_add (room u) (Gene.room_id g) (Gene.slot g)).
End Used.

(** ** [_repair_chromosome] *)

Fixpoint repair_scan (h : heap) (seen_slots : Used.t) (c : Chromosome)
  : Chromosome :=
  match c with
  | [] => []
  | r :: rest =>
      let gene := deref h r in
      if Used.conflicts seen_slots gene
      then repair_scan h seen_slots rest
      else r :: repair_scan h (Used.record seen_slots gene) rest
  end.

Definition _repair_chromosome (h : heap) (c : Chromosome) : Chromosome :=
  match c with
  | [] => c
  | _ => repair_scan h Used.empty c
  end.

(** Feasibility of a schedule: no (instructor, slot), (cohort, slot) or
    (room, slot) pair is used by two assignments. *)

Definition key_eqb (a b : string * timeslot) : bool :=
  String.eqb (fst a) (fst b) && timeslot_eqb (snd a) (snd b).

Fixpoint distinctb (l : list (string * timeslot)) : bool :=
  match l with
  | [] => true
  | x :: t => negb (existsb (key_eqb x) t) && distinctb t
  end.

Definition faculty_key (g : Gene.t) := (Gene.faculty_id g, Gene.slot g).
Definition batch_key (g : Gene.t) := (Gene.batch_id g, Gene.slot g).
Definition room_key (g : Gene.t) := (Gene.room_id g, Gene.slot g).

Definition feasibleb (gs : list Gene.t) : bool :=
  distinctb (map faculty_key gs)
  && distinctb (map batch_key gs)
  && distinctb (map room_key gs).

Definition feasible (gs : list Gene.t) : Prop :=
  NoDup (map faculty_key gs) /\ NoDup (map batch_key gs)
  /\ NoDup (map room_key gs).

(** ** Python built-ins used by the engine *)

Section Builtins.
Context {A : Type}.

(** [sorted(l, key=...)]: stable, by the order [leb] of the keys. *)
Fixpoint insert_sorted (leb : A -> A -> bool) (x : A) (l : list A) : list A :=
  match l with
  | [] => [x]
  | y :: t => if leb x y then x :: y :: t else y :: insert_sorted leb x t
  end.

Definition sorted (leb : A -> A -> bool) (l : list A) : list A :=
  fold_right (insert_sorted leb) [] l.

(** [len(set(l))] is the length of [dedup eqb l]. *)
Fixpoint dedup (eqb : A -> A -> bool) (l : list A) : list A :=
  match l with
  | [] => []
  | x :: t => if existsb (eqb x) t then dedup eqb t else x :: dedup eqb t
  end.

(** [d[k].append(v)] on a [defaultdict(list)]. *)
Fixpoint dict_append (d : list (string * list A)) (k : string) (v : A)
  : list (string * list A) :=
  match d with
  | [] => [(k, [v])]
  | (k', vs) :: t =>
      if String.eqb k' k then (k', vs ++ [v]) :: t
      else (k', vs) :: dict_append t k v
  end.

(** [l[:k]] for a possibly negative [k]. *)
Definition slice_to (k : Z) (l : list A) : list A :=
  if (k <? 0)%Z then firstn (Z.to_nat (Z.of_nat (List.length l) + k)) l
  else firstn (Z.to_nat k) l.

(** [l[a:b]] for indices within [0, len(l)]. *)
Definition slice (a b : nat) (l : list A) : list A :=
  firstn (b - a) (skipn a l).

(** [max(l, key=...)] and [min(l, key=...)]: the first extremal element. *)
Fixpoint first_best (better : A -> A -> bool) (best : A) (l : list A) : A :=
  match l with
  | [] => best
  | x :: t => first_best better (if better x best then x else best) t
  end.
End Builtins.

Definition len {A} (l : list A) : Z := Z.of_nat (List.length l).

(** ** Fitness *)

Module Weights.
Record t := mk {
  hard_constraint : Z;
  consecutive_gap : Z;
  excessive_consecutive : Z;
  faculty_overload : Z;
  room_preference : Z;
  time_preference : Z
}.
End Weights.

Definition weights : Weights.t :=
  {| Weights.hard_constraint := 1000;
     Weights.consecutive_gap := 15;
     Weights.excessive_consecutive := 25;
     Weights.faculty_overload := 50;
     Weights.room_preference := 5;
     Weights.time_preference := 10 |}.

(** [for day, hour in slots: slots_by_day[day].append(hour)] *)
Definition group_hours (slots : list timeslot) : list (string * list Z) :=
  fold_left (fun d s => dict_append d (fst s) (snd s)) slots [].

(** The first inner loop: [for i in range(len(hours) - 1)], gaps. *)
Fixpoint gap_loop (w : Weights.t) (hours : list Z) (penalty : Z) : Z :=
  match hours with
  | h0 :: (h1 :: _) as rest =>
      let gap := (h1 - h0 - 1)%Z in
      gap_loop w rest
        (if (gap >? 1)%Z then (penalty + Weights.consecutive_gap w * gap)%Z
         else penalty)
  | _ => penalty
  end.

(** The second inner loop: the longest run of consecutive hours. *)
Fixpoint consecutive_loop (hours : list Z) (consecutive_count max_consecutive : Z)
  : Z * Z :=
  match hours with
  | h0 :: (h1 :: _) as rest =>
      if (h1 =? h0 + 1)%Z
      then consecutive_loop rest (consecutive_count + 1)%Z max_consecutive
      else consecutive_loop rest 1%Z (Z.max max_consecutive consecutive_count)
  | _ => (consecutive_count, max_consecutive)
  end.

Definition day_penalty (w : Weights.t) (hours : list Z) (penalty : Z) : Z :=
  if (len hours <=? 1)%Z then penalty
  else
    let hours := sorted Z.leb hours in
    let penalty := gap_loop w hours penalty in
    let '(consecutive_count, max_consecutive) := consecutive_loop hours 1 0 in
    let max_consecutive := Z.max max_consecutive consecutive_count in
    if (max_consecutive >? Settings.MAX_CONSECUTIVE_CLASSES settings)%Z
    then (penalty + Weights.excessive_consecutive w
                    * (max_consecutive - Settings.MAX_CONSECUTIVE_CLASSES settings))%Z
    else penalty.

Definition _calculate_schedule_quality_penalty
    (slots : list timeslot) (w : Weights.t) : Z :=
  let slots_by_day := group_hours slots in
  fold_left (fun penalty dh => day_penalty w (snd dh) penalty) slots_by_day 0%Z.

(** [np.var]: the population variance. *)
Definition np_var (xs : list Z) : Q :=
  let n := inject_Z (len xs) in
  let mean := (inject_Z (fold_right Z.add 0%Z xs) / n)%Q in
  (fold_right (fun x acc => ((inject_Z x - mean) * (inject_Z x - mean) + acc)%Q)
              0%Q xs / n)%Q.

(** [for gene in chromosome: d[key(gene)].append(timeslot)] *)
Definition group_slots (key : Gene.t -> string) (gs : list Gene.t)
  : list (string * list timeslot) :=
  fold_left (fun d g => dict_append d (key g) (Gene.slot g)) gs [].

Definition hard_penalty (w : Weights.t) (slots_dict : list (string * list timeslot))
    (penalty : Z) : Z :=
  fold_left
    (fun penalty e =>
       let entity_slots := snd e in
       let unique_slots := dedup timeslot_eqb entity_slots in
       if negb (len unique_slots =? len entity_slots)%Z
       then (penalty + Weights.hard_constraint w
                       * (len entity_slots - len unique_slots))%Z
       else penalty)
    slots_dict penalty.

(** [hours_per_day[day] += 1] over a faculty's slots, then the values. *)
Definition daily_hours (slots : list timeslot) : list Z :=
  map (fun dh => len (snd dh)) (group_hours slots).

Definition total_penalty (gs : list Gene.t) : Q :=
  let faculty_slots := group_slots Gene.faculty_id gs in
  let batch_slots := group_slots Gene.batch_id gs in
  let room_slots := group_slots Gene.room_id gs in
  let penalty :=
    fold_left (fun p d => hard_penalty weights d p)
              [faculty_slots; batch_slots; room_slots] 0%Z in
  let penalty :=
    fold_left (fun p e =>
                 (p + _calculate_schedule_quality_penalty (snd e) weights)%Z)
              batch_slots penalty in
  fold_left
    (fun p e =>
       match daily_hours (snd e) with
       | [] => p
       | dh => (p + inject_Z (Weights.faculty_overload weights) * np_var dh)%Q
       end)
    faculty_slots (inject_Z penalty).

(** [calculate_fitness]; the result is kept in lowest terms. *)
Definition calculate_fitness (h : heap) (c : Chromosome) : Q :=
  match c with
  | [] => 0%Q
  | _ => Qred (1 / (1 + total_penalty (genes_of h c)))%Q
  end.

(** ** Strings: [s.split(',')] and [s.strip()] (ASCII) *)

Definition is_space (c : ascii) : bool :=
  let n := nat_of_ascii c in
  ((9 <=? n)%nat && (n <=? 13)%nat) || ((28 <=? n)%nat && (n <=? 32)%nat).

Fixpoint lstrip (s : string) : string :=
  match s with
  | String c t => if is_space c then lstrip t else s
  | EmptyString => EmptyString
  end.

Fixpoint rstrip (s : string) : string :=
  match s with
  | String c t =>
      match rstrip t with
      | EmptyString => if is_space c then EmptyString else String c EmptyString
      | t' => String c t'
      end
  | EmptyString => EmptyString
  end.

Definition strip (s : string) : string := rstrip (lstrip s).

(** [split_comma s] is [s.split(',')]; the accumulator is the current field. *)
Fixpoint split_from (field : string) (s : string) : list string :=
  match s with
  | EmptyString => [field]
  | String c t =>
      if Ascii.eqb c ","%char then field :: split_from EmptyString t
      else split_from (field ++ String c EmptyString)%string t
  end.

Definition split_comma (s : string) : list string := split_from EmptyString s.

(** [[x.strip() for x in s.split(',')]] *)
Definition subject_list (s : string) : list string :=
  map strip (split_comma s).

(** ** Dictionaries in insertion order *)

Section Dict.
Context {K V : Type} (eqb : K -> K -> bool).

Fixpoint dict_get (d : list (K * V)) (k : K) : option V :=
  match d with
  | [] => None
  | (k', v) :: t => if eqb k' k then Some v else dict_get t k
  end.

Fixpoint dict_set (d : list (K * V)) (k : K) (v : V) : list (K * V) :=
  match d with
  | [] => [(k, v)]
  | (k', v') :: t =>
      if eqb k' k then (k', v) :: t else (k', v') :: dict_set t k v
  end.
End Dict.

Definition pair_eqb (a b : string * string) : bool :=
  String.eqb (fst a) (fst b) && String.eqb (snd a) (snd b).

(** ** Input records (the columns [prepare_data] reads) *)

Module ClassroomRow.
Record t := mk { Class_ID : string; Capacity : Z; Room_Type : string }.
End ClassroomRow.

Module FacultyRow.
(** [max_hours_per_week] is [None] when the row has no such attribute;
    [is_available] is the flag stored with the instructor. *)
Record t := mk {
  Employee_ID : string;
  subject_name : string;
  max_hours_per_week : option Z;
  is_available : bool
}.
End FacultyRow.

Module BatchRow.
Record t := mk {
  department : string;
  level : string;
  semester : string;
  subjects : string;
  student_count : Z
}.
End BatchRow.

Module SubjectRow.
Record t := mk { name : string; credits : Z; type : string }.
End SubjectRow.

Module Workload.
Record t := mk { max_hours : Z; current_hours : Z }.
End Workload.

Module Data.
Record t := mk {
  labs : list ClassroomRow.t;
  lecture_halls : list ClassroomRow.t;
  faculty_subject_map : list (string * list string);
  classes_to_schedule : list ClassInfo.t;
  batch_subject_faculty_map : list ((string * string) * string);
  faculty_workload : list (string * Workload.t)
}.
End Data.

(** ** [prepare_data] *)

Definition _calculate_hours_per_week (credits : Z) (subject_type : string) : Z :=
  if String.eqb subject_type "Lab" then Z.min (credits * 2) 4
  else if (credits >=? 4)%Z then 3
  else if (credits =? 3)%Z then 2
  else 1.

(** The loop over the faculty rows; the state is
    [(faculty_subject_map, faculty_workload)]. *)
Definition faculty_row_step
    (st : list (string * list string) * list (string * Workload.t))
    (row : FacultyRow.t) :=
  let '(faculty_subject_map, faculty_workload) := st in
  let subjects := subject_list (FacultyRow.subject_name row) in
  let faculty_subject_map :=
    fold_left (fun m subject => dict_append m subject (FacultyRow.Employee_ID row))
              subjects faculty_subject_map in
  (faculty_subject_map,
   dict_set String.eqb faculty_workload (FacultyRow.Employee_ID row)
     (Workload.mk (match FacultyRow.max_hours_per_week row with
                   | Some m => m
                   | None => 20%Z
                   end) 0)).

Definition current_hours_of (faculty_workload : list (string * Workload.t))
    (f : string) : Z :=
  match dict_get String.eqb faculty_workload f with
  | Some w => Workload.current_hours w
  | None => 0%Z
  end.

(** [min(qualified_faculties, key=lambda f: faculty_workload[f]['current_hours'])] *)
Definition least_loaded (faculty_workload : list (string * Workload.t))
    (f0 : string) (others : list string) : string :=
  first_best
    (fun f best => (current_hours_of faculty_workload f
                    <? current_hours_of faculty_workload best)%Z)
    f0 others.

Module Prep.
(** What the loop over batches and subjects updates. *)
Record t := mk {
  classes_to_schedule : list ClassInfo.t;
  batch_subject_faculty_map : list ((string * string) * string);
  faculty_workload : list (string * Workload.t)
}.
End Prep.

Definition add_hours (faculty_workload : list (string * Workload.t))
    (f : string) (hours_per_week : Z) : list (string * Workload.t) :=
  match dict_get String.eqb faculty_workload f with
  | Some w =>
      dict_set String.eqb faculty_workload f
        (Workload.mk (Workload.max_hours w)
                     (Workload.current_hours w + hours_per_week))
  | None => faculty_workload
  end.

(** The body of [for subject_name in subjects]. *)
Definition subject_step
    (subjects_df : list SubjectRow.t)
    (faculty_subject_map : list (string * list string))
    (batch_id : string) (student_count : Z)
    (st : Prep.t) (subject_name : string) : Prep.t :=
  match filter (fun s => String.eqb (SubjectRow.name s) subject_name) subjects_df with
  | [] => st
  | first :: _ =>
      let credits := SubjectRow.credits first in
      let subject_type := SubjectRow.type first in
      let hours_per_week := _calculate_hours_per_week credits subject_type in
      match dict_get String.eqb faculty_subject_map subject_name with
      | None | Some [] => st
      | Some (f0 :: others) =>
          let best_faculty := least_loaded (Prep.faculty_workload st) f0 others in
          Prep.mk
            (Prep.classes_to_schedule st
             ++ repeat (ClassInfo.mk batch_id subject_name subject_type
                                     student_count credits hours_per_week)
                       (Z.to_nat hours_per_week))
            (dict_set pair_eqb (Prep.batch_subject_faculty_map st)
                      (batch_id, subject_name) best_faculty)
            (add_hours (Prep.faculty_workload st) best_faculty hours_per_week)
      end
  end.

Definition batch_id_of (batch : BatchRow.t) : string :=
  (BatchRow.department batch ++ "-" ++ BatchRow.level batch ++ "-"
   ++ BatchRow.semester batch)%string.

Definition batch_step
    (subjects_df : list SubjectRow.t)
    (faculty_subject_map : list (string * list string))
    (st : Prep.t) (batch : BatchRow.t) : Prep.t :=
  fold_left
    (subject_step subjects_df faculty_subject_map (batch_id_of batch)
                  (BatchRow.student_count batch))
    (subject_list (BatchRow.subjects batch)) st.

Definition prepare_data
    (batches_df : list BatchRow.t) (classrooms_df : list ClassroomRow.t)
    (faculty_df : list FacultyRow.t) (subjects_df : list SubjectRow.t) : Data.t :=
  let labs :=
    filter (fun r => String.eqb (ClassroomRow.Room_Type r) "Laboratory")
           classrooms_df in
  let lecture_halls :=
    filter (fun r => negb (String.eqb (ClassroomRow.Room_Type r) "Laboratory"))
           classrooms_df in
  let '(faculty_subject_map, faculty_workload) :=
    fold_left faculty_row_step faculty_df ([], []) in
  let st :=
    fold_left (batch_step subjects_df faculty_subject_map) batches_df
              (Prep.mk [] [] faculty_workload) in
  Data.mk labs lecture_halls faculty_subject_map
          (Prep.classes_to_schedule st)
          (Prep.batch_subject_faculty_map st)
          (Prep.faculty_workload st).

(** ** The [random] module

    The generator is the sequence of raw draws still to come.  Each library
    call consumes draws and maps them into its range. *)

Module Random.
Record t := mk { draws : nat -> N; pos : nat }.

(** [random.seed(s)] *)
Definition seed (s : nat -> N) : t := mk s 0.

Definition next (g : t) : N * t :=
  (draws g (pos g), mk (draws g) (S (pos g))).

(** [random.random()], a multiple of 2^-53 in [0, 1). *)
Definition random (g : t) : Q * t :=
  let '(n, g) := next g in
  (Z.of_N (n mod 2 ^ 53) # (2 ^ 53), g).

Definition randbelow (n : nat) (g : t) : nat * t :=
  let '(r, g) := next g in (N.to_nat (r mod N.of_nat n), g).

(** [random.randint(a, b)], for [a <= b]. *)
Definition randint (a b : Z) (g : t) : Z * t :=
  let '(r, g) := next g in ((a + Z.of_N r mod (b - a + 1))%Z, g).

(** [random.choice(seq)], for a non-empty [seq]. *)
Definition choice {A} (d : A) (seq : list A) (g : t) : A * t :=
  let '(j, g) := randbelow (List.length seq) g in (nth j seq d, g).

(** [random.sample(population, k)], for [k <= len(population)]: [k]
    elements at distinct positions, drawn from a shrinking pool.  This is
    CPython's algorithm draw for draw when the population has at most 21
    elements (and [k <= 5]).  For a larger population CPython draws
    positions and draws again on a position already taken; the draws of the
    model are then the ones that are kept, each naming one of the elements
    still to be had, so that the runs over all generators are the same but
    a run on one given sequence of draws is not. *)
Fixpoint sample {A} (k : nat) (pool : list A) (g : t) : list A * t :=
  match k, pool with
  | S k', d :: _ =>
      let n := List.length pool in
      let '(j, g) := randbelow n g in
      let pool' :=
        removelast (update_at j (fun _ => last pool d) pool) in
      let '(rest, g) := sample k' pool' g in
      (nth j pool d :: rest, g)
  | _, _ => ([], g)
  end.
End Random.

(** ** State of a run: the gene heap and the generator *)

Module St.
Record t := mk { heap : heap; rng : Random.t }.
End St.

Definition M (A : Type) : Type := St.t -> A * St.t.

Definition ret {A} (a : A) : M A := fun s => (a, s).

Definition bind {A B} (m : M A) (k : A -> M B) : M B :=
  fun s => let '(a, s') := m s in k a s'.

Notation "x <- m ;; k" := (bind m (fun x => k))
  (at level 61, m at next level, right associativity).
Notation "' p <- m ;; k" := (bind m (fun x => let 'p := x in k))
  (at level 61, p pattern, m at next level, right associativity).

Definition rand {A} (f : Random.t -> A * Random.t) : M A :=
  fun s => let '(a, g) := f (St.rng s) in (a, St.mk (St.heap s) g).

Definition get_heap : M heap := fun s => (St.heap s, s).

(** [Gene(...)]: a new object. *)
Definition new_gene (g : Gene.t) : M ref :=
  fun s => let '(r, h) := alloc (St.heap s) g in (r, St.mk h (St.rng s)).

Definition set_gene_slot (r : ref) (ts : timeslot) : M unit :=
  fun s => (tt, St.mk (store_slot (St.heap s) r ts) (St.rng s)).

(** ** The time grid *)

Definition range1 (n : Z) : list Z := map Z.of_nat (seq 1 (Z.to_nat n)).

(** [self.timeslots] *)
Definition timeslots : list timeslot :=
  flat_map (fun day => map (fun hour => (day, hour))
                           (range1 (Settings.HOURS_PER_DAY settings)))
           (Settings.DAYS settings).

Definition _get_preferred_slots (subject_type : string) : list timeslot :=
  let all_slots := timeslots in
  if String.eqb subject_type "Lab" then
    let preferred := filter (fun slot => (snd slot >=? 3)%Z) all_slots in
    preferred
    ++ filter (fun slot => negb (existsb (timeslot_eqb slot) preferred)) all_slots
  else
    let preferred := filter (fun slot => (snd slot <=? 3)%Z) all_slots in
    preferred
    ++ filter (fun slot => negb (existsb (timeslot_eqb slot) preferred)) all_slots.

(** ** [_create_gene] and [create_chromosome] *)

Definition possible_rooms_of (class_info : ClassInfo.t) (data : Data.t)
  : list ClassroomRow.t :=
  if String.eqb (ClassInfo.subject_type class_info) "Lab"
  then filter (fun r => (ClassroomRow.Capacity r
                         >=? ClassInfo.student_count class_info)%Z)
              (Data.labs data)
  else filter (fun r => (ClassroomRow.Capacity r
                         >=? ClassInfo.student_count class_info)%Z)
              (Data.lecture_halls data).

(** The scan over the preferred slots: for each slot free for the instructor
    and the cohort, the first room free at that slot. *)
Definition available_slots_of (class_info : ClassInfo.t) (faculty_id : string)
    (used_slots : Used.t) (possible_rooms : list ClassroomRow.t)
    (preferred_slots : list timeslot) : list (timeslot * ClassroomRow.t) :=
  flat_map
    (fun ts =>
       if negb (slot_in ts (Used.faculty used_slots) faculty_id)
          && negb (slot_in ts (Used.batch used_slots)
                           (ClassInfo.batch_id class_info))
       then match find (fun room =>
                          negb (slot_in ts (Used.room used_slots)
                                        (ClassroomRow.Class_ID room)))
                       possible_rooms with
            | Some room => [(ts, room)]
            | None => []
            end
       else [])
    preferred_slots.

Definition _create_gene (class_info : ClassInfo.t) (used_slots : Used.t)
    (data : Data.t) : M (option ref) :=
  match dict_get pair_eqb (Data.batch_subject_faculty_map data)
          (ClassInfo.batch_id class_info, ClassInfo.subject_name class_info) with
  | None => ret None
  | Some faculty_id =>
      if String.eqb faculty_id "" then ret None
      else
        match possible_rooms_of class_info data with
        | [] => ret None
        | possible_rooms =>
            let preferred_slots :=
              _get_preferred_slots (ClassInfo.subject_type class_info) in
            match available_slots_of class_info faculty_id used_slots
                    possible_rooms preferred_slots with
            | [] => ret None
            | (d :: _) as available_slots =>
                '(ts, room) <- rand (Random.choice d available_slots) ;;
                r <- new_gene (Gene.make (ClassInfo.batch_id class_info)
                                         (ClassInfo.subject_name class_info)
                                         faculty_id
                                         (ClassroomRow.Class_ID room)
                                         (fst ts) (snd ts)) ;;
                ret (Some r)
            end
        end
  end.

(** The sort key [(x.subject_type != 'Lab', -x.credits, random.random())]. *)
Definition class_key : Type := (bool * Z * Q)%type.

Definition class_key_leb (a b : class_key) : bool :=
  let '(a1, a2, a3) := a in
  let '(b1, b2, b3) := b in
  if Bool.eqb a1 b1 then
    if (a2 =? b2)%Z then Qle_bool a3 b3 else (a2 <? b2)%Z
  else negb a1.

Fixpoint class_keys (classes : list ClassInfo.t)
  : M (list (class_key * ClassInfo.t)) :=
  match classes with
  | [] => ret []
  | x :: rest =>
      u <- rand Random.random ;;
      keyed <- class_keys rest ;;
      ret ((negb (String.eqb (ClassInfo.subject_type x) "Lab"),
            (- ClassInfo.credits x)%Z, u, x) :: keyed)
  end.

Fixpoint create_loop (data : Data.t) (classes : list ClassInfo.t)
    (chromosome : Chromosome) (used_slots : Used.t) : M Chromosome :=
  match classes with
  | [] => ret chromosome
  | class_info :: rest =>
      gene <- _create_gene class_info used_slots data ;;
      match gene with
      | Some r =>
          h <- get_heap ;;
          create_loop data rest (chromosome ++ [r])
                      (Used.record used_slots (deref h r))
      | None => create_loop data rest chromosome used_slots
      end
  end.

Definition create_chromosome (data : Data.t) : M Chromosome :=
  keyed <- class_keys (Data.classes_to_schedule data) ;;
  let classes :=
    map snd (sorted (fun a b => class_key_leb (fst a) (fst b)) keyed) in
  create_loop data classes [] Used.empty.

(** ** Selection, crossover, mutation *)

Definition scored : Type := (Q * Chromosome)%type.

(** [tournament_selection]; [None] stands for the [ValueError] that
    [random.sample] or [max] raise on a negative or empty sample. *)
Definition tournament_selection (config : GAConfig.t)
    (population_fitness : list scored) : M (option Chromosome) :=
  let tournament_size :=
    Z.min (GAConfig.tournament_size config) (len population_fitness) in
  if (tournament_size <? 0)%Z then ret None
  else
    tournament <- rand (Random.sample (Z.to_nat tournament_size)
                                      population_fitness) ;;
    match tournament with
    | [] => ret None
    | x :: rest =>
        ret (Some (snd (first_best
                          (fun y best => negb (Qle_bool (fst y) (fst best)))
                          x rest)))
    end.

Definition crossover (parent1 parent2 : Chromosome) : M Chromosome :=
  match parent1, parent2 with
  | [], _ => ret parent2
  | _, [] => ret parent1
  | _, _ =>
      let min_len := Z.min (len parent1) (len parent2) in
      if (min_len <? 2)%Z then ret parent1
      else
        point1 <- rand (Random.randint 1 (min_len / 2)) ;;
        point2 <- rand (Random.randint (min_len / 2) (min_len - 1)) ;;
        let p1 := Z.to_nat point1 in
        let p2 := Z.to_nat point2 in
        let child :=
          firstn p1 parent1 ++ slice p1 p2 parent2 ++ skipn p2 parent1 in
        h <- get_heap ;;
        ret (_repair_chromosome h child)
  end.

Inductive mutation_type := timeslot_mutation | swap_mutation | room_mutation.

(** [mutate]; [mutated = chromosome.copy()] copies the list, not the genes. *)
Definition mutate (mutation_rate : Q) (chromosome : Chromosome) : M Chromosome :=
  match chromosome with
  | [] => ret chromosome
  | _ =>
      u <- rand Random.random ;;
      if negb (Qle_bool u mutation_rate) then ret chromosome
      else
        let mutated := chromosome in
        kind <- rand (Random.choice timeslot_mutation
                        [timeslot_mutation; swap_mutation; room_mutation]) ;;
        _ <- match kind with
             | timeslot_mutation =>
                 idx <- rand (Random.randint 0 (len mutated - 1)) ;;
                 new_day <- rand (Random.choice "" (Settings.DAYS settings)) ;;
                 new_hour <- rand (Random.randint 1
                                     (Settings.HOURS_PER_DAY settings)) ;;
                 set_gene_slot (nth (Z.to_nat idx) mutated O)
                               (new_day, new_hour)
             | swap_mutation =>
                 if (len mutated >? 1)%Z then
                   picked <- rand (Random.sample 2
                                     (seq 0 (List.length mutated))) ;;
                   let idx1 := nth 0 picked O in
                   let idx2 := nth 1 picked O in
                   h <- get_heap ;;
                   let g1 := deref h (nth idx1 mutated O) in
                   let g2 := deref h (nth idx2 mutated O) in
                   _ <- set_gene_slot (nth idx1 mutated O) (Gene.slot g2) ;;
                   set_gene_slot (nth idx2 mutated O) (Gene.slot g1)
                 else ret tt
             | room_mutation => ret tt
             end ;;
        h <- get_heap ;;
        ret (_repair_chromosome h mutated)
  end.

(** ** [run_evolution] *)

Module Loop.
(** The variables of the generation loop; [population_fitness] is [None]
    until the loop binds it. *)
Record t := mk {
  config : GAConfig.t;
  fitness_history : list Q;
  population : list Chromosome;
  best_fitness : Q;
  best_chromosome : option Chromosome;
  generations_without_improvement : Z;
  population_fitness : option (list scored)
}.
End Loop.

(** [min(a, b)] on floats: [b] when it is smaller, else [a]. *)
Definition py_min (a b : Q) : Q := if negb (Qle_bool a b) then b else a.

(** [int(x)]: truncation towards zero. *)
Definition int_of_Q (x : Q) : Z := Z.quot (Qnum x) (Zpos (Qden x)).

(** [while len(next_population) < population_size]: every turn appends one
    child, so the loop makes [population_size - len(next_population)] turns. *)
Fixpoint offspring (turns : nat) (config : GAConfig.t)
    (population_fitness : list scored) (next_population : list Chromosome)
  : M (option (list Chromosome)) :=
  match turns with
  | O => ret (Some next_population)
  | S turns' =>
      parent1 <- tournament_selection config population_fitness ;;
      parent2 <- tournament_selection config population_fitness ;;
      match parent1, parent2 with
      | Some parent1, Some parent2 =>
          child <- crossover parent1 parent2 ;;
          child <- mutate (GAConfig.mutation_rate config) child ;;
          offspring turns' config population_fitness (next_population ++ [child])
      | _, _ => ret None
      end
  end.

Inductive flow := Continue | Break.

(** One turn of [for generation in range(max_generations)]; [None] stands
    for the [IndexError] of an empty population and the errors of selection. *)
Definition generation (l : Loop.t) : M (option (flow * Loop.t)) :=
  h <- get_heap ;;
  let population_fitness :=
    sorted (fun a b => Qle_bool (fst b) (fst a))
           (map (fun chromo => (calculate_fitness h chromo, chromo))
                (Loop.population l)) in
  match population_fitness with
  | [] => ret None
  | (current_best_fitness, top) :: _ =>
      let fitness_history := Loop.fitness_history l ++ [current_best_fitness] in
      let improved := negb (Qle_bool current_best_fitness (Loop.best_fitness l)) in
      let best_fitness :=
        if improved then current_best_fitness else Loop.best_fitness l in
      let best_chromosome :=
        if improved then Some top else Loop.best_chromosome l in
      let generations_without_improvement :=
        if improved then 0%Z
        else (Loop.generations_without_improvement l + 1)%Z in
      if Qle_bool (99 # 100) current_best_fitness
      then ret (Some (Break,
                      Loop.mk (Loop.config l) fitness_history (Loop.population l)
                              best_fitness best_chromosome
                              generations_without_improvement
                              (Some population_fitness)))
      else
        let config :=
          if (generations_without_improvement >? 20)%Z
          then GAConfig.set_mutation_rate (Loop.config l)
                 (py_min (1 # 10)
                         (GAConfig.mutation_rate (Loop.config l) * (11 # 10)))
          else Loop.config l in
        let elite_count :=
          int_of_Q (inject_Z (GAConfig.population_size config)
                    * GAConfig.elitism_rate config) in
        let next_population :=
          map snd (slice_to elite_count population_fitness) in
        children <- offspring
                      (Z.to_nat (GAConfig.population_size config
                                 - len next_population))
                      config population_fitness next_population ;;
        match children with
        | None => ret None
        | Some next_population =>
            ret (Some (Continue,
                       Loop.mk config fitness_history next_population
                               best_fitness best_chromosome
                               generations_without_improvement
                               (Some population_fitness)))
        end
  end.

Fixpoint generations (n : nat) (l : Loop.t) : M (option Loop.t) :=
  match n with
  | O => ret (Some l)
  | S n' =>
      step <- generation l ;;
      match step with
      | None => ret None
      | Some (Break, l') => ret (Some l')
      | Some (Continue, l') => generations n' l'
      end
  end.

(** [[self.create_chromosome(data) for _ in range(population_size)]] *)
Fixpoint initial_population (n : nat) (data : Data.t) : M (list Chromosome) :=
  match n with
  | O => ret []
  | S n' =>
      c <- create_chromosome data ;;
      rest <- initial_population n' data ;;
      ret (c :: rest)
  end.

Module Run.
(** What a run leaves behind: the returned chromosome, and the engine's
    [config] and [fitness_history] attributes. *)
Record t := mk {
  chromosome : Chromosome;
  config : GAConfig.t;
  fitness_history : list Q
}.
End Run.

(** [run_evolution]; [db] tells whether a session was passed.  [None] stands
    for an exception: the ones of [generation], the [NameError] on
    [population_fitness] when no generation ran, and the [AttributeError] of
    the unconditional [db.close()] when [db] is [None]. *)
Definition run_evolution (config : GAConfig.t) (data : Data.t) (db : bool)
  : M (option Run.t) :=
  population <- initial_population
                  (Z.to_nat (GAConfig.population_size config)) data ;;
  final <- generations (Z.to_nat (GAConfig.max_generations config))
             (Loop.mk config [] population 0 None 0 None) ;;
  match final with
  | None => ret None
  | Some l =>
      if negb db then ret None
      else
        match Loop.best_chromosome l with
        | Some ((_ :: _) as best_chromosome) =>
            ret (Some (Run.mk best_chromosome (Loop.config l)
                              (Loop.fitness_history l)))
        | _ =>
            match Loop.population_fitness l with
            | Some ((_, top) :: _) =>
                ret (Some (Run.mk top (Loop.config l) (Loop.fitness_history l)))
            | _ => ret None
            end
        end
  end.

(** ** [TimetableOptimizer.generate_multiple_solutions.run_single_ga] *)

Module Solution.
Record t := mk {
  best_chromosome : list Gene.t;
  fitness : Q;
  fitness_history : list Q
}.
End Solution.

(** One call of [run_single_ga(seed)] on an optimizer whose shared [config]
    attribute is [config]; the second component is that attribute after the
    call.  The genes are read off the heap when the call returns. *)
Definition run_single_ga
    (batches_df : list BatchRow.t) (classrooms_df : list ClassroomRow.t)
    (faculty_df : list FacultyRow.t) (subjects_df : list SubjectRow.t)
    (db : bool) (config : GAConfig.t) (seed : nat -> N)
  : option (Solution.t * GAConfig.t) :=
  let s := St.mk [] (Random.seed seed) in
  let data := prepare_data batches_df classrooms_df faculty_df subjects_df in
  match run_evolution config data db s with
  | (None, _) => None
  | (Some r, s') =>
      Some (Solution.mk (genes_of (St.heap s') (Run.chromosome r))
                        (calculate_fitness (St.heap s') (Run.chromosome r))
                        (Run.fitness_history r),
            Run.config r)
  end.

(** * The repair optimiser ([optimization.py]) *)

Module Timetable.
Record t := mk {
  batch_id : string;
  subject_name : string;
  faculty_id : string;
  room_id : string;
  day : string;
  hour : Z;
  status : string
}.
Definition slot (e : t) : timeslot := (day e, hour e).
Definition set_faculty_id (v : string) (e : t) : t :=
  mk (batch_id e) (subject_name e) v (room_id e) (day e) (hour e) (status e).
Definition set_room_id (v : string) (e : t) : t :=
  mk (batch_id e) (subject_name e) (faculty_id e) v (day e) (hour e) (status e).
Definition set_status (v : string) (e : t) : t :=
  mk (batch_id e) (subject_name e) (faculty_id e) (room_id e) (day e) (hour e) v.
End Timetable.

Module Batch.
Record t := mk { batch_id : string; student_count : Z }.
End Batch.

Module Classroom.
Record t := mk { class_id : string; capacity : Z }.
End Classroom.

Module OptimizationLog.
Record t := mk {
  operation_type : string;
  status : string;
  error_message : option string
}.
End OptimizationLog.

(** The tables the optimiser reads and writes.  A row of [timetables] is an
    object of the session; it is named by its position in the table. *)
Module Db.
Record t := mk {
  timetables : list Timetable.t;
  batches : list Batch.t;
  classrooms : list Classroom.t;
  teacher_leaves : list Z;
  optimization_logs : list OptimizationLog.t
}.
Definition set_timetables (d : t) (rows : list Timetable.t) : t :=
  mk rows (batches d) (classrooms d) (teacher_leaves d) (optimization_logs d).
Definition add_log (d : t) (l : OptimizationLog.t) : t :=
  mk (timetables d) (batches d) (classrooms d) (teacher_leaves d)
     (optimization_logs d ++ [l]).
End Db.

(** [db.query(Timetable).filter(...).all()]: the positions of the rows that
    pass the filter, in table order. *)
Fixpoint query_from (k : nat) (p : Timetable.t -> bool) (rows : list Timetable.t)
  : list nat :=
  match rows with
  | [] => []
  | e :: t => if p e then k :: query_from (S k) p t else query_from (S k) p t
  end.

Definition query (p : Timetable.t -> bool) (rows : list Timetable.t) : list nat :=
  query_from 0 p rows.

Definition null_entry : Timetable.t := Timetable.mk "" "" "" "" "" 0 "".

Definition entry (rows : list Timetable.t) (i : nat) : Timetable.t :=
  nth i rows null_entry.

Definition active_of_faculty (faculty_id : string) (e : Timetable.t) : bool :=
  String.eqb (Timetable.faculty_id e) faculty_id
  && String.eqb (Timetable.status e) "active".

Definition active_in_room (room_id : string) (e : Timetable.t) : bool :=
  String.eqb (Timetable.room_id e) room_id
  && String.eqb (Timetable.status e) "active".

(** ** [_check_substitute_availability] *)

Definition _check_substitute_availability (substitute_faculty_id : string)
    (affected_entries : list nat) (rows : list Timetable.t) : bool :=
  let substitute_entries := query (active_of_faculty substitute_faculty_id) rows in
  let occupied_slots :=
    map (fun i => Timetable.slot (entry rows i)) substitute_entries in
  forallb (fun i => negb (existsb (timeslot_eqb (Timetable.slot (entry rows i)))
                                  occupied_slots))
          affected_entries.

(** [for entry in affected_entries: entry.<field> = ...] *)
Definition for_entries (f : Timetable.t -> Timetable.t) (affected : list nat)
    (rows : list Timetable.t) : list Timetable.t :=
  fold_left (fun rows i => update_at i f rows) affected rows.

(** ** [handle_teacher_leave_optimization]

    The function returns nothing; its outcome is the state of the tables and
    of the log entry it leaves behind.  The notification sent at the end is
    outside the model. *)
Definition handle_teacher_leave_optimization (leave_id : Z)
    (original_faculty_id substitute_faculty_id : string) (db : Db.t) : Db.t :=
  if negb (existsb (Z.eqb leave_id) (Db.teacher_leaves db)) then db
  else
    let running := OptimizationLog.mk "substitute" "running" None in
    let rows := Db.timetables db in
    let affected_entries := query (active_of_faculty original_faculty_id) rows in
    match affected_entries with
    | [] => Db.add_log db running
    | _ =>
        if negb (_check_substitute_availability substitute_faculty_id
                   affected_entries rows)
        then
          Db.add_log db
            (OptimizationLog.mk "substitute" "failed"
               (Some "Substitute teacher has scheduling conflicts"))
        else
          let rows :=
            for_entries (Timetable.set_faculty_id substitute_faculty_id)
                        affected_entries rows in
          Db.add_log (Db.set_timetables db rows)
            (OptimizationLog.mk "substitute" "completed" None)
    end.

(** ** [optimize_for_room_change] *)

Module CapacityIssue.
Record t := mk { batch_id : string; student_count : Z; room_capacity : Z }.
End CapacityIssue.

Module RoomChange.
(** The message broadcast when the change completes. *)
Record t := mk { success_count : Z; capacity_issues : list CapacityIssue.t }.
End RoomChange.

Definition find_batch (batches : list Batch.t) (batch_id : string)
  : option Batch.t :=
  find (fun b => String.eqb (Batch.batch_id b) batch_id) batches.

Definition find_classroom (classrooms : list Classroom.t) (class_id : string)
  : option Classroom.t :=
  find (fun c => String.eqb (Classroom.class_id c) class_id) classrooms.

(** The body of [for entry in affected_entries]; the state is
    [(rows, success_count, capacity_issues)]. *)
Definition room_change_step (batches : list Batch.t) (new_room : Classroom.t)
    (new_room_id : string)
    (st : list Timetable.t * Z * list CapacityIssue.t) (i : nat) :=
  let '(rows, success_count, capacity_issues) := st in
  let e := entry rows i in
  match find_batch batches (Timetable.batch_id e) with
  | Some batch =>
      if (Batch.student_count batch >? Classroom.capacity new_room)%Z
      then (rows, success_count,
            capacity_issues
            ++ [CapacityIssue.mk (Timetable.batch_id e)
                                 (Batch.student_count batch)
                                 (Classroom.capacity new_room)])
      else (update_at i (Timetable.set_room_id new_room_id) rows,
            (success_count + 1)%Z, capacity_issues)
  | None =>
      (update_at i (Timetable.set_room_id new_room_id) rows,
       (success_count + 1)%Z, capacity_issues)
  end.

(** [if affected_batches: query = query.filter(Timetable.batch_id.in_(...))] *)
Definition in_batches (affected_batches : option (list string))
    (e : Timetable.t) : bool :=
  match affected_batches with
  | None | Some [] => true
  | Some bs => existsb (String.eqb (Timetable.batch_id e)) bs
  end.

(** [optimize_for_room_change]; the second component is the broadcast, sent
    only when the change completes. *)
Definition optimize_for_room_change (old_room_id new_room_id : string)
    (affected_batches : option (list string)) (db : Db.t)
  : Db.t * option RoomChange.t :=
  let rows := Db.timetables db in
  let affected_entries :=
    query (fun e => active_in_room old_room_id e
                    && in_batches affected_batches e) rows in
  match find_classroom (Db.classrooms db) new_room_id with
  | None =>
      (Db.add_log db
         (OptimizationLog.mk "room_change" "failed"
            (Some ("New room " ++ new_room_id ++ " not found")%string)),
       None)
  | Some new_room =>
      let '(rows, success_count, capacity_issues) :=
        fold_left (room_change_step (Db.batches db) new_room new_room_id)
                  affected_entries (rows, 0%Z, []) in
      (Db.add_log (Db.set_timetables db rows)
         (OptimizationLog.mk "room_change" "completed"
            (match capacity_issues with
             | [] => None
             | _ =>
                 Some ("Capacity issues for "
                       ++ NilZero.string_of_uint
                            (Nat.to_uint (List.length capacity_issues))
                       ++ " entries")%string
             end)),
       Some (RoomChange.mk success_count capacity_issues))
  end.

(** ** [_handle_room_emergency] *)

Definition room_emergency_entry (batches : list Batch.t)
    (replacement_room : Classroom.t) (replacement_room_id : string)
    (e : Timetable.t) : Timetable.t :=
  match find_batch batches (Timetable.batch_id e) with
  | Some batch =>
      if (Batch.student_count batch <=? Classroom.capacity replacement_room)%Z
      then Timetable.set_room_id replacement_room_id e
      else Timetable.set_status "cancelled" e
  | None => Timetable.set_room_id replacement_room_id e
  end.

(** The body of [for i, room_id in enumerate(room_ids)].  The session does
    not flush before a query ([autoflush=False]) and commits once after the
    loop, so the filter of a query reads the rows as stored when the handler
    was entered, [stored], while the writes go to the objects of the
    session, [rows]. *)
Definition room_emergency_step (batches : list Batch.t)
    (classrooms : list Classroom.t) (replacement_room_ids : list string)
    (stored rows : list Timetable.t) (i_room : nat * string)
  : list Timetable.t :=
  let '(i, room_id) := i_room in
  let affected_entries := query (active_in_room room_id) stored in
  match nth_error replacement_room_ids i with
  | Some replacement_room_id =>
      match find_classroom classrooms replacement_room_id with
      | Some replacement_room =>
          for_entries (room_emergency_entry batches replacement_room
                                            replacement_room_id)
                      affected_entries rows
      | None => for_entries (Timetable.set_status "cancelled")
                            affected_entries rows
      end
  | None => for_entries (Timetable.set_status "cancelled") affected_entries rows
  end.

(** [_handle_room_emergency]: it returns nothing, only the tables change. *)
Definition _handle_room_emergency (room_ids replacement_room_ids : list string)
    (db : Db.t) : Db.t :=
  let stored := Db.timetables db in
  Db.set_timetables db
    (fold_left (room_emergency_step (Db.batches db) (Db.classrooms db)
                                    replacement_room_ids stored)
               (combine (seq 0 (List.length room_ids)) room_ids)
               stored).

(** * Specification-side definitions and concrete inputs *)

(** The adjacent pairs [(h_i, h_{i+1})] of a list of hours. *)
Definition adjacent (hours : list Z) : list (Z * Z) := combine hours (tl hours).

Definition Zsum (l : list Z) : Z := fold_right Z.add 0%Z l.

(** What one adjacent pair adds to the penalty in [gap_loop]. *)
Definition gap_term (p : Z * Z) : Z :=
  let gap := (snd p - fst p - 1)%Z in
  if (gap >? 1)%Z then (15 * gap)%Z else 0%Z.


(** What the second loop of a day adds: 25 per hour of the longest run of
    consecutive hours beyond the limit. *)
Definition excess_term (hours : list Z) : Z :=
  let '(consecutive_count, max_consecutive) := consecutive_loop hours 1 0 in
  let longest := Z.max max_consecutive consecutive_count in
  if (longest >? Settings.MAX_CONSECUTIVE_CLASSES settings)%Z
  then (25 * (longest - Settings.MAX_CONSECUTIVE_CLASSES settings))%Z
  else 0%Z.

(** The penalty of one day, as a sum over the adjacent pairs of its sorted
    hours. *)
Definition day_terms (term : Z * Z -> Z) (hours : list Z) : Z :=
  if (len hours <=? 1)%Z then 0%Z
  else
    let hours := sorted Z.leb hours in
    (Zsum (map term (adjacent hours)) + excess_term hours)%Z.

(** An affected slot that the substitute already occupies: an active row of
    the original instructor and an active row of the substitute at the same
    (day, hour). *)
Definition slot_conflict (rows : list Timetable.t)
    (original_faculty_id substitute_faculty_id : string) : Prop :=
  exists a s,
    In a rows /\ active_of_faculty original_faculty_id a = true
    /\ In s rows /\ active_of_faculty substitute_faculty_id s = true
    /\ Timetable.slot a = Timetable.slot s.

(** Scenario C: A and B both teach on (Monday, 1), for different cohorts. *)
Definition scenario_C : Db.t :=
  Db.mk [Timetable.mk "CS-UG-1" "Math" "A" "R1" "Monday" 1 "active";
         Timetable.mk "CS-UG-2" "Physics" "B" "R2" "Monday" 1 "active";
         Timetable.mk "CS-UG-1" "Math" "A" "R1" "Tuesday" 2 "active"]
        [] [] [7%Z] [].

(** The cohort of a row is known and has more students than the room holds. *)
Definition over_capacity (batches : list Batch.t) (room : Classroom.t)
    (e : Timetable.t) : bool :=
  match find_batch batches (Timetable.batch_id e) with
  | Some batch => (Batch.student_count batch >? Classroom.capacity room)%Z
  | None => false
  end.

(** The capacity-issue record of a row. *)
Definition issue_of (batches : list Batch.t) (room : Classroom.t)
    (e : Timetable.t) : CapacityIssue.t :=
  CapacityIssue.mk (Timetable.batch_id e)
    (match find_batch batches (Timetable.batch_id e) with
     | Some batch => Batch.student_count batch
     | None => 0%Z
     end)
    (Classroom.capacity room).

(** Scenario F: a cohort of 60 in [R_big], to be moved to [R_small] of
    capacity 30. *)
Definition scenario_F : Db.t :=
  Db.mk [Timetable.mk "CS-UG-1" "Math" "T1" "R_big" "Monday" 1 "active";
         Timetable.mk "CS-UG-1" "Physics" "T2" "R_big" "Monday" 2 "active"]
        [Batch.mk "CS-UG-1" 60]
        [Classroom.mk "R_big" 80; Classroom.mk "R_small" 30]
        [] [].

(** ** Instructor pre-selection, specification side *)

(** The instructors qualified for a subject, in first-seen order: one entry
    per faculty row and per occurrence of the subject in its subject list. *)
Definition qualified_list (faculty_df : list FacultyRow.t) (subject : string)
  : list string :=
  flat_map
    (fun row =>
       map (fun _ => FacultyRow.Employee_ID row)
           (filter (String.eqb subject)
                   (subject_list (FacultyRow.subject_name row))))
    faculty_df.

(** Eligibility in the words of the specification: the subject is among the
    instructor's subjects and the instructor is available. *)
Definition eligible (faculty_df : list FacultyRow.t) (subject f : string) : Prop :=
  exists row,
    In row faculty_df /\ FacultyRow.Employee_ID row = f
    /\ In subject (subject_list (FacultyRow.subject_name row))
    /\ FacultyRow.is_available row = true.

(** The (cohort, subject) pairs in the order [prepare_data] visits them. *)
Definition pairs_of (batches_df : list BatchRow.t) : list (BatchRow.t * string) :=
  flat_map (fun batch => map (pair batch) (subject_list (BatchRow.subjects batch)))
           batches_df.

Definition pair_step (subjects_df : list SubjectRow.t)
    (faculty_subject_map : list (string * list string))
    (st : Prep.t) (p : BatchRow.t * string) : Prep.t :=
  subject_step subjects_df faculty_subject_map (batch_id_of (fst p))
               (BatchRow.student_count (fst p)) st (snd p).

(** The state of the loop of [prepare_data] once the given pairs are done. *)
Definition state_after (faculty_df : list FacultyRow.t)
    (subjects_df : list SubjectRow.t) (pairs : list (BatchRow.t * string))
  : Prep.t :=
  let maps := fold_left faculty_row_step faculty_df ([], []) in
  fold_left (pair_step subjects_df (fst maps)) pairs (Prep.mk [] [] (snd maps)).

(** The first subject row of a name: [subject_details.iloc[0]]. *)
Definition subject_row (subjects_df : list SubjectRow.t) (subject_name : string)
  : option SubjectRow.t :=
  hd_error (filter (fun s => String.eqb (SubjectRow.name s) subject_name)
                   subjects_df).

(** One cohort, one subject, one instructor who is flagged unavailable. *)
Definition unavailable_batches := [BatchRow.mk "CS" "UG" "1" "Math" 30].
Definition unavailable_faculty := [FacultyRow.mk "T1" "Math" None false].
Definition unavailable_subjects := [SubjectRow.mk "Math" 3 "Theory"].

(** ** Concrete runs *)

(** Scenario A: one cohort of 30 with Math (3 credits, two sessions), one
    instructor, one lecture hall. *)
Definition scenario_A : Data.t :=
  prepare_data [BatchRow.mk "CS" "UG" "1" "Math" 30]
               [ClassroomRow.mk "R1" 30 "LectureHall"]
               [FacultyRow.mk "T1" "Math" None true]
               [SubjectRow.mk "Math" 3 "Theory"].

Definition draws_of (l : list N) : nat -> N := fun i => nth i l 0%N.

(** A run of one generation with one chromosome.  The draws: two sort keys;
    slot choices 0 and 14, that is (Monday, 1) and (Monday, 4); two
    tournaments and two crossover points; then a mutation (0 <= 0.02) of kind
    timeslot, of the gene at index 1, to Monday, hour 1. *)
Definition one_child_config : GAConfig.t := GAConfig.mk 1 1 (2 # 100) (5 # 100) 5 3.
Definition one_child_draws : nat -> N :=
  draws_of [0; 0; 0; 14; 0; 0; 0; 0; 0; 0; 1; 0; 0]%N.

Definition one_child_run : option (list Gene.t * list Q) :=
  match run_evolution one_child_config scenario_A true
          (St.mk [] (Random.seed one_child_draws)) with
  | (Some r, s) =>
      Some (genes_of (St.heap s) (Run.chromosome r), Run.fitness_history r)
  | (None, _) => None
  end.

(** A generation of two chromosomes with one elite.  The draws: both
    chromosomes are built as [(Monday, 1); (Monday, 4)]; both tournaments
    return the first chromosome; the child is mutated (kind timeslot, gene at
    index 1, to Monday, hour 2). *)
Definition elite_config : GAConfig.t := GAConfig.mk 2 1 (2 # 100) (1 # 2) 5 3.
Definition elite_draws : nat -> N :=
  draws_of [0; 0; 0; 14; 0; 0; 0; 14; 0; 0; 0; 0; 0; 0; 0; 0; 1; 0; 1]%N.

Module EliteRun.
Record t := mk {
  population : list Chromosome;        (* generation 0 *)
  genes_before : list (list Gene.t);   (* its assignments when evaluated *)
  next_population : list Chromosome;   (* generation 1 *)
  genes_after : list (list Gene.t);    (* the assignments of generation 0,
                                          read when generation 1 is complete *)
  best_chromosome : option Chromosome;
  best_before : option (list Gene.t);  (* when it was saved *)
  best_after : option (list Gene.t)
}.
End EliteRun.

Definition elite_run : option EliteRun.t :=
  let '(population, s1) :=
    initial_population 2 scenario_A (St.mk [] (Random.seed elite_draws)) in
  match generation (Loop.mk elite_config [] population 0 None 0 None) s1 with
  | (Some (_, l), s2) =>
      Some (EliteRun.mk population
              (map (genes_of (St.heap s1)) population)
              (Loop.population l)
              (map (genes_of (St.heap s2)) population)
              (Loop.best_chromosome l)
              (option_map (genes_of (St.heap s1)) (Loop.best_chromosome l))
              (option_map (genes_of (St.heap s2)) (Loop.best_chromosome l)))
  | (None, _) => None
  end.

(** Two calls of [run_single_ga] with one seed on one optimizer, configured
    for a population of 10 and otherwise as [GAConfig.default].  With ten
    chromosomes of two genes every [random.sample] of the run (five of ten in
    a tournament, two of two in a swap) draws from a pool of at most 21
    elements.  Every draw is the same number [c]: it is 3 modulo 30 and 17
    modulo 29, so every chromosome is built as [(Tuesday, 1); (Tuesday, 4)],
    and [c / 2^53] is about 0.021. *)
Definition same_seed : nat -> N := fun _ => 189151184350173%N.

Definition small_population_config : GAConfig.t :=
  {| GAConfig.population_size := 10;
     GAConfig.max_generations := Settings.MAX_GENERATIONS settings;
     GAConfig.mutation_rate := Settings.MUTATION_RATE settings;
     GAConfig.elitism_rate := Settings.ELITISM_RATE settings;
     GAConfig.tournament_size := Settings.TOURNAMENT_SIZE settings;
     GAConfig.parallel_runs := Settings.MAX_PARALLEL_RUNS settings |}.

Definition call_with (config : GAConfig.t) : option (Solution.t * GAConfig.t) :=
  run_single_ga [BatchRow.mk "CS" "UG" "1" "Math" 30]
                [ClassroomRow.mk "R1" 30 "LectureHall"]
                [FacultyRow.mk "T1" "Math" None true]
                [SubjectRow.mk "Math" 3 "Theory"]
                true config same_seed.

Definition first_call : option (Solution.t * GAConfig.t) :=
  call_with small_population_config.

(** The next call finds the configuration the previous call left. *)
Definition call_after (previous : option (Solution.t * GAConfig.t))
  : option (Solution.t * GAConfig.t) :=
  match previous with
  | Some (_, config) => call_with config
  | None => None
  end.

Definition second_call : option (Solution.t * GAConfig.t) :=
  call_after first_call.

(** What the two calls are compared on. *)
Definition histories_differ
    (call1 call2 : option (Solution.t * GAConfig.t)) : bool :=
  match call1, call2 with
  | Some (sol1, config1), Some (sol2, config2) =>
      Qeq_bool (GAConfig.mutation_rate config1) (22 # 1000)
      && (List.length (Solution.fitness_history sol1) =? 23)%nat
      && (List.length (Solution.fitness_history sol2) =? 2)%nat
  | _, _ => false
  end.

(** The history of a run that takes no notice of a cancellation signal:
    three generations of one chromosome that is never mutated
    ([c / 2^53 > 0.02]) and never good enough to stop early. *)
Definition three_generations_config : GAConfig.t :=
  GAConfig.mk 1 3 (2 # 100) (5 # 100) 5 3.







(** The early-stop test of a generation's best fitness. *)
Definition near_optimal (f : Q) : bool := Qle_bool (99 # 100) f.

(** ** Lab routing, specification side *)

(** The assignment sits in a room of the table whose type fits the type of
    its subject: Laboratory exactly for a Lab. *)
Definition room_matches (classrooms_df : list ClassroomRow.t)
    (subjects_df : list SubjectRow.t) (g : Gene.t) : Prop :=
  exists room subject,
    In room classrooms_df
    /\ ClassroomRow.Class_ID room = Gene.room_id g
    /\ subject_row subjects_df (Gene.subject_name g) = Some subject
    /\ (SubjectRow.type subject = "Lab"
        <-> ClassroomRow.Room_Type room = "Laboratory").

(** Scenario B: a laboratory and a lecture hall, one cohort of 35 with Prog
    (theory) and ProgLab (lab), one instructor for both. *)
Definition scenario_B_batches := [BatchRow.mk "CS" "UG" "1" "Prog, ProgLab" 35].
Definition scenario_B_classrooms :=
  [ClassroomRow.mk "R1" 40 "Laboratory"; ClassroomRow.mk "R2" 40 "LectureHall"].
Definition scenario_B_faculty := [FacultyRow.mk "T1" "Prog, ProgLab" None true].
Definition scenario_B_subjects :=
  [SubjectRow.mk "Prog" 3 "Theory"; SubjectRow.mk "ProgLab" 2 "Lab"].

Definition scenario_B : Data.t :=
  prepare_data scenario_B_batches scenario_B_classrooms scenario_B_faculty
               scenario_B_subjects.

(** The (subject, room) pairs of the chromosome built from Scenario B when
    every draw is 0. *)
Definition scenario_B_rooms : list (string * string) :=
  let '(c, s) :=
    create_chromosome scenario_B (St.mk [] (Random.seed (fun _ => 0%N))) in
  map (fun g => (Gene.subject_name g, Gene.room_id g)) (genes_of (St.heap s) c).

(** ** Auxiliary notions of the proofs *)

(** Inclusion of seen-slot sets. *)
Definition used_incl (u u' : Used.t) : Prop :=
  incl (Used.faculty u) (Used.faculty u')
  /\ incl (Used.batch u) (Used.batch u')
  /\ incl (Used.room u) (Used.room u').

(** The list a [defaultdict(list)] holds for a key. *)
Definition opt_list {A} (d : list (string * list A)) (k : string) : list A :=
  match dict_get String.eqb d k with
  | Some l => l
  | None => []
  end.

(** The instructor has a workload record. *)
Definition has_entry (w : list (string * Workload.t)) (f : string) : Prop :=
  dict_get String.eqb w f <> None.

(** [population_fitness] once sorted. *)
Definition ranked (h : heap) (population : list Chromosome) : list scored :=
  sorted (fun a b => Qle_bool (fst b) (fst a))
         (map (fun chromo => (calculate_fitness h chromo, chromo)) population).


(** A session carries the type of the first subject row of its name. *)
Definition class_ok (subjects_df : list SubjectRow.t) (c : ClassInfo.t) : Prop :=
  exists subject,
    subject_row subjects_df (ClassInfo.subject_name c) = Some subject
    /\ ClassInfo.subject_type c = SubjectRow.type subject.


(** The fields of a gene that no operator of the engine writes. *)
Definition static (g : Gene.t) : string * string * string * string * string :=
  (Gene.batch_id g, Gene.subject_name g, Gene.faculty_id g, Gene.room_id g,
   Gene.week_type g).

(** Two heaps hold the same objects up to their (day, hour). *)
Definition same_static (h h' : heap) : Prop :=
  List.length h' = List.length h
  /\ forall r, static (deref h' r) = static (deref h r).

(** A chromosome of live references whose assignments all satisfy [P]. *)
Definition placed (P : Gene.t -> Prop) (h : heap) (c : Chromosome) : Prop :=
  Forall P (genes_of h c) /\ forall r, In r c -> (r < List.length h)%nat.

(** Every chromosome the loop holds is [placed]. *)
Definition loop_placed (P : Gene.t -> Prop) (h : heap) (l : Loop.t) : Prop :=
  (forall c, In c (Loop.population l) -> placed P h c)
  /\ (forall c, Loop.best_chromosome l = Some c -> placed P h c)
  /\ (forall pf, Loop.population_fitness l = Some pf ->
        forall c, In c (map snd pf) -> placed P h c).

(** The used-slot sets hold the slots of all the given assignments. *)
Definition covered (u : Used.t) (gs : list Gene.t) : Prop :=
  forall g, In g gs ->
    slot_in (Gene.slot g) (Used.faculty u) (Gene.faculty_id g) = true
    /\ slot_in (Gene.slot g) (Used.batch u) (Gene.batch_id g) = true
    /\ slot_in (Gene.slot g) (Used.room u) (Gene.room_id g) = true.

(** * The emergency handlers ([optimization.py]) *)

(** ** [_handle_faculty_emergency] *)

(** The body of [for i, faculty_id in enumerate(faculty_ids)]; the queries,
    also the one of [_check_substitute_availability], filter on the stored
    rows, and (day, hour) of a row is never written. *)
Definition faculty_emergency_step (substitute_ids : list string)
    (stored rows : list Timetable.t) (i_faculty : nat * string)
  : list Timetable.t :=
  let '(i, faculty_id) := i_faculty in
  let affected_entries := query (active_of_faculty faculty_id) stored in
  match nth_error substitute_ids i with
  | Some substitute_id =>
      if _check_substitute_availability substitute_id affected_entries stored
      then for_entries (Timetable.set_faculty_id substitute_id)
                       affected_entries rows
      else for_entries (Timetable.set_status "cancelled") affected_entries rows
  | None => for_entries (Timetable.set_status "cancelled") affected_entries rows
  end.

(** [_handle_faculty_emergency]; a missing list of substitutes is the empty
    list. *)
Definition _handle_faculty_emergency (faculty_ids substitute_ids : list string)
    (db : Db.t) : Db.t :=
  let stored := Db.timetables db in
  Db.set_timetables db
    (fold_left (faculty_emergency_step substitute_ids stored)
               (combine (seq 0 (List.length faculty_ids)) faculty_ids)
               stored).

(** ** [_handle_batch_emergency] *)

Definition active_of_batch (batch_id : string) (e : Timetable.t) : bool :=
  String.eqb (Timetable.batch_id e) batch_id
  && String.eqb (Timetable.status e) "active".

(** The body of [for batch_id in batch_ids]. *)
Definition batch_emergency_step (stored rows : list Timetable.t)
    (batch_id : string) : list Timetable.t :=
  for_entries (Timetable.set_status "review_required")
              (query (active_of_batch batch_id) stored) rows.

(** [_handle_batch_emergency]; [alternative_slots] is not read. *)
Definition _handle_batch_emergency (batch_ids alternative_slots : list string)
    (db : Db.t) : Db.t :=
  let stored := Db.timetables db in
  Db.set_timetables db (fold_left (batch_emergency_step stored) batch_ids stored).

(** ** [handle_emergency_optimization]

    The log entry is created as "running" and set to "completed" when the
    handler returns; the broadcast is outside the model. *)
Definition handle_emergency_optimization (emergency_type : string)
    (affected_entities replacement_entities : list string) (db : Db.t) : Db.t :=
  let db :=
    if String.eqb emergency_type "faculty_unavailable"
    then _handle_faculty_emergency affected_entities replacement_entities db
    else if String.eqb emergency_type "room_unavailable"
    then _handle_room_emergency affected_entities replacement_entities db
    else if String.eqb emergency_type "batch_schedule_change"
    then _handle_batch_emergency affected_entities replacement_entities db
    else db in
  Db.add_log db (OptimizationLog.mk "emergency" "completed" None).

(** ** The handlers row by row

    What one iteration of a handler writes into the row stored as [e0], [e]
    being that row as the session holds it at the time. *)

Definition faculty_emergency_row (substitute_ids : list string)
    (stored : list Timetable.t) (e0 e : Timetable.t) (i_faculty : nat * string)
  : Timetable.t :=
  if active_of_faculty (snd i_faculty) e0 then
    match nth_error substitute_ids (fst i_faculty) with
    | Some substitute_id =>
        if _check_substitute_availability substitute_id
             (query (active_of_faculty (snd i_faculty)) stored) stored
        then Timetable.set_faculty_id substitute_id e
        else Timetable.set_status "cancelled" e
    | None => Timetable.set_status "cancelled" e
    end
  else e.

Definition room_emergency_row (batches : list Batch.t)
    (classrooms : list Classroom.t) (replacement_room_ids : list string)
    (e0 e : Timetable.t) (i_room : nat * string) : Timetable.t :=
  if active_in_room (snd i_room) e0 then
    match nth_error replacement_room_ids (fst i_room) with
    | Some replacement_room_id =>
        match find_classroom classrooms replacement_room_id with
        | Some replacement_room =>
            room_emergency_entry batches replacement_room replacement_room_id e
        | None => Timetable.set_status "cancelled" e
        end
    | None => Timetable.set_status "cancelled" e
    end
  else e.

Definition batch_emergency_row (e0 e : Timetable.t) (batch_id : string)
  : Timetable.t :=
  if active_of_batch batch_id e0
  then Timetable.set_status "review_required" e else e.

(** ** Notions used to state what the handlers do *)

Definition is_active (e : Timetable.t) : bool :=
  String.eqb (Timetable.status e) "active".

Definition listed (ids : list string) (id : string) : bool :=
  existsb (String.eqb id) ids.

(** What no handler writes: the cohort, the subject, the day and the hour. *)
Definition session_of (e : Timetable.t) : string * string * string * Z :=
  (Timetable.batch_id e, Timetable.subject_name e, Timetable.day e,
   Timetable.hour e).

(** The active rows of an instructor do not share a slot. *)
Definition conflict_free (rows : list Timetable.t) (faculty_id : string) : Prop :=
  NoDup (map Timetable.slot (filter (active_of_faculty faculty_id) rows)).

(** A live timetable with two instructors, two rooms and a cancelled row. *)
Definition live_rows : list Timetable.t :=
  [Timetable.mk "CS-UG-1" "Math" "A" "R1" "Monday" 1 "active";
   Timetable.mk "CS-UG-2" "Physics" "B" "R2" "Monday" 2 "active";
   Timetable.mk "CS-UG-1" "Math" "A" "R1" "Tuesday" 2 "active";
   Timetable.mk "CS-UG-2" "Lab" "B" "R1" "Friday" 3 "cancelled"].

Definition live_db : Db.t :=
  Db.mk live_rows
        [Batch.mk "CS-UG-1" 60; Batch.mk "CS-UG-2" 20]
        [Classroom.mk "R1" 80; Classroom.mk "R2" 30; Classroom.mk "R3" 30]
        [7%Z] [].

(** * Notions for the engine's operators *)

(** A heap of three assignments of one cohort: the second and the third
    share room, instructor and cohort with the first. *)
Definition breeding_heap : heap :=
  [Gene.make "CS-UG-1" "Math" "T1" "R1" "Monday" 2;
   Gene.make "CS-UG-1" "Math" "T1" "R1" "Monday" 1;
   Gene.make "CS-UG-1" "Math" "T1" "R1" "Tuesday" 3].

(** A state on [breeding_heap] whose generator draws 0 for ever. *)
Definition breeding_state : St.t :=
  St.mk breeding_heap (Random.seed (fun _ => 0%N)).

Definition breeding_parent1 : Chromosome := [0; 1]%nat.
Definition breeding_parent2 : Chromosome := [2; 0]%nat.

(** [crossover] then [mutate] at rate 1 on the two parents. *)
Definition breeding_result : Chromosome * St.t :=
  let '(child, s1) := crossover breeding_parent1 breeding_parent2 breeding_state in
  mutate 1 child s1.

(** The number of repeated slots in the list an entity holds: what
    [len(entity_slots) - len(unique_slots)] counts. *)
Definition repeats (slots : list timeslot) : Z :=
  (len slots - len (dedup timeslot_eqb slots))%Z.

(** The repeated slots over all the entities of a dictionary. *)
Definition all_repeats (slots_dict : list (string * list timeslot)) : Z :=
  Zsum (map (fun e => repeats (snd e)) slots_dict).

(** What the generation loop needs of its variables to breed without an
    error: a population of the configured size, which is at least 1, and a
    tournament size of at least 1. *)
Definition breeds (l : Loop.t) : Prop :=
  len (Loop.population l) = GAConfig.population_size (Loop.config l)
  /\ (1 <= GAConfig.population_size (Loop.config l))%Z
  /\ (1 <= GAConfig.tournament_size (Loop.config l))%Z.

(** The state of a fresh interpreter whose generator draws 0 for ever. *)
Definition zero_state : St.t := St.mk [] (Random.seed (fun _ => 0%N)).

(** [c'] is [c] but for a mutation rate raised to at most 0.1. *)
Definition adapted (c c' : GAConfig.t) : Prop :=
  exists rate,
    c' = GAConfig.set_mutation_rate c rate
    /\ (GAConfig.mutation_rate c <= rate)%Q /\ (rate <= 1 # 10)%Q.

(** What the loop keeps true of its configuration, [c] being the one the
    run started with: the counter of generations without improvement is at
    most the number of generations run, and the configuration is untouched
    for the first twenty of them. *)
Definition config_inv (c : GAConfig.t) (l : Loop.t) : Prop :=
  (Loop.generations_without_improvement l <= len (Loop.fitness_history l))%Z
  /\ adapted c (Loop.config l)
  /\ ((List.length (Loop.fitness_history l) <= 20)%nat -> Loop.config l = c).

(** A (day, hour) of the time grid of the settings. *)
Definition slot_ok (ts : timeslot) : Prop :=
  In (fst ts) (Settings.DAYS settings)
  /\ (1 <= snd ts <= Settings.HOURS_PER_DAY settings)%Z.

(** The assignment is one of the requested sessions, with the instructor
    pre-selected for its cohort and subject, in a room of the pool of its
    subject type that holds the cohort. *)
Definition requested (data : Data.t) (g : Gene.t) : Prop :=
  exists class_info room,
    In class_info (Data.classes_to_schedule data)
    /\ Gene.batch_id g = ClassInfo.batch_id class_info
    /\ Gene.subject_name g = ClassInfo.subject_name class_info
    /\ dict_get pair_eqb (Data.batch_subject_faculty_map data)
         (ClassInfo.batch_id class_info, ClassInfo.subject_name class_info)
       = Some (Gene.faculty_id g)
    /\ Gene.faculty_id g <> ""
    /\ In room (if String.eqb (ClassInfo.subject_type class_info) "Lab"
                then Data.labs data else Data.lecture_halls data)
    /\ Gene.room_id g = ClassroomRow.Class_ID room
    /\ (ClassInfo.student_count class_info <= ClassroomRow.Capacity room)%Z.

(** A requested session at a slot of the grid. *)
Definition well_placed (data : Data.t) (g : Gene.t) : Prop :=
  requested data g /\ slot_ok (Gene.slot g).

(** Every live object of [h] that satisfies [P] still does in [h']. *)
Definition keeps (P : Gene.t -> Prop) (h h' : heap) : Prop :=
  List.length h' = List.length h
  /\ forall r, (r < List.length h)%nat -> P (deref h r) -> P (deref h' r).

(** A session as [prepare_data] requests it: its subject is known and the
    session carries the type and the credits of the first row of that
    subject, with the weekly hours computed from them, between 1 and 4; and
    an instructor who lists the subject is recorded for its cohort and
    subject. *)
Definition staffed (faculty_df : list FacultyRow.t)
    (subjects_df : list SubjectRow.t)
    (batch_subject_faculty_map : list ((string * string) * string))
    (c : ClassInfo.t) : Prop :=
  (exists row,
      subject_row subjects_df (ClassInfo.subject_name c) = Some row
      /\ ClassInfo.subject_type c = SubjectRow.type row
      /\ ClassInfo.credits c = SubjectRow.credits row)
  /\ ClassInfo.hours_per_week c
     = _calculate_hours_per_week (ClassInfo.credits c) (ClassInfo.subject_type c)
  /\ (1 <= ClassInfo.hours_per_week c <= 4)%Z
  /\ exists f,
       dict_get pair_eqb batch_subject_faculty_map
                (ClassInfo.batch_id c, ClassInfo.subject_name c) = Some f
       /\ In f (qualified_list faculty_df (ClassInfo.subject_name c)).

(** Every recorded instructor lists the subject of the record. *)
Definition qualified_map (faculty_df : list FacultyRow.t)
    (batch_subject_faculty_map : list ((string * string) * string)) : Prop :=
  forall k f,
    dict_get pair_eqb batch_subject_faculty_map k = Some f ->
    In f (qualified_list faculty_df (snd k)).

(** * Verification *)

(** ** Repair *)

Lemma slot_in_incl ts d d' k :
  incl d d' -> slot_in ts d k = true -> slot_in ts d' k = true.
Proof.
  unfold slot_in. intros Hi H.
  apply existsb_exists in H. destruct H as [p [Hp Hb]].
  apply existsb_exists. exists p. split; [apply Hi, Hp | exact Hb].
Qed.

Lemma conflicts_incl u u' g :
  used_incl u u' -> Used.conflicts u g = true -> Used.conflicts u' g = true.
Proof.
  intros [Hf [Hb Hr]]. unfold Used.conflicts.
  rewrite !orb_true_iff. intros [[H | H] | H];
    eauto using slot_in_incl.
Qed.

Lemma record_incl u u' g :
  used_incl u u' -> used_incl (Used.record u g) (Used.record u' g).
Proof.
  intros [Hf [Hb Hr]]. unfold used_incl, Used.record, slot_add; simpl.
  repeat split; intros x [Hx | Hx]; simpl; auto.
Qed.

Lemma repair_scan_idem h c :
  forall u u', used_incl u' u ->
    repair_scan h u' (repair_scan h u c) = repair_scan h u c.
Proof.
  induction c as [| r rest IH]; intros u u' Hi; simpl; [reflexivity |].
  destruct (Used.conflicts u (deref h r)) eqn:Hc.
  - apply IH, Hi.
  - simpl. destruct (Used.conflicts u' (deref h r)) eqn:Hc'.
    + apply (conflicts_incl _ _ _ Hi) in Hc'. congruence.
    + f_equal. apply IH, record_incl, Hi.
Qed.

Lemma used_incl_refl u : used_incl u u.
Proof. repeat split; apply incl_refl. Qed.

Lemma repair_as_scan h c : _repair_chromosome h c = repair_scan h Used.empty c.
Proof. destruct c; reflexivity. Qed.

(** C9. The repair scan is idempotent: repairing a repaired schedule gives
    the same schedule back. *)
Theorem repair_idempotent (h : heap) (c : Chromosome) :
  _repair_chromosome h (_repair_chromosome h c) = _repair_chromosome h c.
Proof.
  rewrite !repair_as_scan. apply repair_scan_idem, used_incl_refl.
Qed.

(** ** The gap penalty *)

Lemma adjacent_cons a b t : adjacent (a :: b :: t) = (a, b) :: adjacent (b :: t).
Proof. reflexivity. Qed.

Lemma gap_loop_sum w hours :
  Weights.consecutive_gap w = 15%Z ->
  forall penalty,
    gap_loop w hours penalty = (penalty + Zsum (map gap_term (adjacent hours)))%Z.
Proof.
  intros Hw. induction hours as [| h0 rest IH]; intros penalty.
  - simpl. lia.
  - destruct rest as [| h1 rest'].
    + simpl. lia.
    + rewrite adjacent_cons.
      change (gap_loop w (h0 :: h1 :: rest') penalty)
        with (gap_loop w (h1 :: rest')
                (if (h1 - h0 - 1 >? 1)%Z
                 then (penalty + Weights.consecutive_gap w * (h1 - h0 - 1))%Z
                 else penalty)).
      rewrite IH, Hw.
      change (Zsum (map gap_term ((h0, h1) :: adjacent (h1 :: rest'))))
        with (gap_term (h0, h1) + Zsum (map gap_term (adjacent (h1 :: rest'))))%Z.
      unfold gap_term at 2. simpl fst. simpl snd.
      destruct (h1 - h0 - 1 >? 1)%Z; lia.
Qed.

Lemma day_penalty_terms hours penalty :
  day_penalty weights hours penalty = (penalty + day_terms gap_term hours)%Z.
Proof.
  unfold day_penalty, day_terms.
  destruct (len hours <=? 1)%Z; [lia |].
  rewrite gap_loop_sum by reflexivity.
  unfold excess_term.
  destruct (consecutive_loop (sorted Z.leb hours) 1 0) as [cc mc].
  change (Weights.excessive_consecutive weights) with 25%Z.
  destruct (Z.max mc cc >? Settings.MAX_CONSECUTIVE_CLASSES settings)%Z; lia.
Qed.

Lemma fold_day_penalty days :
  forall penalty,
    fold_left (fun penalty (dh : string * list Z) =>
                 day_penalty weights (snd dh) penalty) days penalty
    = (penalty + Zsum (map (fun dh => day_terms gap_term (snd dh)) days))%Z.
Proof.
  induction days as [| dh days IH]; intros penalty; simpl.
  - lia.
  - rewrite IH, day_penalty_terms. lia.
Qed.



(** ** Queries and updates of the timetable rows *)

Lemma timeslot_eqb_eq (a b : timeslot) : timeslot_eqb a b = true <-> a = b.
Proof.
  destruct a as [d h], b as [d' h']. unfold timeslot_eqb; simpl.
  rewrite andb_true_iff, String.eqb_eq, Z.eqb_eq.
  split; [intros [-> ->]; reflexivity | intros H; inversion H; auto].
Qed.

Lemma update_at_app {A} (f : A -> A) pre e t :
  update_at (List.length pre) f (pre ++ e :: t) = pre ++ f e :: t.
Proof. induction pre as [| x pre IH]; simpl; [reflexivity | now rewrite IH]. Qed.

Lemma entry_app pre e t : entry (pre ++ e :: t) (List.length pre) = e.
Proof. unfold entry. rewrite app_nth2, Nat.sub_diag by lia. reflexivity. Qed.

Lemma shift_app {A} (pre : list A) e t : pre ++ e :: t = (pre ++ [e]) ++ t.
Proof. now rewrite <- app_assoc. Qed.

Lemma length_snoc {A} (pre : list A) e : List.length (pre ++ [e]) = S (List.length pre).
Proof. rewrite length_app; simpl; lia. Qed.

Lemma for_entries_query p f rows :
  forall pre,
    for_entries f (query_from (List.length pre) p rows) (pre ++ rows)
    = pre ++ map (fun e => if p e then f e else e) rows.
Proof.
  induction rows as [| e t IH]; intros pre; [reflexivity |].
  simpl query_from. simpl map.
  destruct (p e) eqn:He.
  - unfold for_entries. simpl fold_left. rewrite update_at_app.
    rewrite (shift_app pre (f e) t), <- length_snoc with (e := f e).
    unfold for_entries in IH. rewrite IH. now rewrite <- app_assoc.
  - rewrite (shift_app pre e t), <- length_snoc with (e := e).
    rewrite IH. now rewrite <- app_assoc.
Qed.

Lemma query_entries p rows :
  forall pre,
    map (entry (pre ++ rows)) (query_from (List.length pre) p rows)
    = filter p rows.
Proof.
  induction rows as [| e t IH]; intros pre; [reflexivity |].
  simpl. destruct (p e) eqn:He.
  - simpl. rewrite entry_app. f_equal.
    rewrite (shift_app pre e t), <- length_snoc with (e := e). apply IH.
  - rewrite (shift_app pre e t), <- length_snoc with (e := e). apply IH.
Qed.

Lemma query_filter p rows : map (entry rows) (query p rows) = filter p rows.
Proof. exact (query_entries p rows []). Qed.

Lemma for_entries_filter p f rows :
  for_entries f (query p rows) rows = map (fun e => if p e then f e else e) rows.
Proof. exact (for_entries_query p f rows []). Qed.

Lemma query_nil_iff p rows : query p rows = [] <-> filter p rows = [].
Proof.
  rewrite <- (query_filter p rows).
  destruct (query p rows); simpl; split; congruence.
Qed.

Lemma forallb_map_entry (g : Timetable.t -> bool) rows idxs :
  forallb (fun i => g (entry rows i)) idxs = forallb g (map (entry rows) idxs).
Proof. induction idxs as [| i t IH]; simpl; [reflexivity | now rewrite IH]. Qed.

(** The availability check fails exactly when there is a slot conflict. *)
Lemma check_false_iff rows orig sub :
  _check_substitute_availability sub (query (active_of_faculty orig) rows) rows
  = false <-> slot_conflict rows orig sub.
Proof.
  unfold _check_substitute_availability.
  rewrite (forallb_map_entry
             (fun e => negb (existsb (timeslot_eqb (Timetable.slot e))
                        (map (fun i => Timetable.slot (entry rows i))
                             (query (active_of_faculty sub) rows))))).
  rewrite <- (map_map (entry rows) Timetable.slot).
  rewrite !query_filter.
  split.
  - intros H.
    destruct (forallb_forall
                (fun e => negb (existsb (timeslot_eqb (Timetable.slot e))
                   (map Timetable.slot (filter (active_of_faculty sub) rows))))
                (filter (active_of_faculty orig) rows)) as [_ Hall].
    assert (Hex : exists a, In a (filter (active_of_faculty orig) rows)
              /\ existsb (timeslot_eqb (Timetable.slot a))
                   (map Timetable.slot (filter (active_of_faculty sub) rows))
                 = true).
    { clear Hall. induction (filter (active_of_faculty orig) rows) as [| a l IH].
      - discriminate H.
      - simpl in H. apply andb_false_iff in H. destruct H as [H | H].
        + exists a. split; [now left |]. now apply negb_false_iff in H.
        + destruct (IH H) as [a' [Ha' Hb]]. exists a'. split; [now right | exact Hb]. }
    destruct Hex as [a [Ha Hb]].
    apply existsb_exists in Hb. destruct Hb as [ts [Hts Heq]].
    apply in_map_iff in Hts. destruct Hts as [s [Hs Hin]].
    apply filter_In in Ha. apply filter_In in Hin.
    exists a, s. apply timeslot_eqb_eq in Heq. subst ts.
    repeat split; try tauto; congruence.
  - intros [a [s [Ha [Hpa [Hs [Hps Heq]]]]]].
    apply not_true_is_false. intros Hall.
    rewrite forallb_forall in Hall.
    specialize (Hall a (proj2 (filter_In _ _ _) (conj Ha Hpa))).
    apply negb_true_iff in Hall.
    assert (Hex : existsb (timeslot_eqb (Timetable.slot a))
                    (map Timetable.slot (filter (active_of_faculty sub) rows))
                  = true).
    { apply existsb_exists. exists (Timetable.slot s). split.
      - apply in_map, filter_In. now split.
      - now apply timeslot_eqb_eq. }
    congruence.
Qed.

(** C3. Instructor substitution is all or nothing. For a leave request that
    exists: if some active slot of the original instructor is occupied by an
    active assignment of the substitute, the operation ends as "failed" with
    the conflict message and no row of the timetable is modified; otherwise
    every active row of the original instructor gets the substitute as its
    instructor and every other row is left as it was. Read field by field
    in the second case: the instructor of an affected row is the substitute
    afterwards, every other instructor and every status, room, cohort,
    subject, day and hour are as before. *)
Theorem substitution_all_or_nothing
    (leave_id : Z) (original substitute : string) (db : Db.t) :
  In leave_id (Db.teacher_leaves db) ->
  let rows := Db.timetables db in
  let db' := handle_teacher_leave_optimization leave_id original substitute db in
  let rows' := Db.timetables db' in
  (slot_conflict rows original substitute ->
     rows' = rows
     /\ Db.optimization_logs db'
        = Db.optimization_logs db
          ++ [OptimizationLog.mk "substitute" "failed"
                (Some "Substitute teacher has scheduling conflicts")])
  /\ (~ slot_conflict rows original substitute ->
      rows'
      = map (fun e => if active_of_faculty original e
                      then Timetable.set_faculty_id substitute e else e)
            rows
      /\ map Timetable.faculty_id rows'
         = map (fun e => if active_of_faculty original e
                         then substitute else Timetable.faculty_id e) rows
      /\ map Timetable.status rows' = map Timetable.status rows
      /\ map Timetable.room_id rows' = map Timetable.room_id rows
      /\ map session_of rows' = map session_of rows
      /\ exists status,
          status <> "failed"
          /\ Db.optimization_logs db'
             = Db.optimization_logs db
               ++ [OptimizationLog.mk "substitute" status None]).
Proof.
  intros Hleave rows db' rows'.
  assert (Hfields :
            forall new_rows,
              new_rows
              = map (fun e => if active_of_faculty original e
                              then Timetable.set_faculty_id substitute e else e)
                    rows ->
              map Timetable.faculty_id new_rows
              = map (fun e => if active_of_faculty original e
                              then substitute else Timetable.faculty_id e) rows
              /\ map Timetable.status new_rows = map Timetable.status rows
              /\ map Timetable.room_id new_rows = map Timetable.room_id rows
              /\ map session_of new_rows = map session_of rows).
  { intros new_rows ->. rewrite !map_map.
    split; [| split; [| split]]; apply map_ext; intros e;
      destruct (active_of_faculty original e); reflexivity. }
  subst rows' db'. revert Hfields. subst rows.
  unfold handle_teacher_leave_optimization.
  assert (Hex : existsb (Z.eqb leave_id) (Db.teacher_leaves db) = true).
  { apply existsb_exists. exists leave_id. split; [exact Hleave | apply Z.eqb_refl]. }
  rewrite Hex. simpl negb. cbv iota.
  pose proof (check_false_iff (Db.timetables db) original substitute) as Hck.
  pose proof (for_entries_filter (active_of_faculty original)
                (Timetable.set_faculty_id substitute) (Db.timetables db))
    as Hupd.
  pose proof (query_nil_iff (active_of_faculty original) (Db.timetables db)) as Hnil.
  intros Hfields.
  destruct (query (active_of_faculty original) (Db.timetables db)) as [| i idxs] eqn:Hq.
  - split.
    + intros [a [s [Ha [Hpa _]]]]. exfalso.
      assert (Hin : In a (filter (active_of_faculty original) (Db.timetables db)))
        by (apply filter_In; now split).
      rewrite (proj1 Hnil eq_refl) in Hin. exact Hin.
    + intros _. simpl.
      assert (Hsame : Db.timetables db
                      = map (fun e => if active_of_faculty original e
                                      then Timetable.set_faculty_id substitute e
                                      else e) (Db.timetables db)).
      { unfold for_entries in Hupd. simpl in Hupd. exact Hupd. }
      split; [exact Hsame |].
      destruct (Hfields _ Hsame) as [H1 [H2 [H3 H4]]].
      split; [exact H1 |]. split; [exact H2 |]. split; [exact H3 |].
      split; [exact H4 |].
      exists "running". split; [discriminate | reflexivity].
  - destruct (_check_substitute_availability substitute (i :: idxs)
                (Db.timetables db)) eqn:Hc; simpl.
    + split.
      * intros Hconf. apply Hck in Hconf. congruence.
      * intros _. split; [exact Hupd |].
        destruct (Hfields _ Hupd) as [H1 [H2 [H3 H4]]].
        split; [exact H1 |]. split; [exact H2 |]. split; [exact H3 |].
        split; [exact H4 |].
        exists "completed". split; [discriminate | reflexivity].
    + split.
      * intros _. split; reflexivity.
      * intros Hn. exfalso. apply Hn, Hck. reflexivity.
Qed.

(** Scenario C: substituting B for A fails and leaves every row as it was.
    On the live table C is free: the two active rows of A read C afterwards,
    the rows of B still read B. *)
Lemma substitution_all_or_nothing_witness :
  (Db.timetables (handle_teacher_leave_optimization 7 "A" "B" scenario_C)
   = Db.timetables scenario_C
   /\ Db.optimization_logs
        (handle_teacher_leave_optimization 7 "A" "B" scenario_C)
      = [OptimizationLog.mk "substitute" "failed"
           (Some "Substitute teacher has scheduling conflicts")])
  /\ map Timetable.faculty_id
         (Db.timetables (handle_teacher_leave_optimization 7 "A" "C" live_db))
     = ["C"; "B"; "C"; "B"].
Proof.
  split.
  - apply (substitution_all_or_nothing 7 "A" "B" scenario_C).
    + simpl. left. reflexivity.
    + exists (Timetable.mk "CS-UG-1" "Math" "A" "R1" "Monday" 1 "active"),
             (Timetable.mk "CS-UG-2" "Physics" "B" "R2" "Monday" 1 "active").
      simpl. repeat split; auto.
  - destruct (substitution_all_or_nothing 7 "A" "C" live_db) as [_ Hfree].
    + simpl. left. reflexivity.
    + destruct Hfree as [_ [Hids _]]; [| rewrite Hids; reflexivity].
      intros [a [s [Ha [Hpa [Hs [Hps Heq]]]]]].
      simpl in Hs.
      destruct Hs as [<- | [<- | [<- | [<- | []]]]]; discriminate Hps.
Defined.

(** ** Room substitution *)

Lemma room_change_step_over batches new_room new_room_id pre e t n issues :
  over_capacity batches new_room e = true ->
  room_change_step batches new_room new_room_id (pre ++ e :: t, n, issues)
                   (List.length pre)
  = (pre ++ e :: t, n, issues ++ [issue_of batches new_room e]).
Proof.
  unfold room_change_step, over_capacity, issue_of. rewrite entry_app.
  destruct (find_batch batches (Timetable.batch_id e)) as [batch |];
    [| discriminate].
  intros ->. reflexivity.
Qed.

Lemma room_change_step_fit batches new_room new_room_id pre e t n issues :
  over_capacity batches new_room e = false ->
  room_change_step batches new_room new_room_id (pre ++ e :: t, n, issues)
                   (List.length pre)
  = (pre ++ Timetable.set_room_id new_room_id e :: t, (n + 1)%Z, issues).
Proof.
  unfold room_change_step, over_capacity. rewrite entry_app, update_at_app.
  destruct (find_batch batches (Timetable.batch_id e)) as [batch |];
    [| reflexivity].
  intros ->. reflexivity.
Qed.

Lemma room_change_fold batches new_room new_room_id p rows :
  forall pre n issues,
    fold_left (room_change_step batches new_room new_room_id)
              (query_from (List.length pre) p rows) (pre ++ rows, n, issues)
    = (pre ++ map (fun e => if p e && negb (over_capacity batches new_room e)
                            then Timetable.set_room_id new_room_id e else e)
                  rows,
       (n + len (filter (fun e => p e && negb (over_capacity batches new_room e))
                        rows))%Z,
       issues ++ map (issue_of batches new_room)
                     (filter (fun e => p e && over_capacity batches new_room e)
                             rows)).
Proof.
  induction rows as [| e t IH]; intros pre n issues.
  - simpl. unfold len. simpl. rewrite Z.add_0_r, !app_nil_r. reflexivity.
  - simpl query_from. simpl map. simpl filter.
    destruct (p e) eqn:He; simpl andb.
    + cbn [fold_left].
      destruct (over_capacity batches new_room e) eqn:Ho; simpl negb; cbv iota.
      * rewrite room_change_step_over by exact Ho.
        rewrite (shift_app pre e t), <- length_snoc with (e := e), IH.
        simpl map. rewrite <- !app_assoc. reflexivity.
      * rewrite room_change_step_fit by exact Ho.
        rewrite (shift_app pre _ t),
          <- length_snoc with (e := Timetable.set_room_id new_room_id e), IH.
        rewrite <- !app_assoc. simpl app. f_equal. f_equal.
        unfold len. simpl List.length. lia.
    + rewrite (shift_app pre e t), <- length_snoc with (e := e), IH.
      rewrite <- !app_assoc. reflexivity.
Qed.

Lemma emergency_entry_cases batches room room_id e :
  room_emergency_entry batches room room_id e
  = if over_capacity batches room e
    then Timetable.set_status "cancelled" e
    else Timetable.set_room_id room_id e.
Proof.
  unfold room_emergency_entry, over_capacity.
  destruct (find_batch batches (Timetable.batch_id e)) as [batch |];
    [| reflexivity].
  destruct (Batch.student_count batch <=? Classroom.capacity room)%Z eqn:E1,
           (Batch.student_count batch >? Classroom.capacity room)%Z eqn:E2;
    try reflexivity; lia.
Qed.

(** C5, as the code has it. When the new room exists:
    [optimize_for_room_change] rewrites the room of every affected row whose
    cohort does not exceed the new capacity, and leaves every affected row
    whose cohort exceeds it exactly as it was (room kept, status kept: it is
    not cancelled); for each of the latter one capacity-issue record is put,
    in table order, into the broadcast message, with the count of rewritten
    rows. [_handle_room_emergency] rewrites the same rows, and marks the rows
    whose cohort exceeds the capacity cancelled, their room kept; it returns
    no list. So when every affected cohort exceeds the new capacity no row is
    rewritten on either path. Read field by field: the room of a rewritten
    row is the new room afterwards and every other room is as before; no
    status changes on the planned path, and on the emergency path exactly
    the rows whose cohort exceeds the capacity read "cancelled". *)
Theorem room_substitution_by_capacity
    (old_room_id new_room_id : string) (affected_batches : option (list string))
    (new_room : Classroom.t) (db : Db.t) :
  find_classroom (Db.classrooms db) new_room_id = Some new_room ->
  let rows := Db.timetables db in
  let affected e :=
    active_in_room old_room_id e && in_batches affected_batches e in
  let over := over_capacity (Db.batches db) new_room in
  let planned :=
    optimize_for_room_change old_room_id new_room_id affected_batches db in
  let emergency := _handle_room_emergency [old_room_id] [new_room_id] db in
  (Db.timetables (fst planned)
   = map (fun e => if affected e && negb (over e)
                   then Timetable.set_room_id new_room_id e else e)
         rows
   /\ snd planned
      = Some (RoomChange.mk
                (len (filter (fun e => affected e && negb (over e)) rows))
                (map (issue_of (Db.batches db) new_room)
                     (filter (fun e => affected e && over e) rows))))
  /\ Db.timetables emergency
     = map (fun e => if active_in_room old_room_id e
                     then if over e then Timetable.set_status "cancelled" e
                          else Timetable.set_room_id new_room_id e
                     else e)
           rows
  /\ (map Timetable.room_id (Db.timetables (fst planned))
      = map (fun e => if affected e && negb (over e)
                      then new_room_id else Timetable.room_id e) rows
      /\ map Timetable.status (Db.timetables (fst planned))
         = map Timetable.status rows)
  /\ (map Timetable.room_id (Db.timetables emergency)
      = map (fun e => if active_in_room old_room_id e && negb (over e)
                      then new_room_id else Timetable.room_id e) rows
      /\ map Timetable.status (Db.timetables emergency)
         = map (fun e => if active_in_room old_room_id e && over e
                         then "cancelled" else Timetable.status e) rows).
Proof.
  intros Hroom rows affected over planned emergency.
  assert (Hp : Db.timetables (fst planned)
               = map (fun e => if affected e && negb (over e)
                               then Timetable.set_room_id new_room_id e else e)
                     rows
               /\ snd planned
                  = Some (RoomChange.mk
                            (len (filter (fun e => affected e && negb (over e))
                                         rows))
                            (map (issue_of (Db.batches db) new_room)
                                 (filter (fun e => affected e && over e) rows)))).
  { subst planned rows. unfold optimize_for_room_change. rewrite Hroom.
    unfold query.
    pose proof (room_change_fold (Db.batches db) new_room new_room_id affected
                  (Db.timetables db) [] 0%Z []) as Hf.
    simpl List.length in Hf. simpl app in Hf.
    fold affected. rewrite Hf. simpl. split; reflexivity. }
  assert (He : Db.timetables emergency
               = map (fun e => if active_in_room old_room_id e
                               then if over e
                                    then Timetable.set_status "cancelled" e
                                    else Timetable.set_room_id new_room_id e
                               else e)
                     rows).
  { subst emergency rows. unfold _handle_room_emergency. simpl.
    unfold room_emergency_step. simpl nth_error. rewrite Hroom.
    rewrite for_entries_filter. apply map_ext. intros e.
    rewrite emergency_entry_cases. reflexivity. }
  split; [exact Hp |]. split; [exact He |].
  destruct Hp as [Hp _]. rewrite Hp, He, !map_map.
  split; split; apply map_ext; intros e.
  - destruct (affected e && negb (over e)); reflexivity.
  - destruct (affected e && negb (over e)); reflexivity.
  - destruct (active_in_room old_room_id e), (over e); reflexivity.
  - destruct (active_in_room old_room_id e), (over e); reflexivity.
Qed.

(** Scenario F on both paths: nothing is rewritten; the planned change leaves
    both rows active and reports two capacity issues, the emergency change
    cancels both rows. On the live table the cohort of 20 held in R2 fits
    R3: on both paths its row reads R3 afterwards, every other row keeps
    its room, and the planned change counts one rewritten row. *)
Lemma room_substitution_by_capacity_witness :
  ((Db.timetables (fst (optimize_for_room_change "R_big" "R_small" None scenario_F))
    = Db.timetables scenario_F
    /\ snd (optimize_for_room_change "R_big" "R_small" None scenario_F)
       = Some (RoomChange.mk 0 [CapacityIssue.mk "CS-UG-1" 60 30;
                                CapacityIssue.mk "CS-UG-1" 60 30]))
   /\ map Timetable.status
          (Db.timetables (_handle_room_emergency ["R_big"] ["R_small"] scenario_F))
      = ["cancelled"; "cancelled"])
  /\ (map Timetable.room_id
          (Db.timetables (fst (optimize_for_room_change "R2" "R3" None live_db)))
      = ["R1"; "R3"; "R1"; "R1"]
      /\ snd (optimize_for_room_change "R2" "R3" None live_db)
         = Some (RoomChange.mk 1 []))
  /\ map Timetable.room_id
         (Db.timetables (_handle_room_emergency ["R2"] ["R3"] live_db))
     = ["R1"; "R3"; "R1"; "R1"].
Proof.
  pose proof (room_substitution_by_capacity "R_big" "R_small" None
                (Classroom.mk "R_small" 30) scenario_F eq_refl) as H.
  pose proof (room_substitution_by_capacity "R2" "R3" None
                (Classroom.mk "R3" 30) live_db eq_refl) as L.
  cbv zeta in H, L.
  destruct H as [[H1 H2] [_ [_ [_ H3]]]].
  destruct L as [[_ L2] [_ [[L3 _] [L4 _]]]].
  rewrite H1, H2, H3, L2, L3, L4. vm_compute. repeat split.
Defined.

(** C5, as the specification words it, fails on the planned room change: in
    Scenario F the rows whose cohort does not fit are still active afterwards,
    not cancelled. *)
Lemma room_change_does_not_cancel :
  map Timetable.status
      (Db.timetables
         (fst (optimize_for_room_change "R_big" "R_small" None scenario_F)))
  = ["active"; "active"]
  /\ ~ (forall e,
          In e (Db.timetables
                  (fst (optimize_for_room_change "R_big" "R_small" None
                          scenario_F))) ->
          Timetable.status e = "cancelled").
Proof.
  split; [reflexivity |].
  intros H.
  specialize (H (Timetable.mk "CS-UG-1" "Math" "T1" "R_big" "Monday" 1 "active")).
  simpl in H. discriminate H. left. reflexivity.
Qed.

(** ** Instructor pre-selection *)

Lemma opt_list_append {A} (d : list (string * list A)) k v s :
  opt_list (dict_append d k v) s
  = if String.eqb k s then opt_list d s ++ [v] else opt_list d s.
Proof.
  unfold opt_list. induction d as [| [k' vs] t IH]; simpl.
  - destruct (String.eqb k s); reflexivity.
  - destruct (String.eqb k' k) eqn:E; simpl.
    + apply String.eqb_eq in E. subst k'.
      destruct (String.eqb k s); reflexivity.
    + destruct (String.eqb k' s) eqn:E'; [| exact IH].
      apply String.eqb_eq in E'. subst k'.
      rewrite String.eqb_sym, E. reflexivity.
Qed.

Lemma opt_list_subjects (id : string) subjects :
  forall (m : list (string * list string)) s,
    opt_list (fold_left (fun m subject => dict_append m subject id) subjects m) s
    = opt_list m s ++ map (fun _ => id) (filter (String.eqb s) subjects).
Proof.
  induction subjects as [| x t IH]; intros m s; simpl.
  - now rewrite app_nil_r.
  - rewrite IH, opt_list_append, (String.eqb_sym s x).
    destruct (String.eqb x s); simpl; [now rewrite <- app_assoc | reflexivity].
Qed.

Lemma opt_list_faculty rows :
  forall m w s,
    opt_list (fst (fold_left faculty_row_step rows (m, w))) s
    = opt_list m s ++ qualified_list rows s.
Proof.
  induction rows as [| row t IH]; intros m w s; simpl.
  - now rewrite app_nil_r.
  - rewrite IH, opt_list_subjects, <- app_assoc. reflexivity.
Qed.

Lemma dict_get_set_same {K V} (eqb : K -> K -> bool) (d : list (K * V)) k v :
  eqb k k = true -> dict_get eqb (dict_set eqb d k v) k = Some v.
Proof.
  intros Hr. induction d as [| [k' v'] t IH]; simpl.
  - now rewrite Hr.
  - destruct (eqb k' k) eqn:E; simpl; rewrite E; [reflexivity | exact IH].
Qed.

Lemma dict_get_set_other {V} (d : list (string * V)) k v k' :
  k <> k' ->
  dict_get String.eqb (dict_set String.eqb d k v) k' = dict_get String.eqb d k'.
Proof.
  intros Hn. induction d as [| [k0 v0] t IH]; simpl.
  - destruct (String.eqb k k') eqn:E; [apply String.eqb_eq in E; contradiction | reflexivity].
  - destruct (String.eqb k0 k) eqn:E; simpl.
    + apply String.eqb_eq in E. subst k0.
      destruct (String.eqb k k') eqn:E'; [apply String.eqb_eq in E'; contradiction | reflexivity].
    + destruct (String.eqb k0 k'); [reflexivity | exact IH].
Qed.

Lemma has_entry_set (w : list (string * Workload.t)) k v f :
  has_entry w f \/ k = f -> has_entry (dict_set String.eqb w k v) f.
Proof.
  unfold has_entry. intros H. destruct (string_dec k f) as [-> | Hn].
  - rewrite dict_get_set_same by apply String.eqb_refl. discriminate.
  - rewrite dict_get_set_other by exact Hn. destruct H; [assumption | contradiction].
Qed.

Lemma has_entry_faculty rows :
  forall m w f,
    has_entry w f \/ In f (map FacultyRow.Employee_ID rows) ->
    has_entry (snd (fold_left faculty_row_step rows (m, w))) f.
Proof.
  induction rows as [| row t IH]; intros m w f H; simpl.
  - destruct H as [H | []]. exact H.
  - apply IH. simpl in H. destruct H as [H | [H | H]].
    + left. apply has_entry_set. now left.
    + left. apply has_entry_set. now right.
    + now right.
Qed.

Lemma qualified_list_ids rows s f :
  In f (qualified_list rows s) -> In f (map FacultyRow.Employee_ID rows).
Proof.
  unfold qualified_list. intros H. apply in_flat_map in H.
  destruct H as [row [Hrow Hf]]. apply in_map_iff in Hf.
  destruct Hf as [x [<- _]]. now apply in_map.
Qed.

Lemma current_hours_add w best n f :
  has_entry w best ->
  current_hours_of (add_hours w best n) f
  = if String.eqb best f then (current_hours_of w f + n)%Z
    else current_hours_of w f.
Proof.
  unfold has_entry, add_hours, current_hours_of. intros H.
  destruct (dict_get String.eqb w best) as [wb |] eqn:E; [| contradiction].
  destruct (String.eqb best f) eqn:Ef.
  - apply String.eqb_eq in Ef. subst f.
    rewrite dict_get_set_same by apply String.eqb_refl. now rewrite E.
  - rewrite dict_get_set_other; [reflexivity |].
    intros ->. now rewrite String.eqb_refl in Ef.
Qed.

Lemma has_entry_add w best n f : has_entry w f -> has_entry (add_hours w best n) f.
Proof.
  unfold add_hours. intros H.
  destruct (dict_get String.eqb w best); [| exact H].
  apply has_entry_set. now left.
Qed.

(** [min(..., key=...)] returns the first element of least key. *)
Lemma first_best_least (key : string -> Z) others :
  forall d1 b d2,
    (forall f, In f d1 -> (key b < key f)%Z) ->
    (forall f, In f d2 -> (key b <= key f)%Z) ->
    exists l1 l2,
      d1 ++ b :: d2 ++ others
      = l1 ++ first_best (fun f best => (key f <? key best)%Z) b others :: l2
      /\ (forall f, In f l1 ->
            (key (first_best (fun f best => (key f <? key best)%Z) b others)
             < key f)%Z)
      /\ (forall f, In f l2 ->
            (key (first_best (fun f best => (key f <? key best)%Z) b others)
             <= key f)%Z).
Proof.
  induction others as [| x t IH]; intros d1 b d2 H1 H2; simpl.
  - exists d1, d2. rewrite app_nil_r. auto.
  - destruct (key x <? key b)%Z eqn:E.
    + apply Z.ltb_lt in E.
      destruct (IH (d1 ++ b :: d2) x []) as [l1 [l2 [Heq Hl]]].
      * intros f Hf. apply in_app_or in Hf. destruct Hf as [Hf | [<- | Hf]].
        -- specialize (H1 f Hf). lia.
        -- exact E.
        -- specialize (H2 f Hf). lia.
      * intros f [].
      * exists l1, l2. split; [| exact Hl].
        rewrite <- Heq. rewrite <- app_assoc. reflexivity.
    + apply Z.ltb_ge in E.
      destruct (IH d1 b (d2 ++ [x]) H1) as [l1 [l2 [Heq Hl]]].
      * intros f Hf. apply in_app_or in Hf. destruct Hf as [Hf | [<- | []]].
        -- exact (H2 f Hf).
        -- exact E.
      * exists l1, l2. split; [| exact Hl].
        rewrite <- Heq. rewrite <- app_assoc. reflexivity.
Qed.

Lemma subject_step_none subjects_df m batch_id count st s :
  opt_list m s = [] -> subject_step subjects_df m batch_id count st s = st.
Proof.
  unfold subject_step, opt_list. intros H.
  destruct (filter _ subjects_df); [reflexivity |].
  destruct (dict_get String.eqb m s) as [[| f0 others] |]; try reflexivity.
  discriminate H.
Qed.

Lemma subject_step_unknown subjects_df m batch_id count st s :
  subject_row subjects_df s = None ->
  subject_step subjects_df m batch_id count st s = st.
Proof.
  unfold subject_step, subject_row. destruct (filter _ subjects_df); [reflexivity | discriminate].
Qed.

Lemma subject_step_some subjects_df m batch_id count st s row f0 others :
  subject_row subjects_df s = Some row ->
  opt_list m s = f0 :: others ->
  subject_step subjects_df m batch_id count st s
  = let n := _calculate_hours_per_week (SubjectRow.credits row)
                                       (SubjectRow.type row) in
    let best := least_loaded (Prep.faculty_workload st) f0 others in
    Prep.mk
      (Prep.classes_to_schedule st
       ++ repeat (ClassInfo.mk batch_id s (SubjectRow.type row) count
                               (SubjectRow.credits row) n) (Z.to_nat n))
      (dict_set pair_eqb (Prep.batch_subject_faculty_map st) (batch_id, s) best)
      (add_hours (Prep.faculty_workload st) best n).
Proof.
  unfold subject_step, subject_row, opt_list. intros Hrow Hq.
  destruct (filter _ subjects_df) as [| first rest]; [discriminate |].
  simpl in Hrow. injection Hrow as ->.
  destruct (dict_get String.eqb m s) as [[| g0 gs] |]; try discriminate.
  injection Hq as -> ->. reflexivity.
Qed.

Lemma pair_eqb_refl p : pair_eqb p p = true.
Proof. unfold pair_eqb. now rewrite !String.eqb_refl. Qed.

Lemma state_after_entries faculty_df subjects_df pairs f :
  In f (map FacultyRow.Employee_ID faculty_df) ->
  has_entry (Prep.faculty_workload (state_after faculty_df subjects_df pairs)) f.
Proof.
  intros Hf. unfold state_after.
  assert (H0 : has_entry
                 (Prep.faculty_workload
                    (Prep.mk [] [] (snd (fold_left faculty_row_step faculty_df
                                                   ([], []))))) f).
  { simpl. apply has_entry_faculty. now right. }
  revert H0. generalize (Prep.mk [] [] (snd (fold_left faculty_row_step faculty_df ([], [])))).
  induction pairs as [| p t IH]; intros st H0; simpl; [exact H0 |].
  apply IH. unfold pair_step, subject_step.
  destruct (filter _ subjects_df); [exact H0 |].
  destruct (dict_get String.eqb _ (snd p)) as [[| f0 others] |]; try exact H0.
  simpl. apply has_entry_add, H0.
Qed.

Lemma state_after_snoc faculty_df subjects_df pre p :
  state_after faculty_df subjects_df (pre ++ [p])
  = pair_step subjects_df
      (fst (fold_left faculty_row_step faculty_df ([], [])))
      (state_after faculty_df subjects_df pre) p.
Proof. unfold state_after. rewrite fold_left_app. reflexivity. Qed.

Lemma fold_batches subjects_df m batches :
  forall st,
    fold_left (batch_step subjects_df m) batches st
    = fold_left (pair_step subjects_df m) (pairs_of batches) st.
Proof.
  induction batches as [| b t IH]; intros st; simpl; [reflexivity |].
  rewrite fold_left_app, IH. f_equal.
  unfold batch_step. generalize (subject_list (BatchRow.subjects b)).
  intros l. revert st. induction l as [| s l IHl]; intros st; simpl;
    [reflexivity | apply IHl].
Qed.

Lemma prepare_data_state batches_df classrooms_df faculty_df subjects_df :
  let data := prepare_data batches_df classrooms_df faculty_df subjects_df in
  let st := state_after faculty_df subjects_df (pairs_of batches_df) in
  Data.classes_to_schedule data = Prep.classes_to_schedule st
  /\ Data.batch_subject_faculty_map data = Prep.batch_subject_faculty_map st
  /\ Data.faculty_workload data = Prep.faculty_workload st.
Proof.
  unfold prepare_data, state_after.
  destruct (fold_left faculty_row_step faculty_df ([], [])) as [m w].
  simpl. rewrite fold_batches. repeat split.
Qed.

(** C7, as the code has it. Take the run of [prepare_data] at the moment it
    reaches a (cohort, subject) pair. If no instructor lists the subject, or
    the subject is unknown, the pair changes nothing: no session, no record.
    Otherwise the instructor recorded for the pair is one that lists the
    subject (the availability flag is not consulted), has the least
    provisional workload at that moment, and is the first such instructor in
    first-seen order; that instructor's workload grows by the pair's weekly
    hours, no other workload changes, and the pair's sessions are appended.
    The maps and sessions [prepare_data] returns are those of the state after
    the last pair. *)
Theorem instructor_preselection
    (batches_df : list BatchRow.t) (classrooms_df : list ClassroomRow.t)
    (faculty_df : list FacultyRow.t) (subjects_df : list SubjectRow.t)
    (pre post : list (BatchRow.t * string)) (b : BatchRow.t) (s : string) :
  pairs_of batches_df = pre ++ (b, s) :: post ->
  let st := state_after faculty_df subjects_df pre in
  let st' := state_after faculty_df subjects_df (pre ++ [(b, s)]) in
  let hours_before := current_hours_of (Prep.faculty_workload st) in
  let hours_after := current_hours_of (Prep.faculty_workload st') in
  let q := qualified_list faculty_df s in
  let data := prepare_data batches_df classrooms_df faculty_df subjects_df in
  (q = [] \/ subject_row subjects_df s = None -> st' = st)
  /\ (forall row,
        subject_row subjects_df s = Some row -> q <> [] ->
        let n := _calculate_hours_per_week (SubjectRow.credits row)
                                           (SubjectRow.type row) in
        exists best l1 l2,
          q = l1 ++ best :: l2
          /\ (forall f, In f l1 -> (hours_before best < hours_before f)%Z)
          /\ (forall f, In f l2 -> (hours_before best <= hours_before f)%Z)
          /\ dict_get pair_eqb (Prep.batch_subject_faculty_map st')
                      (batch_id_of b, s) = Some best
          /\ hours_after best = (hours_before best + n)%Z
          /\ (forall f, f <> best -> hours_after f = hours_before f)
          /\ Prep.classes_to_schedule st'
             = Prep.classes_to_schedule st
               ++ repeat (ClassInfo.mk (batch_id_of b) s (SubjectRow.type row)
                            (BatchRow.student_count b) (SubjectRow.credits row) n)
                         (Z.to_nat n))
  /\ (forall f, In f q <->
        exists row, In row faculty_df /\ FacultyRow.Employee_ID row = f
                    /\ In s (subject_list (FacultyRow.subject_name row)))
  /\ Data.classes_to_schedule data
     = Prep.classes_to_schedule
         (state_after faculty_df subjects_df (pairs_of batches_df))
  /\ Data.batch_subject_faculty_map data
     = Prep.batch_subject_faculty_map
         (state_after faculty_df subjects_df (pairs_of batches_df)).
Proof.
  intros _ st st' hours_before hours_after q data.
  pose proof (opt_list_faculty faculty_df [] [] s) as Hq. simpl in Hq.
  change (opt_list [] s) with (@nil string) in Hq. simpl in Hq. fold q in Hq.
  assert (Hst' : st' = pair_step subjects_df
                         (fst (fold_left faculty_row_step faculty_df ([], [])))
                         st (b, s))
    by apply state_after_snoc.
  split; [| split; [| split]].
  - intros [H | H]; rewrite Hst'; unfold pair_step; simpl.
    + apply subject_step_none. now rewrite Hq.
    + now apply subject_step_unknown.
  - intros row Hrow Hne n.
    destruct q as [| f0 others] eqn:Eq; [contradiction |].
    pose proof (subject_step_some subjects_df _ (batch_id_of b)
                  (BatchRow.student_count b) st s row f0 others Hrow Hq) as Hstep.
    cbv zeta in Hstep. fold n in Hstep.
    destruct (first_best_least hours_before others [] f0 [])
      as [l1 [l2 [Hsplit [Hl1 Hl2]]]]; try (intros f []).
    simpl in Hsplit.
    set (best := least_loaded (Prep.faculty_workload st) f0 others) in *.
    change (first_best (fun f best => (hours_before f <? hours_before best)%Z)
                       f0 others) with best in *.
    assert (Hbest : has_entry (Prep.faculty_workload st) best).
    { apply state_after_entries, (qualified_list_ids faculty_df s).
      fold q. rewrite Eq, Hsplit. apply in_or_app. right. now left. }
    exists best, l1, l2.
    assert (Hwl : Prep.faculty_workload st'
                  = add_hours (Prep.faculty_workload st) best n).
    { rewrite Hst'. unfold pair_step. simpl fst. simpl snd. now rewrite Hstep. }
    repeat split.
    + exact Hsplit.
    + exact Hl1.
    + exact Hl2.
    + rewrite Hst'. unfold pair_step. simpl fst. simpl snd. rewrite Hstep. simpl.
      apply dict_get_set_same, pair_eqb_refl.
    + unfold hours_after. rewrite Hwl, current_hours_add by exact Hbest.
      now rewrite String.eqb_refl.
    + intros f Hf. unfold hours_after. rewrite Hwl, current_hours_add by exact Hbest.
      destruct (String.eqb best f) eqn:E; [| reflexivity].
      apply String.eqb_eq in E. congruence.
    + rewrite Hst'. unfold pair_step. simpl fst. simpl snd. now rewrite Hstep.
  - intros f. unfold q, qualified_list. rewrite in_flat_map. split.
    + intros [row [Hrow Hf]]. apply in_map_iff in Hf.
      destruct Hf as [x [<- Hx]]. apply filter_In in Hx. destruct Hx as [Hx E].
      apply String.eqb_eq in E. subst x. exists row. auto.
    + intros [row [Hrow [<- Hs]]]. exists row. split; [exact Hrow |].
      apply in_map_iff. exists s. split; [reflexivity |].
      apply filter_In. split; [exact Hs | apply String.eqb_refl].
  - pose proof (prepare_data_state batches_df classrooms_df faculty_df subjects_df)
      as H.
    cbv zeta in H. destruct H as [H1 [H2 _]]. split; assumption.
Qed.

(** The theorem at two instructors for one subject: the second cohort gets
    the second instructor, whose workload is the lower one by then. *)
Lemma instructor_preselection_witness :
  dict_get pair_eqb
    (Prep.batch_subject_faculty_map
       (state_after [FacultyRow.mk "T1" "Math" None true;
                     FacultyRow.mk "T2" "Math" None true]
                    [SubjectRow.mk "Math" 3 "Theory"]
                    [(BatchRow.mk "CS" "UG" "1" "Math" 30, "Math");
                     (BatchRow.mk "CS" "UG" "2" "Math" 30, "Math")]))
    ("CS-UG-2", "Math")
  = Some "T2".
Proof.
  pose proof (instructor_preselection
                [BatchRow.mk "CS" "UG" "1" "Math" 30;
                 BatchRow.mk "CS" "UG" "2" "Math" 30]
                []
                [FacultyRow.mk "T1" "Math" None true;
                 FacultyRow.mk "T2" "Math" None true]
                [SubjectRow.mk "Math" 3 "Theory"]
                [(BatchRow.mk "CS" "UG" "1" "Math" 30, "Math")] []
                (BatchRow.mk "CS" "UG" "2" "Math" 30) "Math" eq_refl) as H.
  cbv zeta in H. destruct H as [_ [H _]].
  destruct (H (SubjectRow.mk "Math" 3 "Theory") eq_refl ltac:(discriminate))
    as [best [l1 [l2 [Hsplit [_ [Hl2 [Hrec _]]]]]]].
  assert (Hb : best = "T2").
  { change (qualified_list _ "Math") with ["T1"; "T2"] in Hsplit.
    destruct l1 as [| x [| y l1]]; simpl in Hsplit.
    - injection Hsplit as <- <-.
      specialize (Hl2 "T2" (or_introl eq_refl)).
      vm_compute in Hl2. exfalso. apply Hl2. reflexivity.
    - injection Hsplit as _ <- _. reflexivity.
    - destruct l1; discriminate Hsplit. }
  rewrite Hb in Hrec. exact Hrec.
Defined.

(** C7, as the specification words it, fails: an instructor flagged
    unavailable is still pre-selected, for a pair that has no eligible
    instructor, and the pair's sessions are created. *)
Lemma unavailable_instructor_selected :
  Data.batch_subject_faculty_map
    (prepare_data unavailable_batches [] unavailable_faculty unavailable_subjects)
  = [("CS-UG-1", "Math", "T1")]
  /\ List.length
       (Data.classes_to_schedule
          (prepare_data unavailable_batches [] unavailable_faculty
                        unavailable_subjects)) = 2%nat
  /\ ~ eligible unavailable_faculty "Math" "T1"
  /\ ~ (exists f, eligible unavailable_faculty "Math" f).
Proof.
  split; [reflexivity | split; [reflexivity |]].
  assert (H : ~ (exists f, eligible unavailable_faculty "Math" f)).
  { intros [f [row [Hin [_ [_ Hav]]]]].
    destruct Hin as [<- | []]. discriminate Hav. }
  split; [| exact H].
  intros He. apply H. now exists "T1".
Qed.

(** ** Shared gene objects *)

(** C1 at a failing input. With one chromosome and one generation, the
    chromosome saved as best-ever is [(Monday, 1); (Monday, 4)]; the child
    bred from it is mutated on the same gene objects, and the chromosome
    [run_evolution] returns has the instructor, the cohort and the room twice
    on (Monday, 1). *)
Theorem run_evolution_returns_double_booking :
  one_child_run
  = Some ([Gene.mk "CS-UG-1" "Math" "T1" "R1" "Monday" 1 "all";
           Gene.mk "CS-UG-1" "Math" "T1" "R1" "Monday" 1 "all"],
          [1 # 31])
  /\ forall gs hist, one_child_run = Some (gs, hist) ->
       feasibleb gs = false /\ ~ feasible gs.
Proof.
  assert (E : one_child_run
              = Some ([Gene.mk "CS-UG-1" "Math" "T1" "R1" "Monday" 1 "all";
                       Gene.mk "CS-UG-1" "Math" "T1" "R1" "Monday" 1 "all"],
                      [1 # 31]))
    by (vm_compute; reflexivity).
  split; [exact E |].
  intros gs hist H. rewrite E in H. injection H as <- <-.
  split; [reflexivity |].
  intros [Hf _]. simpl in Hf. inversion Hf as [| x l Hn _]. apply Hn. now left.
Qed.

(** C10 at a failing input. With two chromosomes and one elite, the elite
    carried into the next generation and the saved best-ever chromosome are
    the chromosome [(Monday, 1); (Monday, 4)] of generation 0; once the child
    has been mutated, the same two read [(Monday, 1); (Monday, 2)]. *)
Theorem mutation_changes_elite_and_best :
  exists r,
    elite_run = Some r
    /\ hd_error (EliteRun.next_population r) = hd_error (EliteRun.population r)
    /\ hd_error (EliteRun.genes_before r)
       = Some [Gene.mk "CS-UG-1" "Math" "T1" "R1" "Monday" 1 "all";
               Gene.mk "CS-UG-1" "Math" "T1" "R1" "Monday" 4 "all"]
    /\ hd_error (EliteRun.genes_after r)
       = Some [Gene.mk "CS-UG-1" "Math" "T1" "R1" "Monday" 1 "all";
               Gene.mk "CS-UG-1" "Math" "T1" "R1" "Monday" 2 "all"]
    /\ EliteRun.best_before r = hd_error (EliteRun.genes_before r)
    /\ EliteRun.best_after r = hd_error (EliteRun.genes_after r)
    /\ EliteRun.genes_before r <> EliteRun.genes_after r.
Proof.
  destruct elite_run as [r |] eqn:E; [| vm_compute in E; discriminate E].
  exists r. split; [reflexivity |].
  vm_compute in E. injection E as <-.
  repeat split; try reflexivity. discriminate.
Qed.

Lemma histories_differ_spec call1 call2 :
  histories_differ call1 call2 = true ->
  exists sol1 config1 sol2 config2,
    call1 = Some (sol1, config1)
    /\ call2 = Some (sol2, config2)
    /\ Qeq (GAConfig.mutation_rate config1) (22 # 1000)
    /\ List.length (Solution.fitness_history sol1) = 23%nat
    /\ List.length (Solution.fitness_history sol2) = 2%nat
    /\ Solution.fitness_history sol1 <> Solution.fitness_history sol2.
Proof.
  unfold histories_differ.
  destruct call1 as [[sol1 config1] |]; [| discriminate].
  destruct call2 as [[sol2 config2] |]; [| discriminate].
  rewrite !andb_true_iff, !Nat.eqb_eq. intros [[Hq H1] H2].
  exists sol1, config1, sol2, config2.
  repeat split; auto.
  - now apply Qeq_bool_iff.
  - intros E. rewrite E in H1. congruence.
Qed.

(** C2 at a failing input. Two calls with the same seed on one optimizer
    configured for a population of 10 (mutation rate 0.02): the first call
    runs 23 generations and leaves the shared mutation rate raised to 0.022;
    the second call then mutates where the first did not and stops after 2
    generations. The fitness histories differ. *)
Theorem same_seed_different_history :
  exists sol1 config1 sol2 config2,
    first_call = Some (sol1, config1)
    /\ second_call = Some (sol2, config2)
    /\ Qeq (GAConfig.mutation_rate config1) (22 # 1000)
    /\ List.length (Solution.fitness_history sol1) = 23%nat
    /\ List.length (Solution.fitness_history sol2) = 2%nat
    /\ Solution.fitness_history sol1 <> Solution.fitness_history sol2.
Proof.
  apply histories_differ_spec. vm_compute. reflexivity.
Qed.

(** ** The generation loop *)

Lemma insert_sorted_in {A} (leb : A -> A -> bool) x y l :
  In y (insert_sorted leb x l) -> y = x \/ In y l.
Proof.
  induction l as [| z t IH]; simpl.
  - intros [<- | []]. now left.
  - destruct (leb x z); simpl.
    + intros [<- | H]; auto.
    + intros [<- | H]; auto. destruct (IH H); auto.
Qed.

Lemma sorted_in {A} (leb : A -> A -> bool) y l : In y (sorted leb l) -> In y l.
Proof.
  induction l as [| x t IH]; simpl; [auto |].
  intros H. apply insert_sorted_in in H. destruct H as [-> | H]; auto.
Qed.












(** ** Lab routing *)

Section LabRouting.
Variable batches_df : list BatchRow.t.
Variable classrooms_df : list ClassroomRow.t.
Variable faculty_df : list FacultyRow.t.
Variable subjects_df : list SubjectRow.t.

Local Abbreviation data :=
  (prepare_data batches_df classrooms_df faculty_df subjects_df).
Local Abbreviation P := (room_matches classrooms_df subjects_df).
Local Abbreviation class_ok := (class_ok subjects_df).

Lemma subject_step_classes m batch_id count st s :
  Forall class_ok (Prep.classes_to_schedule st) ->
  Forall class_ok
    (Prep.classes_to_schedule (subject_step subjects_df m batch_id count st s)).
Proof.
  intros H.
  destruct (subject_row subjects_df s) as [row |] eqn:Erow.
  - destruct (opt_list m s) as [| f0 others] eqn:Eq.
    + now rewrite subject_step_none.
    + rewrite (subject_step_some _ _ _ _ _ _ row f0 others Erow Eq).
      cbv zeta. simpl. apply Forall_app. split; [exact H |].
      apply Forall_forall. intros c Hc. apply repeat_spec in Hc. subst c.
      exists row. simpl. auto.
  - now rewrite subject_step_unknown.
Qed.

Lemma classes_ok : Forall class_ok (Data.classes_to_schedule data).
Proof.
  destruct (prepare_data_state batches_df classrooms_df faculty_df subjects_df)
    as [-> _].
  unfold state_after.
  generalize (fst (fold_left faculty_row_step faculty_df ([], []))).
  intros m.
  assert (H0 : Forall class_ok
                 (Prep.classes_to_schedule
                    (Prep.mk [] [] (snd (fold_left faculty_row_step faculty_df
                                                   ([], []))))))
    by constructor.
  revert H0.
  generalize (Prep.mk [] [] (snd (fold_left faculty_row_step faculty_df ([], [])))).
  induction (pairs_of batches_df) as [| p t IH]; intros st H0; simpl;
    [exact H0 |].
  apply IH. unfold pair_step. now apply subject_step_classes.
Qed.

Lemma possible_rooms_typed class_info room :
  In room (possible_rooms_of class_info data) ->
  In room classrooms_df
  /\ (ClassInfo.subject_type class_info = "Lab"
      <-> ClassroomRow.Room_Type room = "Laboratory").
Proof.
  unfold possible_rooms_of, prepare_data.
  destruct (fold_left faculty_row_step faculty_df ([], [])) as [m w]. simpl.
  destruct (String.eqb (ClassInfo.subject_type class_info) "Lab") eqn:E;
    intros H; apply filter_In in H; destruct H as [H _];
    apply filter_In in H; destruct H as [Hin Ht]; split; auto.
  - apply String.eqb_eq in E, Ht. tauto.
  - apply negb_true_iff in Ht. apply String.eqb_neq in E, Ht. tauto.
Qed.

Lemma choice_in {A} (d : A) t g :
  In (fst (Random.choice d (d :: t) g)) (d :: t).
Proof.
  cbv beta iota delta [Random.choice Random.randbelow Random.next fst].
  match goal with
  | |- In (nth ?n _ _) _ =>
      destruct (nth_in_or_default n (d :: t) d) as [H | H];
      [exact H | rewrite H; now left]
  end.
Qed.

Lemma available_slots_rooms class_info faculty_id used rooms slots ts room :
  In (ts, room)
     (available_slots_of class_info faculty_id used rooms slots) ->
  In room rooms.
Proof.
  unfold available_slots_of. intros H. apply in_flat_map in H.
  destruct H as [ts' [_ H]].
  destruct (negb _ && negb _); [| contradiction].
  destruct (find _ rooms) as [room' |] eqn:Ef; [| contradiction].
  destruct H as [H | []]. injection H as <- <-.
  apply find_some in Ef. tauto.
Qed.

(** [_create_gene] allocates at most one gene, of the session's subject, in
    a room of the pool of the session. *)
Lemma create_gene_spec class_info used s res s' :
  _create_gene class_info used data s = (res, s') ->
  match res with
  | None => St.heap s' = St.heap s
  | Some r =>
      exists g room,
        St.heap s' = St.heap s ++ [g] /\ r = List.length (St.heap s)
        /\ Gene.subject_name g = ClassInfo.subject_name class_info
        /\ Gene.room_id g = ClassroomRow.Class_ID room
        /\ In room (possible_rooms_of class_info data)
  end.
Proof.
  unfold _create_gene.
  destruct (dict_get pair_eqb _ _) as [faculty_id |];
    [| unfold ret; intros H; injection H as <- <-; reflexivity].
  destruct (String.eqb faculty_id "");
    [unfold ret; intros H; injection H as <- <-; reflexivity |].
  destruct (possible_rooms_of class_info data) as [| room0 rooms] eqn:Erooms;
    [unfold ret; intros H; injection H as <- <-; reflexivity |].
  destruct (available_slots_of _ _ _ _ _) as [| d avail] eqn:Eav;
    [unfold ret; intros H; injection H as <- <-; reflexivity |].
  unfold bind, rand, new_gene, alloc, ret.
  pose proof (choice_in d avail (St.rng s)) as Hin.
  destruct (Random.choice d (d :: avail) (St.rng s)) as [[ts room] g'].
  cbn [fst] in Hin. cbn beta iota.
  intros H. injection H as <- <-. simpl.
  eexists. exists room. repeat split.
  rewrite <- Eav in Hin. apply available_slots_rooms in Hin. exact Hin.
Qed.

Lemma P_of_class class_info g room :
  class_ok class_info ->
  Gene.subject_name g = ClassInfo.subject_name class_info ->
  Gene.room_id g = ClassroomRow.Class_ID room ->
  In room (possible_rooms_of class_info data) ->
  P g.
Proof.
  intros [subject [Hrow Ht]] Hs Hr Hin.
  apply possible_rooms_typed in Hin. destruct Hin as [Hin Hty].
  exists room, subject. rewrite Hs, Hr, <- Ht. auto.
Qed.

Lemma create_loop_spec classes :
  forall chromosome used s c s',
    Forall class_ok classes ->
    create_loop data classes chromosome used s = (c, s') ->
    exists new,
      St.heap s' = St.heap s ++ new
      /\ Forall P new
      /\ forall r, In r c ->
           In r chromosome
           \/ (List.length (St.heap s) <= r < List.length (St.heap s'))%nat.
Proof.
  induction classes as [| class_info rest IH];
    intros chromosome used s c s' Hok; simpl.
  - unfold ret. intros H. injection H as <- <-.
    exists []. rewrite app_nil_r. repeat split; auto.
  - unfold bind.
    destruct (_create_gene class_info used data s) as [[r |] s1] eqn:Eg;
      apply create_gene_spec in Eg.
    + destruct Eg as [g [room [Hh [Hr [Hs [Hroom Hin]]]]]].
      unfold get_heap. intros H.
      apply IH in H; [| now inversion Hok].
      destruct H as [new [Hh' [Hnew Hrefs]]].
      exists (g :: new). rewrite Hh', Hh, <- app_assoc. simpl.
      split; [reflexivity |]. split.
      * constructor; [| exact Hnew].
        inversion Hok as [| x l Hc _]. subst.
        eapply P_of_class; eassumption.
      * intros r' Hr'. destruct (Hrefs r' Hr') as [Hc | Hc].
        -- apply in_app_or in Hc. destruct Hc as [Hc | [<- | []]]; [now left |].
           right. rewrite Hr, !length_app. simpl. lia.
        -- right. rewrite Hh', Hh in Hc. rewrite !length_app in *.
           simpl in *. lia.
    + intros H. apply IH in H; [| now inversion Hok].
      rewrite Eg in H. exact H.
Qed.

Lemma class_keys_spec classes :
  forall s keyed s',
    class_keys classes s = (keyed, s') ->
    St.heap s' = St.heap s /\ map snd keyed = classes.
Proof.
  induction classes as [| x rest IH]; intros s keyed s'; simpl.
  - unfold ret. intros H. injection H as <- <-. auto.
  - unfold bind, rand, ret.
    destruct (Random.random (St.rng s)) as [u g].
    destruct (class_keys rest _) as [keyed' s1] eqn:E.
    apply IH in E. destruct E as [Hh Hm]. simpl in Hh.
    intros H. injection H as <- <-. simpl. rewrite Hm. auto.
Qed.

Lemma create_chromosome_spec s c s' :
  create_chromosome data s = (c, s') ->
  exists new,
    St.heap s' = St.heap s ++ new
    /\ Forall P new
    /\ forall r, In r c ->
         (List.length (St.heap s) <= r < List.length (St.heap s'))%nat.
Proof.
  unfold create_chromosome, bind.
  destruct (class_keys (Data.classes_to_schedule data) s) as [keyed s1] eqn:Ek.
  apply class_keys_spec in Ek. destruct Ek as [Hh Hm].
  intros H. apply create_loop_spec in H.
  - destruct H as [new [Hh' [Hnew Hrefs]]]. rewrite Hh in *.
    exists new. repeat split; auto.
    + destruct (Hrefs r H) as [[] | Hr]. lia.
    + destruct (Hrefs r H) as [[] | Hr]. lia.
  - apply Forall_forall. intros ci Hci. apply in_map_iff in Hci.
    destruct Hci as [kc [<- Hkc]]. apply sorted_in in Hkc.
    pose proof classes_ok as Hall. rewrite <- Hm in Hall.
    rewrite Forall_forall in Hall. apply Hall. now apply in_map.
Qed.

End LabRouting.

(** ** What the operators leave untouched *)

Lemma same_static_refl h : same_static h h.
Proof. split; auto. Qed.

Lemma same_static_trans h1 h2 h3 :
  same_static h1 h2 -> same_static h2 h3 -> same_static h1 h3.
Proof.
  intros [L1 S1] [L2 S2]. split; [congruence |].
  intros r. now rewrite S2, S1.
Qed.

Lemma update_at_length {A} (f : A -> A) l : forall i,
  List.length (update_at i f l) = List.length l.
Proof.
  induction l as [| x t IH]; intros [| i]; simpl; auto.
Qed.

Lemma update_at_nth {A B} (f : A -> A) (obs : A -> B) d l :
  (forall x, obs (f x) = obs x) ->
  forall i r, obs (nth r (update_at i f l) d) = obs (nth r l d).
Proof.
  intros Hf. induction l as [| x t IH]; intros [| i] [| r]; simpl; auto.
Qed.

Lemma store_slot_static h r ts : same_static h (store_slot h r ts).
Proof.
  unfold store_slot. split; [apply update_at_length |].
  intros r'. unfold deref. apply update_at_nth. reflexivity.
Qed.

Lemma room_matches_static classrooms_df subjects_df g g' :
  static g' = static g ->
  room_matches classrooms_df subjects_df g ->
  room_matches classrooms_df subjects_df g'.
Proof.
  unfold static. intros E [room [subject H]]. injection E as _ Es _ Er _.
  exists room, subject. now rewrite Es, Er.
Qed.

Section Placed.
Variable classrooms_df : list ClassroomRow.t.
Variable subjects_df : list SubjectRow.t.
Local Abbreviation P := (room_matches classrooms_df subjects_df).

Lemma placed_static h h' c : same_static h h' -> placed P h c -> placed P h' c.
Proof.
  intros [L S] [HP Hr]. split.
  - unfold genes_of in *. rewrite Forall_map in *.
    eapply Forall_impl; [| exact HP]. intros r. simpl.
    apply room_matches_static, S.
  - intros r Hin. rewrite L. auto.
Qed.

Lemma placed_app h new c : placed P h c -> placed P (h ++ new) c.
Proof.
  intros [HP Hr]. split.
  - unfold genes_of in *. rewrite Forall_map in *.
    rewrite Forall_forall in *. intros r Hin. unfold deref.
    rewrite app_nth1 by auto. now apply HP.
  - intros r Hin. rewrite length_app. specialize (Hr r Hin). lia.
Qed.

Lemma placed_incl h c c' : incl c' c -> placed P h c -> placed P h c'.
Proof.
  intros Hi [HP Hr]. split.
  - unfold genes_of in *. rewrite Forall_map in *.
    rewrite Forall_forall in *. auto.
  - auto.
Qed.

Lemma placed_nil h : placed P h [].
Proof. split; [constructor | intros r []]. Qed.

Lemma placed_app_chromosomes h c1 c2 :
  placed P h c1 -> placed P h c2 -> placed P h (c1 ++ c2).
Proof.
  intros [H1 R1] [H2 R2]. split.
  - unfold genes_of in *. rewrite map_app. now apply Forall_app.
  - intros r Hin. apply in_app_or in Hin. destruct Hin; auto.
Qed.

End Placed.

Lemma repair_scan_incl h c : forall u, incl (repair_scan h u c) c.
Proof.
  induction c as [| r rest IH]; intros u; simpl; [apply incl_refl |].
  destruct (Used.conflicts u (deref h r)).
  - apply incl_tl, IH.
  - apply incl_cons; [now left | apply incl_tl, IH].
Qed.

Lemma repair_incl h c : incl (_repair_chromosome h c) c.
Proof. rewrite repair_as_scan. apply repair_scan_incl. Qed.

Lemma first_best_in {A} (better : A -> A -> bool) l :
  forall b, In (first_best better b l) (b :: l).
Proof.
  induction l as [| x t IH]; intros b; simpl; [now left |].
  destruct (IH (if better x b then x else b)) as [H | H]; [| auto].
  destruct (better x b); auto.
Qed.

Lemma update_at_in {A} (v : A) l : forall j x,
  In x (update_at j (fun _ => v) l) -> x = v \/ In x l.
Proof.
  induction l as [| y t IH]; intros [| j] x; simpl; try tauto.
  - intros [<- | H]; auto.
  - intros [<- | H]; auto. destruct (IH j x H); auto.
Qed.

Lemma removelast_in {A} (l : list A) x : In x (removelast l) -> In x l.
Proof.
  induction l as [| y t IH]; simpl; [auto |].
  destruct t; [intros [] |]. intros [<- | H]; [now left | right; auto].
Qed.

Lemma last_in {A} (d : A) l : l <> [] -> In (last l d) l.
Proof.
  induction l as [| y t IH]; [congruence |]. intros _.
  destruct t as [| z t']; [now left |].
  right. apply IH. discriminate.
Qed.

Lemma sample_cons {A} k (d : A) t g :
  Random.sample (S k) (d :: t) g
  = let '(j, g1) := Random.randbelow (List.length (d :: t)) g in
    let '(rest, g2) :=
      Random.sample k
        (removelast (update_at j (fun _ => last (d :: t) d) (d :: t))) g1 in
    (nth j (d :: t) d :: rest, g2).
Proof. reflexivity. Qed.

Lemma sample_in {A} k : forall (pool : list A) g x,
  In x (fst (Random.sample k pool g)) -> In x pool.
Proof.
  induction k as [| k IH]; intros pool g x; [simpl; intros [] |].
  destruct pool as [| d t]; [simpl; intros [] |].
  rewrite sample_cons.
  destruct (Random.randbelow (List.length (d :: t)) g) as [j g1].
  destruct (Random.sample k _ g1) as [rest g2] eqn:E.
  cbn [fst]. intros [<- | H].
  - destruct (nth_in_or_default j (d :: t) d) as [Hn | Hn];
      [exact Hn | rewrite Hn; now left].
  - assert (Hin : In x (fst (Random.sample k
                   (removelast (update_at j (fun _ => last (d :: t) d) (d :: t)))
                   g1))) by (rewrite E; exact H).
    apply IH, removelast_in, update_at_in in Hin.
    destruct Hin as [-> | Hin]; [apply last_in; discriminate | exact Hin].
Qed.

Lemma sample_heap {A} k (pool : list A) s :
  St.heap (snd (rand (Random.sample k pool) s)) = St.heap s.
Proof. unfold rand. destruct (Random.sample k pool (St.rng s)). reflexivity. Qed.

Lemma tournament_spec config population_fitness s c s' :
  tournament_selection config population_fitness s = (Some c, s') ->
  St.heap s' = St.heap s /\ In c (map snd population_fitness).
Proof.
  unfold tournament_selection.
  destruct (_ <? 0)%Z; [unfold ret; discriminate |].
  unfold bind, rand.
  destruct (Random.sample _ population_fitness (St.rng s)) as [tournament g] eqn:E.
  destruct tournament as [| x rest]; unfold ret; [discriminate |].
  intros H. injection H as <- <-. split; [reflexivity |].
  apply in_map.
  eapply (sample_in _ population_fitness (St.rng s)). rewrite E. cbn [fst].
  apply first_best_in.
Qed.

Lemma firstn_incl {A} n (l : list A) : incl (firstn n l) l.
Proof. intros x H. rewrite <- (firstn_skipn n l). apply in_or_app. now left. Qed.

Lemma skipn_incl {A} n (l : list A) : incl (skipn n l) l.
Proof. intros x H. rewrite <- (firstn_skipn n l). apply in_or_app. now right. Qed.

Lemma crossover_spec parent1 parent2 s child s' :
  crossover parent1 parent2 s = (child, s') ->
  St.heap s' = St.heap s /\ incl child (parent1 ++ parent2).
Proof.
  unfold crossover.
  destruct parent1 as [| a p1]; [| destruct parent2 as [| b p2]].
  - unfold ret. intros H. injection H as <- <-. split; [reflexivity |].
    apply incl_refl.
  - unfold ret. intros H. injection H as <- <-. split; [reflexivity |].
    rewrite app_nil_r. apply incl_refl.
  - destruct (_ <? 2)%Z.
    + unfold ret. intros H. injection H as <- <-. split; [reflexivity |].
      apply incl_appl, incl_refl.
    + unfold bind, rand, get_heap, ret.
      destruct (Random.randint 1 _ (St.rng s)) as [point1 g1].
      cbn [St.rng St.heap].
      destruct (Random.randint _ _ g1) as [point2 g2].
      cbn [St.rng St.heap].
      intros H. injection H as <- <-. split; [reflexivity |].
      eapply incl_tran; [apply repair_incl |].
      apply incl_app; [| apply incl_app].
      * apply incl_appl, firstn_incl.
      * apply incl_appr. unfold slice.
        eapply incl_tran; [apply firstn_incl | apply skipn_incl].
      * apply incl_appl, skipn_incl.
Qed.

(** The child is a parent as it is, or the repair of a recombination. *)
Lemma crossover_shape parent1 parent2 s child s' :
  crossover parent1 parent2 s = (child, s') ->
  child = parent1 \/ child = parent2
  \/ exists mixed, child = _repair_chromosome (St.heap s') mixed.
Proof.
  unfold crossover.
  destruct parent1 as [| a p1]; [| destruct parent2 as [| b p2]].
  - unfold ret. intros H. injection H as <- <-. auto.
  - unfold ret. intros H. injection H as <- <-. auto.
  - destruct (_ <? 2)%Z.
    + unfold ret. intros H. injection H as <- <-. auto.
    + unfold bind, rand, get_heap, ret.
      destruct (Random.randint 1 _ (St.rng s)) as [point1 g1].
      cbn [St.rng St.heap].
      destruct (Random.randint _ _ g1) as [point2 g2].
      cbn [St.rng St.heap].
      intros H. injection H as <- <-. right. right. eexists. reflexivity.
Qed.

Ltac run_random :=
  repeat (cbn [St.rng St.heap];
          match goal with
          | |- context [Random.random ?g] =>
              destruct (Random.random g) as [? ?]
          | |- context [@Random.choice ?A ?d ?l ?g] =>
              destruct (@Random.choice A d l g) as [? ?]
          | |- context [Random.randint ?a ?b ?g] =>
              destruct (Random.randint a b g) as [? ?]
          | |- context [@Random.sample ?A ?k ?p ?g] =>
              destruct (@Random.sample A k p g) as [? ?]
          end);
  cbn [St.rng St.heap].

Lemma mutate_spec mutation_rate c s c' s' :
  mutate mutation_rate c s = (c', s') ->
  same_static (St.heap s) (St.heap s') /\ incl c' c.
Proof.
  unfold mutate.
  destruct c as [| r0 c0].
  - unfold ret. intros H. injection H as <- <-.
    split; [apply same_static_refl | apply incl_refl].
  - remember (r0 :: c0) as c eqn:Ec. clear Ec.
    unfold bind, rand, get_heap, set_gene_slot, ret.
    run_random.
    destruct (negb (Qle_bool _ mutation_rate)).
    + intros H. injection H as <- <-.
      split; [apply same_static_refl | apply incl_refl].
    + run_random.
      match goal with k : mutation_type |- _ => destruct k end.
      * run_random. intros H. injection H as <- <-. cbn [St.heap].
        split; [apply store_slot_static | apply repair_incl].
      * destruct (len c >? 1)%Z.
        -- run_random. intros H. injection H as <- <-. cbn [St.heap].
           split; [| apply repair_incl].
           eapply same_static_trans; apply store_slot_static.
        -- intros H. injection H as <- <-. cbn [St.heap].
           split; [apply same_static_refl | apply repair_incl].
      * intros H. injection H as <- <-. cbn [St.heap].
        split; [apply same_static_refl | apply repair_incl].
Qed.

(** ** Lab routing through the generations *)

Section Generations.
Variable batches_df : list BatchRow.t.
Variable classrooms_df : list ClassroomRow.t.
Variable faculty_df : list FacultyRow.t.
Variable subjects_df : list SubjectRow.t.
Local Abbreviation data :=
  (prepare_data batches_df classrooms_df faculty_df subjects_df).
Local Abbreviation P := (room_matches classrooms_df subjects_df).

Lemma create_chromosome_placed s c s' :
  create_chromosome data s = (c, s') ->
  (exists new, St.heap s' = St.heap s ++ new) /\ placed P (St.heap s') c.
Proof.
  intros H. apply create_chromosome_spec in H.
  destruct H as [new [Hh [Hnew Hrefs]]].
  split; [now exists new |]. split.
  - unfold genes_of. rewrite Forall_map, Forall_forall. intros r Hin.
    specialize (Hrefs r Hin). rewrite Hh in *. unfold deref.
    rewrite app_nth2 by lia. rewrite Forall_forall in Hnew. apply Hnew.
    apply nth_In. rewrite length_app in Hrefs. lia.
  - intros r Hin. apply (Hrefs r Hin).
Qed.

Lemma initial_population_placed n :
  forall s population s',
    initial_population n data s = (population, s') ->
    (exists new, St.heap s' = St.heap s ++ new)
    /\ forall c, In c population -> placed P (St.heap s') c.
Proof.
  induction n as [| n IH]; intros s population s'; simpl.
  - unfold ret. intros H. injection H as <- <-.
    split; [exists []; now rewrite app_nil_r | intros c []].
  - unfold bind.
    destruct (create_chromosome data s) as [c s1] eqn:Ec.
    apply create_chromosome_placed in Ec. destruct Ec as [[new1 Hh1] Hc].
    destruct (initial_population n data s1) as [rest s2] eqn:Er.
    apply IH in Er. destruct Er as [[new2 Hh2] Hrest].
    unfold ret. intros H. injection H as <- <-. split.
    + exists (new1 ++ new2). now rewrite Hh2, Hh1, app_assoc.
    + intros c' [<- | Hin]; [| now apply Hrest].
      rewrite Hh2. now apply placed_app.
Qed.

Lemma offspring_placed turns :
  forall config population_fitness next_population s children s',
    offspring turns config population_fitness next_population s
    = (Some children, s') ->
    (forall c, In c (map snd population_fitness) -> placed P (St.heap s) c) ->
    (forall c, In c next_population -> placed P (St.heap s) c) ->
    same_static (St.heap s) (St.heap s')
    /\ forall c, In c children -> placed P (St.heap s') c.
Proof.
  induction turns as [| turns IH];
    intros config pf np s children s'; simpl.
  - unfold ret. intros H Hpf Hnp. injection H as <- <-.
    split; [apply same_static_refl | exact Hnp].
  - unfold bind.
    destruct (tournament_selection config pf s) as [[parent1 |] s1] eqn:E1.
    2:{ destruct (tournament_selection config pf s1) as [[parent2 |] s2];
          unfold ret; discriminate. }
    apply tournament_spec in E1. destruct E1 as [H1 Hp1].
    destruct (tournament_selection config pf s1) as [[parent2 |] s2] eqn:E2;
      [| unfold ret; discriminate].
    apply tournament_spec in E2. destruct E2 as [H2 Hp2].
    destruct (crossover parent1 parent2 s2) as [child s3] eqn:E3.
    apply crossover_spec in E3. destruct E3 as [H3 Hchild].
    destruct (mutate (GAConfig.mutation_rate config) child s3)
      as [child' s4] eqn:E4.
    apply mutate_spec in E4. destruct E4 as [H4 Hchild'].
    rewrite H3, H2, H1 in H4.
    intros H Hpf Hnp. apply IH in H.
    + destruct H as [Hs Hc]. split; [| exact Hc].
      eapply same_static_trans; eassumption.
    + intros c Hc. eapply placed_static; [exact H4 | auto].
    + intros c Hc. apply in_app_or in Hc. destruct Hc as [Hc | [<- | []]].
      * eapply placed_static; [exact H4 | auto].
      * eapply placed_static; [exact H4 |].
        eapply placed_incl; [exact Hchild' |].
        eapply placed_incl; [exact Hchild |].
        apply placed_app_chromosomes; auto.
Qed.

Lemma ranked_chromosomes h population c :
  In c (map snd (ranked h population)) -> In c population.
Proof.
  intros H. apply in_map_iff in H. destruct H as [[f c'] [<- H]].
  apply sorted_in, in_map_iff in H. destruct H as [c0 [E Hc]].
  injection E as _ <-. exact Hc.
Qed.

Lemma slice_to_incl {A} k (l : list A) : incl (slice_to k l) l.
Proof. unfold slice_to. destruct (k <? 0)%Z; apply firstn_incl. Qed.

Lemma generation_placed l s fl l' s' :
  generation l s = (Some (fl, l'), s') ->
  loop_placed P (St.heap s) l ->
  loop_placed P (St.heap s') l'.
Proof.
  intros H [Hpop [Hbest _]].
  pose proof (ranked_chromosomes (St.heap s) (Loop.population l)) as Hranked.
  revert H. unfold generation, bind, get_heap.
  fold (ranked (St.heap s) (Loop.population l)).
  destruct (ranked (St.heap s) (Loop.population l)) as [| [f top] rest] eqn:Er;
    [discriminate |].
  assert (Htop : placed P (St.heap s) top)
    by (apply Hpop, Hranked; now left).
  assert (Hbest' :
            forall c,
              (if negb (Qle_bool f (Loop.best_fitness l)) then Some top
               else Loop.best_chromosome l) = Some c ->
              placed P (St.heap s) c).
  { intros c. destruct (negb _); [intros E; injection E as <-; exact Htop | apply Hbest]. }
  destruct (Qle_bool (99 # 100) f).
  - unfold ret. intros H. injection H as <- <- <-.
    unfold loop_placed. simpl. split; [exact Hpop | split; [exact Hbest' |]].
    intros pf E. injection E as <-. intros c Hc. apply Hpop, Hranked, Hc.
  - match goal with
    | |- context [offspring ?n ?c ?pf ?np s] =>
        destruct (offspring n c pf np s) as [[children |] s2] eqn:Eo
    end; unfold ret; [| discriminate].
    apply offspring_placed in Eo.
    + destruct Eo as [Hs Hchildren].
      intros H. injection H as <- <- <-.
      unfold loop_placed. simpl. split; [exact Hchildren | split].
      * intros c Hc. eapply placed_static; [exact Hs | auto].
      * intros pf E. injection E as <-. intros c Hc.
        eapply placed_static; [exact Hs |]. apply Hpop, Hranked, Hc.
    + intros c Hc. apply Hpop, Hranked, Hc.
    + intros c Hc. apply Hpop, Hranked.
      apply in_map_iff in Hc. destruct Hc as [x [<- Hx]].
      apply in_map. eapply slice_to_incl, Hx.
Qed.

Lemma generations_placed n :
  forall l s l' s',
    generations n l s = (Some l', s') ->
    loop_placed P (St.heap s) l ->
    loop_placed P (St.heap s') l'.
Proof.
  induction n as [| n IH]; intros l s l' s'; simpl.
  - unfold ret. intros H. injection H as <- <-. auto.
  - unfold bind.
    destruct (generation l s) as [[[fl l1] |] s1] eqn:Eg; [| discriminate].
    intros H Hl. pose proof (generation_placed _ _ _ _ _ Eg Hl) as Hl1.
    destruct fl.
    + eapply IH; eassumption.
    + unfold ret in H. injection H as <- <-. exact Hl1.
Qed.

Lemma run_evolution_placed config db s r s' :
  run_evolution config data db s = (Some r, s') ->
  placed P (St.heap s') (Run.chromosome r).
Proof.
  unfold run_evolution, bind.
  destruct (initial_population _ data s) as [population s1] eqn:Ei.
  apply initial_population_placed in Ei. destruct Ei as [_ Hpop].
  destruct (generations _ _ s1) as [[l |] s2] eqn:Eg; [| discriminate].
  apply generations_placed in Eg.
  2:{ unfold loop_placed. simpl. split; [exact Hpop | split; discriminate]. }
  destruct Eg as [_ [Hbest Hpf]].
  destruct db; simpl negb; cbv iota; [| discriminate].
  destruct (Loop.best_chromosome l) as [[| g c] |] eqn:Eb.
  - destruct (Loop.population_fitness l) as [[| [f top] rest] |];
      try discriminate.
    unfold ret. intros H. injection H as <- <-. simpl.
    apply (Hpf _ eq_refl). now left.
  - unfold ret. intros H. injection H as <- <-. simpl. now apply Hbest.
  - destruct (Loop.population_fitness l) as [[| [f top] rest] |];
      try discriminate.
    unfold ret. intros H. injection H as <- <-. simpl.
    apply (Hpf _ eq_refl). now left.
Qed.

End Generations.

Lemma fits_incl (P : Gene.t -> Prop) h c c' :
  incl c' c -> Forall P (genes_of h c) -> Forall P (genes_of h c').
Proof.
  unfold genes_of. rewrite !Forall_map, !Forall_forall. auto.
Qed.

Lemma fits_static classrooms_df subjects_df h h' c :
  same_static h h' ->
  Forall (room_matches classrooms_df subjects_df) (genes_of h c) ->
  Forall (room_matches classrooms_df subjects_df) (genes_of h' c).
Proof.
  intros [_ S]. unfold genes_of. rewrite !Forall_map.
  apply Forall_impl. intros r. apply room_matches_static, S.
Qed.

(** C8. Every assignment of a chromosome built by [create_chromosome] sits
    in a room of the room table whose type is Laboratory when the subject of
    the assignment is a Lab and is not Laboratory otherwise. Repair keeps a
    part of the chromosome and writes no gene; crossover writes no gene and
    its child is made of genes of the parents; mutation writes only the day
    and the hour of genes, never the room or the subject; so all three keep
    the property, and the chromosome [run_evolution] returns has it. *)
Theorem lab_sessions_in_laboratories
    (batches_df : list BatchRow.t) (classrooms_df : list ClassroomRow.t)
    (faculty_df : list FacultyRow.t) (subjects_df : list SubjectRow.t) :
  let data := prepare_data batches_df classrooms_df faculty_df subjects_df in
  let fits := room_matches classrooms_df subjects_df in
  (forall s c s',
      create_chromosome data s = (c, s') ->
      Forall fits (genes_of (St.heap s') c))
  /\ (forall h c,
        incl (_repair_chromosome h c) c
        /\ (Forall fits (genes_of h c) ->
            Forall fits (genes_of h (_repair_chromosome h c))))
  /\ (forall parent1 parent2 s child s',
        crossover parent1 parent2 s = (child, s') ->
        St.heap s' = St.heap s
        /\ (Forall fits (genes_of (St.heap s) parent1) ->
            Forall fits (genes_of (St.heap s) parent2) ->
            Forall fits (genes_of (St.heap s') child)))
  /\ (forall mutation_rate c s c' s',
        mutate mutation_rate c s = (c', s') ->
        (forall r,
            Gene.room_id (deref (St.heap s') r)
            = Gene.room_id (deref (St.heap s) r)
            /\ Gene.subject_name (deref (St.heap s') r)
               = Gene.subject_name (deref (St.heap s) r))
        /\ (Forall fits (genes_of (St.heap s) c) ->
            Forall fits (genes_of (St.heap s') c')))
  /\ (forall config db s r s',
        run_evolution config data db s = (Some r, s') ->
        Forall fits (genes_of (St.heap s') (Run.chromosome r))).
Proof.
  intros data fits. split; [| split; [| split; [| split]]].
  - intros s c s' H.
    apply (create_chromosome_placed batches_df classrooms_df faculty_df
             subjects_df) in H.
    destruct H as [_ [H _]]. exact H.
  - intros h c. split; [apply repair_incl |].
    apply fits_incl, repair_incl.
  - intros parent1 parent2 s child s' H.
    apply crossover_spec in H. destruct H as [Hh Hi].
    split; [exact Hh |]. intros H1 H2. rewrite Hh.
    apply (fits_incl fits _ (parent1 ++ parent2)); [exact Hi |].
    unfold genes_of. rewrite map_app. now apply Forall_app.
  - intros mutation_rate c s c' s' H.
    apply mutate_spec in H. destruct H as [Hs Hi]. split.
    + intros r. destruct Hs as [_ Hs]. specialize (Hs r).
      unfold static in Hs. injection Hs as _ Es _ Er _. auto.
    + intros Hc. apply (fits_incl fits _ c); [exact Hi |].
      eapply fits_static; eassumption.
  - intros config db s r s' H.
    apply (run_evolution_placed batches_df classrooms_df faculty_df
             subjects_df) in H.
    destruct H as [H _]. exact H.
Qed.

(** Scenario B with every draw at 0: the four ProgLab sessions are in the
    laboratory R1, the two Prog sessions in the lecture hall R2. *)
Fact scenario_B_routing :
  scenario_B_rooms
  = [("ProgLab", "R1"); ("ProgLab", "R1"); ("ProgLab", "R1"); ("ProgLab", "R1");
     ("Prog", "R2"); ("Prog", "R2")].
Proof. vm_compute. reflexivity. Qed.

(** The mutated chromosome is the input as it is, on an unchanged heap, or
    the repair of the input on the heap mutation leaves. *)
Lemma mutate_shape mutation_rate c s c' s' :
  mutate mutation_rate c s = (c', s') ->
  (c' = c /\ St.heap s' = St.heap s)
  \/ c' = _repair_chromosome (St.heap s') c.
Proof.
  unfold mutate.
  destruct c as [| r0 c0].
  - unfold ret. intros H. injection H as <- <-. auto.
  - remember (r0 :: c0) as c eqn:Ec. clear Ec.
    unfold bind, rand, get_heap, set_gene_slot, ret.
    run_random.
    destruct (negb (Qle_bool _ mutation_rate)).
    + intros H. injection H as <- <-. auto.
    + run_random.
      match goal with k : mutation_type |- _ => destruct k end.
      * run_random. intros H. injection H as <- <-. cbn [St.heap]. auto.
      * destruct (len c >? 1)%Z.
        -- run_random. intros H. injection H as <- <-. cbn [St.heap]. auto.
        -- intros H. injection H as <- <-. cbn [St.heap]. auto.
      * intros H. injection H as <- <-. cbn [St.heap]. auto.
Qed.

(** ** Feasibility of what the operators return *)

Lemma slot_in_add ts d k ts' k' :
  slot_in ts (slot_add d k ts') k'
  = (String.eqb k k' && timeslot_eqb ts' ts) || slot_in ts d k'.
Proof. reflexivity. Qed.

Lemma key_not_in (key : Gene.t -> string) g d gs :
  (forall g', In g' gs ->
     slot_in (Gene.slot g') (slot_add d (key g) (Gene.slot g)) (key g') = false) ->
  ~ In (key g, Gene.slot g) (map (fun g' => (key g', Gene.slot g')) gs).
Proof.
  intros H Hin. apply in_map_iff in Hin. destruct Hin as [g' [E Hg']].
  specialize (H g' Hg'). rewrite slot_in_add in H.
  pose proof (f_equal fst E) as Ek. pose proof (f_equal snd E) as Es.
  cbn [fst snd] in Ek, Es. rewrite Ek, Es, String.eqb_refl in H.
  assert (Ht : timeslot_eqb (Gene.slot g) (Gene.slot g) = true)
    by now apply timeslot_eqb_eq.
  rewrite Ht in H. discriminate H.
Qed.

Lemma slot_in_weaken ts d k ts' k' :
  slot_in ts (slot_add d k ts') k' = false -> slot_in ts d k' = false.
Proof. rewrite slot_in_add. intros H. apply orb_false_iff in H. tauto. Qed.

Lemma repair_scan_feasible h c :
  forall u,
    let gs := genes_of h (repair_scan h u c) in
    (NoDup (map faculty_key gs)
     /\ forall g, In g gs ->
          slot_in (Gene.slot g) (Used.faculty u) (Gene.faculty_id g) = false)
    /\ (NoDup (map batch_key gs)
        /\ forall g, In g gs ->
             slot_in (Gene.slot g) (Used.batch u) (Gene.batch_id g) = false)
    /\ (NoDup (map room_key gs)
        /\ forall g, In g gs ->
             slot_in (Gene.slot g) (Used.room u) (Gene.room_id g) = false).
Proof.
  induction c as [| r rest IH]; intros u; simpl.
  - repeat split; try constructor; intros g [].
  - destruct (Used.conflicts u (deref h r)) eqn:Ec; [apply IH |].
    unfold Used.conflicts in Ec. apply orb_false_iff in Ec.
    destruct Ec as [Ec Er]. apply orb_false_iff in Ec. destruct Ec as [Ef Eb].
    destruct (IH (Used.record u (deref h r)))
      as [[Nf Hf] [[Nb Hb] [Nr Hr]]].
    simpl in Hf, Hb, Hr. simpl.
    split; [| split]; split.
    + constructor; [| exact Nf].
      apply (key_not_in Gene.faculty_id _ (Used.faculty u)), Hf.
    + intros g [<- | Hg]; [exact Ef | eapply slot_in_weaken, Hf, Hg].
    + constructor; [| exact Nb].
      apply (key_not_in Gene.batch_id _ (Used.batch u)), Hb.
    + intros g [<- | Hg]; [exact Eb | eapply slot_in_weaken, Hb, Hg].
    + constructor; [| exact Nr].
      apply (key_not_in Gene.room_id _ (Used.room u)), Hr.
    + intros g [<- | Hg]; [exact Er | eapply slot_in_weaken, Hr, Hg].
Qed.

(** What [_repair_chromosome] returns is feasible in the heap it was given. *)
Lemma repair_feasible h c : feasible (genes_of h (_repair_chromosome h c)).
Proof.
  rewrite repair_as_scan.
  destruct (repair_scan_feasible h c Used.empty) as [[Nf _] [[Nb _] [Nr _]]].
  repeat split; assumption.
Qed.

(** Crossover of feasible parents and mutation of a feasible chromosome
    return a chromosome that is feasible at the moment they return. *)
Lemma crossover_feasible parent1 parent2 s child s' :
  crossover parent1 parent2 s = (child, s') ->
  feasible (genes_of (St.heap s) parent1) ->
  feasible (genes_of (St.heap s) parent2) ->
  feasible (genes_of (St.heap s') child).
Proof.
  intros H H1 H2.
  destruct (crossover_spec _ _ _ _ _ H) as [Hh _].
  apply crossover_shape in H. rewrite Hh in *.
  destruct H as [-> | [-> | [mixed ->]]]; auto using repair_feasible.
Qed.

Lemma mutate_feasible mutation_rate c s c' s' :
  mutate mutation_rate c s = (c', s') ->
  feasible (genes_of (St.heap s) c) ->
  feasible (genes_of (St.heap s') c').
Proof.
  intros H Hc. apply mutate_shape in H.
  destruct H as [[-> ->] | ->]; auto using repair_feasible.
Qed.

(** ** Feasibility of what the constructor returns *)

Lemma available_slots_free class_info faculty_id used rooms slots ts room :
  In (ts, room) (available_slots_of class_info faculty_id used rooms slots) ->
  slot_in ts (Used.faculty used) faculty_id = false
  /\ slot_in ts (Used.batch used) (ClassInfo.batch_id class_info) = false
  /\ slot_in ts (Used.room used) (ClassroomRow.Class_ID room) = false.
Proof.
  unfold available_slots_of. intros H. apply in_flat_map in H.
  destruct H as [ts' [_ H]].
  destruct (negb (slot_in ts' (Used.faculty used) faculty_id)) eqn:Ef;
    [| contradiction].
  destruct (negb (slot_in ts' (Used.batch used) (ClassInfo.batch_id class_info)))
    eqn:Eb; [| contradiction].
  simpl in H.
  destruct (find _ rooms) as [room' |] eqn:Er; [| contradiction].
  destruct H as [H | []]. injection H as <- <-.
  apply find_some in Er. destruct Er as [_ Er].
  apply negb_true_iff in Ef, Eb, Er. auto.
Qed.

Lemma create_gene_free class_info used data s r s' :
  _create_gene class_info used data s = (Some r, s') ->
  exists g,
    St.heap s' = St.heap s ++ [g] /\ r = List.length (St.heap s)
    /\ Used.conflicts used g = false.
Proof.
  unfold _create_gene.
  destruct (dict_get pair_eqb _ _) as [faculty_id |];
    [| unfold ret; discriminate].
  destruct (String.eqb faculty_id ""); [unfold ret; discriminate |].
  destruct (possible_rooms_of class_info data) as [| room0 rooms];
    [unfold ret; discriminate |].
  destruct (available_slots_of _ _ _ _ _) as [| d avail] eqn:Eav;
    [unfold ret; discriminate |].
  unfold bind, rand, new_gene, alloc, ret.
  pose proof (choice_in d avail (St.rng s)) as Hin.
  destruct (Random.choice d (d :: avail) (St.rng s)) as [[ts room] g'].
  cbn [fst] in Hin. cbn beta iota.
  intros H. injection H as <- <-. simpl.
  eexists. split; [reflexivity |]. split; [reflexivity |].
  rewrite <- Eav in Hin. apply available_slots_free in Hin.
  destruct Hin as [Hf [Hb Hr]]. destruct ts as [day hour].
  unfold Used.conflicts, Gene.make, Gene.slot. simpl.
  now rewrite Hf, Hb, Hr.
Qed.

Lemma create_gene_none class_info used data s s' :
  _create_gene class_info used data s = (None, s') -> St.heap s' = St.heap s.
Proof.
  unfold _create_gene.
  destruct (dict_get pair_eqb _ _) as [faculty_id |];
    [| unfold ret; intros H; now injection H as <-].
  destruct (String.eqb faculty_id "");
    [unfold ret; intros H; now injection H as <- |].
  destruct (possible_rooms_of class_info data) as [| room0 rooms];
    [unfold ret; intros H; now injection H as <- |].
  destruct (available_slots_of _ _ _ _ _) as [| d avail];
    [unfold ret; intros H; now injection H as <- |].
  unfold bind, rand, new_gene, alloc, ret.
  destruct (Random.choice d (d :: avail) (St.rng s)) as [[ts room] g'].
  discriminate.
Qed.

Lemma genes_of_app h new c :
  (forall r, In r c -> (r < List.length h)%nat) ->
  genes_of (h ++ new) c = genes_of h c.
Proof.
  intros Hr. unfold genes_of. apply map_ext_in. intros r Hin.
  unfold deref. apply app_nth1. auto.
Qed.

Lemma slot_in_true_conflict (key : Gene.t -> string) d g gs :
  (forall g', In g' gs -> slot_in (Gene.slot g') d (key g') = true) ->
  slot_in (Gene.slot g) d (key g) = false ->
  ~ In (key g, Gene.slot g) (map (fun g' => (key g', Gene.slot g')) gs).
Proof.
  intros Hcov Hfree Hin. apply in_map_iff in Hin. destruct Hin as [g' [E Hg']].
  specialize (Hcov g' Hg').
  pose proof (f_equal fst E) as Ek. pose proof (f_equal snd E) as Es.
  cbn [fst snd] in Ek, Es. rewrite Ek, Es in Hcov. congruence.
Qed.

Lemma NoDup_snoc {A} (l : list A) x : NoDup l -> ~ In x l -> NoDup (l ++ [x]).
Proof.
  intros Hl Hx. apply NoDup_app; [exact Hl | repeat constructor; intros [] |].
  intros a Ha [<- | []]. contradiction.
Qed.

Lemma feasible_snoc used gs g :
  feasible gs -> covered used gs -> Used.conflicts used g = false ->
  feasible (gs ++ [g]) /\ covered (Used.record used g) (gs ++ [g]).
Proof.
  intros [Nf [Nb Nr]] Hcov Hfree.
  unfold Used.conflicts in Hfree. apply orb_false_iff in Hfree.
  destruct Hfree as [Hfree Hr]. apply orb_false_iff in Hfree.
  destruct Hfree as [Hf Hb]. split.
  - unfold feasible. rewrite !map_app. simpl.
    repeat split; apply NoDup_snoc; try assumption.
    + apply (slot_in_true_conflict Gene.faculty_id (Used.faculty used));
        [intros g' Hg'; apply Hcov, Hg' | exact Hf].
    + apply (slot_in_true_conflict Gene.batch_id (Used.batch used));
        [intros g' Hg'; apply Hcov, Hg' | exact Hb].
    + apply (slot_in_true_conflict Gene.room_id (Used.room used));
        [intros g' Hg'; apply Hcov, Hg' | exact Hr].
  - intros g' Hg'. unfold Used.record.
    cbn [Used.faculty Used.batch Used.room]. rewrite !slot_in_add.
    apply in_app_or in Hg'. destruct Hg' as [Hg' | [<- | []]].
    + destruct (Hcov g' Hg') as [H1 [H2 H3]]. rewrite H1, H2, H3.
      now rewrite !orb_true_r.
    + assert (Ht : timeslot_eqb (Gene.slot g) (Gene.slot g) = true)
        by now apply timeslot_eqb_eq.
      now rewrite !String.eqb_refl, Ht.
Qed.

Lemma create_loop_feasible data classes :
  forall chromosome used s c s',
    create_loop data classes chromosome used s = (c, s') ->
    (forall r, In r chromosome -> (r < List.length (St.heap s))%nat) ->
    feasible (genes_of (St.heap s) chromosome) ->
    covered used (genes_of (St.heap s) chromosome) ->
    feasible (genes_of (St.heap s') c).
Proof.
  induction classes as [| class_info rest IH];
    intros chromosome used s c s'; simpl.
  - unfold ret. intros H. injection H as <- <-. auto.
  - unfold bind.
    destruct (_create_gene class_info used data s) as [[r |] s1] eqn:Eg.
    + apply create_gene_free in Eg. destruct Eg as [g [Hh [Hr Hfree]]].
      unfold get_heap. intros H Hvalid Hfeas Hcov.
      assert (Hg : deref (St.heap s1) r = g).
      { rewrite Hh, Hr. unfold deref.
        rewrite app_nth2, Nat.sub_diag by lia. reflexivity. }
      assert (Hgs : genes_of (St.heap s1) (chromosome ++ [r])
                    = genes_of (St.heap s) chromosome ++ [g]).
      { unfold genes_of at 1. rewrite map_app. simpl. rewrite Hg.
        f_equal. rewrite Hh. now apply genes_of_app. }
      destruct (feasible_snoc used _ g Hfeas Hcov Hfree) as [Hfeas' Hcov'].
      apply IH in H; [exact H | | |].
      * intros r' Hr'. rewrite Hh, length_app. simpl.
        apply in_app_or in Hr'. destruct Hr' as [Hr' | [<- | []]].
        -- specialize (Hvalid r' Hr'). lia.
        -- lia.
      * now rewrite Hgs.
      * rewrite Hg, Hgs. exact Hcov'.
    + apply create_gene_none in Eg. intros H Hvalid Hfeas Hcov.
      apply IH in H; [exact H | | |]; rewrite Eg; assumption.
Qed.

(** What [create_chromosome] returns is feasible. *)
Lemma create_chromosome_feasible data s c s' :
  create_chromosome data s = (c, s') -> feasible (genes_of (St.heap s') c).
Proof.
  unfold create_chromosome, bind.
  destruct (class_keys (Data.classes_to_schedule data) s) as [keyed s1].
  intros H. apply create_loop_feasible in H; [exact H | | |].
  - intros r [].
  - repeat split; constructor.
  - intros g [].
Qed.

(** * Further properties of the repair optimiser *)

(** ** Loops over identifiers, row by row *)

Lemma for_entries_stored_from p f stored :
  forall rows pre,
    List.length rows = List.length stored ->
    for_entries f (query_from (List.length pre) p stored) (pre ++ rows)
    = pre ++ map (fun x => if p (fst x) then f (snd x) else snd x)
                 (combine stored rows).
Proof.
  induction stored as [| e0 t0 IH]; intros [| e t] pre Hlen;
    try discriminate Hlen; [reflexivity |].
  simpl in Hlen. injection Hlen as Hlen.
  simpl query_from. simpl combine. simpl map.
  destruct (p e0) eqn:He.
  - unfold for_entries. simpl fold_left. rewrite update_at_app.
    rewrite (shift_app pre (f e) t), <- length_snoc with (e := f e).
    unfold for_entries in IH. rewrite IH by exact Hlen.
    now rewrite <- app_assoc.
  - rewrite (shift_app pre e t), <- length_snoc with (e := e).
    rewrite IH by exact Hlen. now rewrite <- app_assoc.
Qed.

Lemma for_entries_stored p f stored rows :
  List.length rows = List.length stored ->
  for_entries f (query p stored) rows
  = map (fun x => if p (fst x) then f (snd x) else snd x) (combine stored rows).
Proof. exact (for_entries_stored_from p f stored rows []). Qed.

Lemma combine_rewritten {A} (h : A -> A -> A) (stored : list A) :
  forall rows,
    combine stored (map (fun x => h (fst x) (snd x)) (combine stored rows))
    = map (fun x => (fst x, h (fst x) (snd x))) (combine stored rows).
Proof.
  induction stored as [| e0 t0 IH]; intros [| e t]; simpl; try reflexivity.
  now rewrite IH.
Qed.

Lemma combine_rewritten_length {A} (h : A -> A -> A) (stored rows : list A) :
  List.length rows = List.length stored ->
  List.length (map (fun x => h (fst x) (snd x)) (combine stored rows))
  = List.length stored.
Proof. intros H. rewrite length_map, length_combine. lia. Qed.

Lemma map_snd_combine {A} (stored : list A) :
  forall rows,
    List.length rows = List.length stored ->
    map (@snd A A) (combine stored rows) = rows.
Proof.
  induction stored as [| e0 t0 IH]; intros [| e t] H; try discriminate H;
    [reflexivity |].
  simpl in *. injection H as H. now rewrite IH.
Qed.

Lemma map_combine_self {A B} (F : A * A -> B) (l : list A) :
  map F (combine l l) = map (fun e => F (e, e)) l.
Proof. induction l as [| e t IH]; simpl; [reflexivity | now rewrite IH]. Qed.

(** A loop of steps that each rewrite the rows selected on the stored table
    rewrites every row by the writes of the iterations that select it. *)
Lemma fold_stored_steps {ID} (stored : list Timetable.t)
    (step : list Timetable.t -> ID -> list Timetable.t)
    (g : Timetable.t -> Timetable.t -> ID -> Timetable.t) :
  (forall rows id,
      List.length rows = List.length stored ->
      step rows id = map (fun x => g (fst x) (snd x) id) (combine stored rows)) ->
  forall ids,
    fold_left step ids stored = map (fun e0 => fold_left (g e0) ids e0) stored.
Proof.
  intros Hstep ids.
  assert (H : forall rows,
             List.length rows = List.length stored ->
             fold_left step ids rows
             = map (fun x => fold_left (g (fst x)) ids (snd x))
                   (combine stored rows)).
  { induction ids as [| id t IH]; intros rows Hlen; simpl.
    - symmetry. now apply map_snd_combine.
    - rewrite Hstep by exact Hlen.
      rewrite IH by (now apply (combine_rewritten_length (fun a b => g a b id))).
      rewrite (combine_rewritten (fun a b => g a b id)), map_map.
      reflexivity. }
  rewrite H by reflexivity. now rewrite map_combine_self.
Qed.

Lemma fold_left_ext {A B} (F G : A -> B -> A) l :
  (forall a b, F a b = G a b) -> forall a, fold_left F l a = fold_left G l a.
Proof.
  intros H. induction l as [| b t IH]; intros a; simpl; [reflexivity |].
  now rewrite H, IH.
Qed.

Lemma fold_row_write {ID A} (pred : ID -> bool) (f : A -> A) ids :
  (forall e, f (f e) = f e) ->
  forall e,
    fold_left (fun e id => if pred id then f e else e) ids e
    = if existsb pred ids then f e else e.
Proof.
  intros Hf. induction ids as [| id t IH]; intros e; simpl; [reflexivity |].
  rewrite IH. destruct (pred id); simpl; [| reflexivity].
  rewrite Hf. now destruct (existsb pred t).
Qed.

Lemma faculty_emergency_rows faculty_ids substitute_ids db :
  Db.timetables (_handle_faculty_emergency faculty_ids substitute_ids db)
  = map (fun e0 =>
           fold_left (faculty_emergency_row substitute_ids (Db.timetables db) e0)
                     (combine (seq 0 (List.length faculty_ids)) faculty_ids) e0)
        (Db.timetables db).
Proof.
  unfold _handle_faculty_emergency. cbv zeta. cbn [Db.timetables Db.set_timetables].
  apply fold_stored_steps. intros rows [i id] Hlen.
  unfold faculty_emergency_step, faculty_emergency_row. cbn [fst snd].
  destruct (nth_error substitute_ids i) as [sub |];
    [destruct (_check_substitute_availability sub _ (Db.timetables db)) |];
    rewrite for_entries_stored by exact Hlen; apply map_ext; intros [e0 e];
    cbn [fst snd]; reflexivity.
Qed.

Lemma room_emergency_rows room_ids replacement_room_ids db :
  Db.timetables (_handle_room_emergency room_ids replacement_room_ids db)
  = map (fun e0 =>
           fold_left (room_emergency_row (Db.batches db) (Db.classrooms db)
                                         replacement_room_ids e0)
                     (combine (seq 0 (List.length room_ids)) room_ids) e0)
        (Db.timetables db).
Proof.
  unfold _handle_room_emergency. cbv zeta. cbn [Db.timetables Db.set_timetables].
  apply fold_stored_steps. intros rows [i id] Hlen.
  unfold room_emergency_step, room_emergency_row. cbn [fst snd].
  destruct (nth_error replacement_room_ids i) as [p |];
    [destruct (find_classroom (Db.classrooms db) p) as [room |] |];
    rewrite for_entries_stored by exact Hlen; apply map_ext; intros [e0 e];
    cbn [fst snd]; reflexivity.
Qed.

Lemma batch_emergency_rows batch_ids alternative_slots db :
  Db.timetables (_handle_batch_emergency batch_ids alternative_slots db)
  = map (fun e0 => fold_left (batch_emergency_row e0) batch_ids e0)
        (Db.timetables db).
Proof.
  unfold _handle_batch_emergency. cbv zeta. cbn [Db.timetables Db.set_timetables].
  apply fold_stored_steps. intros rows id Hlen.
  unfold batch_emergency_step, batch_emergency_row.
  now rewrite for_entries_stored by exact Hlen.
Qed.

Lemma existsb_pairs (pred : string -> bool) (l : list string) :
  forall k,
    existsb (fun p : nat * string => pred (snd p)) (combine (seq k (List.length l)) l)
    = existsb pred l.
Proof.
  induction l as [| x t IH]; intros k; simpl; [reflexivity | now rewrite IH].
Qed.

Lemma existsb_faculty ids e :
  existsb (fun id => active_of_faculty id e) ids
  = is_active e && listed ids (Timetable.faculty_id e).
Proof.
  unfold active_of_faculty, is_active, listed.
  induction ids as [| id t IH]; simpl; [now rewrite andb_false_r |].
  rewrite IH. destruct (String.eqb (Timetable.status e) "active");
    now rewrite ?andb_true_r, ?andb_false_r.
Qed.

Lemma existsb_room ids e :
  existsb (fun id => active_in_room id e) ids
  = is_active e && listed ids (Timetable.room_id e).
Proof.
  unfold active_in_room, is_active, listed.
  induction ids as [| id t IH]; simpl; [now rewrite andb_false_r |].
  rewrite IH. destruct (String.eqb (Timetable.status e) "active");
    now rewrite ?andb_true_r, ?andb_false_r.
Qed.


Lemma nth_error_nil {A} i : @nth_error A [] i = None.
Proof. destruct i; reflexivity. Qed.

(** X1. Without substitutes, [_handle_faculty_emergency] cancels exactly the
    active rows of the listed instructors, in one pass over the table: a row
    is cancelled when it is active and its instructor is listed, and is left
    as it was otherwise. Read field by field: the status of such a row is
    "cancelled" afterwards, every other status, and the instructor, room,
    cohort, subject, day and hour of every row are as before. *)
Theorem faculty_emergency_without_substitutes
    (faculty_ids : list string) (db : Db.t) :
  let rows := Db.timetables db in
  let rows' := Db.timetables (_handle_faculty_emergency faculty_ids [] db) in
  let hit e := is_active e && listed faculty_ids (Timetable.faculty_id e) in
  rows' = map (fun e => if hit e then Timetable.set_status "cancelled" e else e)
              rows
  /\ map Timetable.status rows'
     = map (fun e => if hit e then "cancelled" else Timetable.status e) rows
  /\ map Timetable.faculty_id rows' = map Timetable.faculty_id rows
  /\ map Timetable.room_id rows' = map Timetable.room_id rows
  /\ map session_of rows' = map session_of rows.
Proof.
  intros rows rows' hit.
  assert (E : rows' = map (fun e => if hit e
                                    then Timetable.set_status "cancelled" e
                                    else e) rows).
  { subst rows rows' hit. rewrite faculty_emergency_rows.
    apply map_ext. intros e0.
    rewrite (fold_left_ext _
               (fun e (p : nat * string) =>
                  if active_of_faculty (snd p) e0
                  then Timetable.set_status "cancelled" e else e)).
    - rewrite (fold_row_write (fun p : nat * string =>
                                 active_of_faculty (snd p) e0)) by reflexivity.
      rewrite (existsb_pairs (fun id => active_of_faculty id e0)).
      now rewrite existsb_faculty.
    - intros e [i id]. unfold faculty_emergency_row. cbn [fst snd].
      now rewrite nth_error_nil. }
  rewrite E. split; [reflexivity |].
  rewrite !map_map.
  split; [| split; [| split]]; apply map_ext; intros e; destruct (hit e);
    reflexivity.
Qed.

(** X2. Without replacement rooms, [_handle_room_emergency] cancels exactly
    the active rows held in the listed rooms and leaves every other row as it
    was. Read field by field: the status of such a row is "cancelled"
    afterwards, every other status, and the room, instructor, cohort,
    subject, day and hour of every row are as before. *)
Theorem room_emergency_without_replacements
    (room_ids : list string) (db : Db.t) :
  let rows := Db.timetables db in
  let rows' := Db.timetables (_handle_room_emergency room_ids [] db) in
  let hit e := is_active e && listed room_ids (Timetable.room_id e) in
  rows' = map (fun e => if hit e then Timetable.set_status "cancelled" e else e)
              rows
  /\ map Timetable.status rows'
     = map (fun e => if hit e then "cancelled" else Timetable.status e) rows
  /\ map Timetable.room_id rows' = map Timetable.room_id rows
  /\ map Timetable.faculty_id rows' = map Timetable.faculty_id rows
  /\ map session_of rows' = map session_of rows.
Proof.
  intros rows rows' hit.
  assert (E : rows' = map (fun e => if hit e
                                    then Timetable.set_status "cancelled" e
                                    else e) rows).
  { subst rows rows' hit. rewrite room_emergency_rows.
    apply map_ext. intros e0.
    rewrite (fold_left_ext _
               (fun e (p : nat * string) =>
                  if active_in_room (snd p) e0
                  then Timetable.set_status "cancelled" e else e)).
    - rewrite (fold_row_write (fun p : nat * string =>
                                 active_in_room (snd p) e0)) by reflexivity.
      rewrite (existsb_pairs (fun id => active_in_room id e0)).
      now rewrite existsb_room.
    - intros e [i id]. unfold room_emergency_row. cbn [fst snd].
      now rewrite nth_error_nil. }
  rewrite E. split; [reflexivity |].
  rewrite !map_map.
  split; [| split; [| split]]; apply map_ext; intros e; destruct (hit e);
    reflexivity.
Qed.



(** X4. With one instructor and one substitute, [_handle_faculty_emergency]
    is all or nothing: if the substitute already teaches at a slot of an
    affected row, every active row of the instructor is cancelled (its
    status reads "cancelled", its instructor is kept); otherwise every
    active row of the instructor goes to the substitute (its instructor
    reads the substitute, its status is kept). No other row changes, no
    room, cohort, subject, day or hour changes, and the affected rows are
    never split between the two outcomes. *)
Theorem faculty_emergency_substitutes_or_cancels
    (faculty_id substitute_id : string) (db : Db.t) :
  let rows := Db.timetables db in
  let rows' :=
    Db.timetables (_handle_faculty_emergency [faculty_id] [substitute_id] db) in
  (slot_conflict rows faculty_id substitute_id ->
     rows' = map (fun e => if active_of_faculty faculty_id e
                           then Timetable.set_status "cancelled" e else e) rows
     /\ map Timetable.status rows'
        = map (fun e => if active_of_faculty faculty_id e
                        then "cancelled" else Timetable.status e) rows
     /\ map Timetable.faculty_id rows' = map Timetable.faculty_id rows)
  /\ (~ slot_conflict rows faculty_id substitute_id ->
      rows' = map (fun e => if active_of_faculty faculty_id e
                            then Timetable.set_faculty_id substitute_id e
                            else e) rows
      /\ map Timetable.faculty_id rows'
         = map (fun e => if active_of_faculty faculty_id e
                         then substitute_id else Timetable.faculty_id e) rows
      /\ map Timetable.status rows' = map Timetable.status rows)
  /\ map Timetable.room_id rows' = map Timetable.room_id rows
  /\ map session_of rows' = map session_of rows.
Proof.
  intros rows rows'.
  pose proof (check_false_iff rows faculty_id substitute_id) as Hck.
  assert (E : rows'
              = map (fun e =>
                       if active_of_faculty faculty_id e
                       then if _check_substitute_availability substitute_id
                                 (query (active_of_faculty faculty_id) rows) rows
                            then Timetable.set_faculty_id substitute_id e
                            else Timetable.set_status "cancelled" e
                       else e) rows).
  { subst rows rows'. rewrite faculty_emergency_rows. reflexivity. }
  rewrite E. clear E rows'.
  destruct (_check_substitute_availability substitute_id _ rows).
  - split; [| split].
    + intros H. apply Hck in H. discriminate H.
    + intros _. split; [reflexivity |]. rewrite !map_map.
      split; apply map_ext; intros e;
        destruct (active_of_faculty faculty_id e); reflexivity.
    + rewrite !map_map.
      split; apply map_ext; intros e;
        destruct (active_of_faculty faculty_id e); reflexivity.
  - split; [| split].
    + intros _. split; [reflexivity |]. rewrite !map_map.
      split; apply map_ext; intros e;
        destruct (active_of_faculty faculty_id e); reflexivity.
    + intros H. exfalso. apply H, Hck. reflexivity.
    + rewrite !map_map.
      split; apply map_ext; intros e;
        destruct (active_of_faculty faculty_id e); reflexivity.
Qed.

(** On the live table B is free at the slots of A: the two active rows of A
    go to B.  In Scenario C B teaches at a slot of A: the rows of A are
    cancelled instead. *)
Lemma faculty_emergency_substitutes_or_cancels_witness :
  map Timetable.faculty_id
      (Db.timetables (_handle_faculty_emergency ["A"] ["B"] live_db))
  = ["B"; "B"; "B"; "B"]
  /\ map Timetable.status
         (Db.timetables (_handle_faculty_emergency ["A"] ["B"] scenario_C))
     = ["cancelled"; "active"; "cancelled"].
Proof.
  split.
  - destruct (faculty_emergency_substitutes_or_cancels "A" "B" live_db)
      as [_ [Hfree _]].
    destruct Hfree as [_ [Hids _]]; [| rewrite Hids; reflexivity].
    intros [a [s [Ha [Hpa [Hs [Hps Heq]]]]]].
    simpl in Ha, Hs.
    destruct Ha as [<- | [<- | [<- | [<- | []]]]]; try discriminate Hpa;
      destruct Hs as [<- | [<- | [<- | [<- | []]]]]; try discriminate Hps;
      discriminate Heq.
  - destruct (faculty_emergency_substitutes_or_cancels "A" "B" scenario_C)
      as [Hbusy _].
    destruct Hbusy as [_ [Hst _]]; [| rewrite Hst; reflexivity].
    exists (Timetable.mk "CS-UG-1" "Math" "A" "R1" "Monday" 1 "active"),
           (Timetable.mk "CS-UG-2" "Physics" "B" "R2" "Monday" 1 "active").
    simpl. repeat split; auto.
Defined.

Lemma room_row_written batches classrooms replacement_room_ids room_ids e0 e p :
  (forall x, In x replacement_room_ids -> ~ In x room_ids) ->
  active_in_room (snd p) e0 = true ->
  is_active (room_emergency_row batches classrooms replacement_room_ids e0 e p)
  = true ->
  ~ In (Timetable.room_id
          (room_emergency_row batches classrooms replacement_room_ids e0 e p))
       room_ids.
Proof.
  intros Hdisj Ha. unfold room_emergency_row. rewrite Ha.
  destruct (nth_error replacement_room_ids (fst p)) as [p' |] eqn:En;
    [| discriminate].
  apply nth_error_In in En.
  destruct (find_classroom classrooms p') as [room |]; [| discriminate].
  rewrite emergency_entry_cases.
  destruct (over_capacity batches room e); [discriminate |].
  intros _. simpl. now apply Hdisj.
Qed.

Lemma room_fold_kept batches classrooms replacement_room_ids room_ids e0 pairs :
  (forall x, In x replacement_room_ids -> ~ In x room_ids) ->
  forall e,
    (is_active e = true -> ~ In (Timetable.room_id e) room_ids) ->
    is_active (fold_left (room_emergency_row batches classrooms
                            replacement_room_ids e0) pairs e) = true ->
    ~ In (Timetable.room_id
            (fold_left (room_emergency_row batches classrooms
                          replacement_room_ids e0) pairs e)) room_ids.
Proof.
  intros Hdisj. induction pairs as [| p t IH]; intros e He; simpl; [exact He |].
  apply IH.
  destruct (active_in_room (snd p) e0) eqn:Ea.
  - now apply room_row_written.
  - unfold room_emergency_row. rewrite Ea. exact He.
Qed.

Lemma room_fold_written batches classrooms replacement_room_ids room_ids e0 pairs :
  (forall x, In x replacement_room_ids -> ~ In x room_ids) ->
  forall e,
    existsb (fun p : nat * string => active_in_room (snd p) e0) pairs = true ->
    is_active (fold_left (room_emergency_row batches classrooms
                            replacement_room_ids e0) pairs e) = true ->
    ~ In (Timetable.room_id
            (fold_left (room_emergency_row batches classrooms
                          replacement_room_ids e0) pairs e)) room_ids.
Proof.
  intros Hdisj. induction pairs as [| p t IH]; intros e; simpl; [discriminate |].
  destruct (active_in_room (snd p) e0) eqn:Ea; simpl.
  - intros _. apply room_fold_kept; [exact Hdisj |].
    now apply room_row_written.
  - intros Hex. unfold room_emergency_row at 2 4. rewrite Ea. now apply IH.
Qed.

Lemma room_fold_untouched batches classrooms replacement_room_ids e0 pairs :
  forall e,
    existsb (fun p : nat * string => active_in_room (snd p) e0) pairs = false ->
    fold_left (room_emergency_row batches classrooms replacement_room_ids e0)
              pairs e = e.
Proof.
  induction pairs as [| p t IH]; intros e; simpl; [reflexivity |].
  intros H. apply orb_false_iff in H. destruct H as [Ha Ht].
  unfold room_emergency_row at 2. rewrite Ha. now apply IH.
Qed.

Lemma listed_in ids id : In id ids -> listed ids id = true.
Proof.
  intros H. unfold listed. apply existsb_exists. exists id.
  split; [exact H | apply String.eqb_refl].
Qed.

(** X5. When no replacement room is itself one of the rooms taken out of
    service, [_handle_room_emergency] vacates them: afterwards no active row
    sits in any of the listed rooms (each was moved to a replacement or
    cancelled), also when a room is listed more than once. *)
Theorem room_emergency_vacates_rooms
    (room_ids replacement_room_ids : list string) (db : Db.t) :
  (forall p, In p replacement_room_ids -> ~ In p room_ids) ->
  forall e,
    In e (Db.timetables (_handle_room_emergency room_ids replacement_room_ids db)) ->
    is_active e = true ->
    ~ In (Timetable.room_id e) room_ids.
Proof.
  intros Hdisj e He Hact.
  rewrite room_emergency_rows in He. apply in_map_iff in He.
  destruct He as [e0 [<- _]].
  destruct (existsb (fun p : nat * string => active_in_room (snd p) e0)
                    (combine (seq 0 (List.length room_ids)) room_ids)) eqn:Ex.
  - eapply room_fold_written; eassumption.
  - rewrite room_fold_untouched in * by exact Ex.
    rewrite (existsb_pairs (fun id => active_in_room id e0)), existsb_room,
      Hact in Ex.
    intros Hin. apply listed_in in Hin. simpl in Ex. congruence.
Qed.

(** Room R2 is listed twice, with replacements R1 and R3: its active row is
    written by both iterations and ends in R3; no active row is left in R2. *)
Lemma room_emergency_vacates_rooms_witness :
  (map Timetable.room_id
       (Db.timetables (_handle_room_emergency ["R2"; "R2"] ["R1"; "R3"] live_db))
   = ["R1"; "R3"; "R1"; "R1"]
   /\ In (Timetable.mk "CS-UG-2" "Physics" "B" "R3" "Monday" 2 "active")
         (Db.timetables (_handle_room_emergency ["R2"; "R2"] ["R1"; "R3"]
                                                live_db)))
  /\ ("R3" = "R2" -> False).
Proof.
  split; [split; [reflexivity | vm_compute; auto] |].
  intros H.
  apply (room_emergency_vacates_rooms ["R2"; "R2"] ["R1"; "R3"] live_db) with
    (e := Timetable.mk "CS-UG-2" "Physics" "B" "R3" "Monday" 2 "active").
  - intros p [<- | [<- | []]] [E | [E | []]]; discriminate E.
  - vm_compute. auto.
  - reflexivity.
  - left. symmetry. exact H.
Defined.

Lemma fold_left_kept {A ID B} (obs : A -> B) (g : A -> ID -> A) ids :
  (forall e id, obs (g e id) = obs e) ->
  forall e, obs (fold_left g ids e) = obs e.
Proof.
  intros H. induction ids as [| id t IH]; intros e; simpl; [reflexivity |].
  now rewrite IH, H.
Qed.

(** X6. Whatever the emergency type and the lists it is given,
    [handle_emergency_optimization] neither adds nor deletes a timetable row
    and never changes the cohort, the subject, the day or the hour of a row:
    it only rewrites instructors, rooms and statuses. *)
Theorem emergency_keeps_sessions
    (emergency_type : string) (affected_entities replacement_entities : list string)
    (db : Db.t) :
  map session_of
      (Db.timetables (handle_emergency_optimization emergency_type
                        affected_entities replacement_entities db))
  = map session_of (Db.timetables db).
Proof.
  unfold handle_emergency_optimization.
  destruct (String.eqb emergency_type "faculty_unavailable");
    [| destruct (String.eqb emergency_type "room_unavailable");
       [| destruct (String.eqb emergency_type "batch_schedule_change")]];
    cbn [Db.timetables Db.add_log]; try reflexivity.
  - rewrite faculty_emergency_rows, map_map. apply map_ext. intros e0.
    apply fold_left_kept. intros e [i f]. unfold faculty_emergency_row.
    cbn [fst snd].
    destruct (active_of_faculty f e0); [| reflexivity].
    destruct (nth_error replacement_entities i) as [s |]; [| reflexivity].
    destruct (_check_substitute_availability s _ (Db.timetables db));
      reflexivity.
  - rewrite room_emergency_rows, map_map. apply map_ext. intros e0.
    apply fold_left_kept. intros e [i r]. unfold room_emergency_row.
    cbn [fst snd].
    destruct (active_in_room r e0); [| reflexivity].
    destruct (nth_error replacement_entities i) as [p |]; [| reflexivity].
    destruct (find_classroom (Db.classrooms db) p) as [room |];
      [| reflexivity].
    rewrite emergency_entry_cases.
    destruct (over_capacity (Db.batches db) room e); reflexivity.
  - rewrite batch_emergency_rows, map_map. apply map_ext. intros e0.
    apply fold_left_kept. intros e b. unfold batch_emergency_row.
    destruct (active_of_batch b e0); reflexivity.
Qed.

(** ** Instructor substitution, further *)

(** The rows after [handle_teacher_leave_optimization]: untouched, or, when
    there is no slot conflict, the active rows of the original instructor
    handed to the substitute. *)
Lemma leave_rows_cases leave_id original substitute db :
  let rows := Db.timetables db in
  let rows' :=
    Db.timetables (handle_teacher_leave_optimization leave_id original
                                                     substitute db) in
  rows' = rows
  \/ (~ slot_conflict rows original substitute
      /\ rows' = map (fun e => if active_of_faculty original e
                               then Timetable.set_faculty_id substitute e
                               else e) rows).
Proof.
  intros rows rows'. subst rows rows'.
  unfold handle_teacher_leave_optimization.
  destruct (negb (existsb (Z.eqb leave_id) (Db.teacher_leaves db)));
    [now left |].
  pose proof (check_false_iff (Db.timetables db) original substitute) as Hck.
  pose proof (for_entries_filter (active_of_faculty original)
                (Timetable.set_faculty_id substitute) (Db.timetables db))
    as Hupd.
  destruct (query (active_of_faculty original) (Db.timetables db))
    as [| i idxs]; [now left |].
  destruct (_check_substitute_availability substitute (i :: idxs)
              (Db.timetables db)); simpl; [| now left].
  right. split; [| exact Hupd].
  intros Hc. apply Hck in Hc. discriminate Hc.
Qed.

Lemma substitute_slots original substitute rows :
  map Timetable.slot
      (filter (active_of_faculty substitute)
              (map (fun e => if active_of_faculty original e
                             then Timetable.set_faculty_id substitute e else e)
                   rows))
  = map Timetable.slot
        (filter (fun e => active_of_faculty original e
                          || active_of_faculty substitute e) rows).
Proof.
  induction rows as [| e t IH]; [reflexivity |]. simpl.
  destruct (active_of_faculty original e) eqn:Ea; simpl.
  - assert (Hs : active_of_faculty substitute
                   (Timetable.set_faculty_id substitute e) = true).
    { unfold active_of_faculty in *. simpl. rewrite String.eqb_refl.
      apply andb_true_iff in Ea. destruct Ea as [_ ->]. reflexivity. }
    rewrite Hs. simpl. now rewrite IH.
  - destruct (active_of_faculty substitute e); simpl; now rewrite IH.
Qed.

Lemma merged_slots_distinct (pa pb : Timetable.t -> bool) rows :
  NoDup (map Timetable.slot (filter pa rows)) ->
  NoDup (map Timetable.slot (filter pb rows)) ->
  (forall a b, In a rows -> pa a = true -> In b rows -> pb b = true ->
               Timetable.slot a <> Timetable.slot b) ->
  NoDup (map Timetable.slot (filter (fun e => pa e || pb e) rows)).
Proof.
  induction rows as [| e t IH]; intros Ha Hb Hab; simpl; [constructor |].
  assert (Ha' : NoDup (map Timetable.slot (filter pa t))).
  { simpl in Ha. destruct (pa e); [now inversion Ha | exact Ha]. }
  assert (Hb' : NoDup (map Timetable.slot (filter pb t))).
  { simpl in Hb. destruct (pb e); [now inversion Hb | exact Hb]. }
  assert (IH' : NoDup (map Timetable.slot (filter (fun e => pa e || pb e) t))).
  { apply IH; auto. intros a b Hia Hpa Hib Hpb. apply Hab; simpl; auto. }
  destruct (pa e || pb e) eqn:E; [| exact IH'].
  simpl. constructor; [| exact IH'].
  intros Hin. apply in_map_iff in Hin. destruct Hin as [e' [Hs He']].
  apply filter_In in He'. destruct He' as [Hin' Hp'].
  apply orb_true_iff in Hp'. apply orb_true_iff in E.
  destruct (pa e) eqn:Epa.
  - destruct Hp' as [Hp' | Hp'].
    + simpl in Ha. rewrite Epa in Ha. simpl in Ha. inversion Ha as [| x l Hn _].
      apply Hn. apply in_map_iff. exists e'. split; [exact Hs |].
      apply filter_In. auto.
    + apply (Hab e e'); simpl; auto.
  - destruct E as [E | E]; [discriminate |].
    destruct Hp' as [Hp' | Hp'].
    + apply (Hab e' e); simpl; auto.
    + simpl in Hb. rewrite E in Hb. simpl in Hb. inversion Hb as [| x l Hn _].
      apply Hn. apply in_map_iff. exists e'. split; [exact Hs |].
      apply filter_In. auto.
Qed.

(** X7. Instructor substitution keeps the substitute's timetable free of
    clashes: if neither the original instructor nor the substitute had two
    active rows at one slot before [handle_teacher_leave_optimization], the
    substitute has none afterwards, whether the substitution was applied,
    refused or not attempted. *)
Theorem substitution_keeps_substitute_conflict_free
    (leave_id : Z) (original substitute : string) (db : Db.t) :
  conflict_free (Db.timetables db) original ->
  conflict_free (Db.timetables db) substitute ->
  conflict_free
    (Db.timetables (handle_teacher_leave_optimization leave_id original
                                                      substitute db))
    substitute.
Proof.
  intros Ho Hs.
  destruct (leave_rows_cases leave_id original substitute db) as [-> | [Hn ->]];
    [exact Hs |].
  unfold conflict_free. rewrite substitute_slots.
  apply merged_slots_distinct; [exact Ho | exact Hs |].
  intros a b Ha Hpa Hb Hpb Heq. apply Hn. exists a, b. auto.
Qed.

(** A request that applies: B takes over the rows of A and stays free of
    clashes. *)
Lemma substitution_keeps_substitute_conflict_free_witness :
  conflict_free
    (Db.timetables (handle_teacher_leave_optimization 7 "A" "B" live_db)) "B"
  /\ map Timetable.faculty_id
         (Db.timetables (handle_teacher_leave_optimization 7 "A" "B" live_db))
     = ["B"; "B"; "B"; "B"].
Proof.
  split; [| reflexivity].
  apply substitution_keeps_substitute_conflict_free;
    unfold conflict_free; simpl; repeat constructor; simpl; intuition discriminate.
Defined.

(** X8. After a substitution that was applied (the leave request exists,
    the substitute is another instructor and there is no slot conflict), the
    original instructor has no active row left, and the substitute's active
    rows are the previous ones of both, in table order. *)
Theorem substitution_frees_original
    (leave_id : Z) (original substitute : string) (db : Db.t) :
  In leave_id (Db.teacher_leaves db) ->
  original <> substitute ->
  ~ slot_conflict (Db.timetables db) original substitute ->
  let rows' :=
    Db.timetables (handle_teacher_leave_optimization leave_id original
                                                     substitute db) in
  filter (active_of_faculty original) rows' = []
  /\ map session_of (filter (active_of_faculty substitute) rows')
     = map session_of
           (filter (fun e => active_of_faculty original e
                             || active_of_faculty substitute e)
                   (Db.timetables db)).
Proof.
  intros Hleave Hne Hn rows'.
  assert (Hrows : rows' = map (fun e => if active_of_faculty original e
                                        then Timetable.set_faculty_id substitute e
                                        else e) (Db.timetables db)).
  { subst rows'. unfold handle_teacher_leave_optimization.
    assert (Hex : existsb (Z.eqb leave_id) (Db.teacher_leaves db) = true).
    { apply existsb_exists. exists leave_id. split; [exact Hleave | apply Z.eqb_refl]. }
    rewrite Hex. simpl negb. cbv iota.
    pose proof (check_false_iff (Db.timetables db) original substitute) as Hck.
    pose proof (for_entries_filter (active_of_faculty original)
                  (Timetable.set_faculty_id substitute) (Db.timetables db))
      as Hupd.
    destruct (query (active_of_faculty original) (Db.timetables db))
      as [| i idxs]; [exact Hupd |].
    destruct (_check_substitute_availability substitute (i :: idxs)
                (Db.timetables db)); simpl; [exact Hupd |].
    exfalso. apply Hn, Hck. reflexivity. }
  rewrite Hrows. clear Hrows rows'. split.
  - induction (Db.timetables db) as [| e t IH]; [reflexivity |]. simpl.
    destruct (active_of_faculty original e) eqn:Ea.
    + assert (Hf : active_of_faculty original
                     (Timetable.set_faculty_id substitute e) = false).
      { unfold active_of_faculty. simpl.
        assert (E : String.eqb substitute original = false)
          by (apply String.eqb_neq; congruence).
        now rewrite E. }
      rewrite Hf. apply IH.
      intros [a [s [Ha [Hpa [Hs [Hps Heq]]]]]]. apply Hn.
      exists a, s. simpl. auto 10.
    + rewrite Ea. apply IH.
      intros [a [s [Ha [Hpa [Hs [Hps Heq]]]]]]. apply Hn.
      exists a, s. simpl. auto 10.
  - clear Hn. induction (Db.timetables db) as [| e t IH]; [reflexivity |]. simpl.
    destruct (active_of_faculty original e) eqn:Ea; simpl.
    + assert (Hs : active_of_faculty substitute
                     (Timetable.set_faculty_id substitute e) = true).
      { unfold active_of_faculty in *. simpl. rewrite String.eqb_refl.
        apply andb_true_iff in Ea. destruct Ea as [_ ->]. reflexivity. }
      rewrite Hs. simpl. now rewrite IH.
    + destruct (active_of_faculty substitute e); simpl; now rewrite IH.
Qed.

(** B has no row at the slots of A in this table, so A's rows go to B. *)
Lemma substitution_frees_original_witness :
  filter (active_of_faculty "A")
         (Db.timetables (handle_teacher_leave_optimization 7 "A" "B" live_db))
  = []
  /\ List.length
       (filter (active_of_faculty "B")
               (Db.timetables (handle_teacher_leave_optimization 7 "A" "B"
                                 live_db))) = 3%nat.
Proof.
  split; [| reflexivity].
  apply (substitution_frees_original 7 "A" "B" live_db).
  - simpl. auto.
  - discriminate.
  - intros [a [s [Ha [Hpa [Hs [Hps Heq]]]]]].
    simpl in Ha, Hs.
    destruct Ha as [<- | [<- | [<- | [<- | []]]]]; try discriminate Hpa;
      destruct Hs as [<- | [<- | [<- | [<- | []]]]]; try discriminate Hps;
      discriminate Heq.
Defined.

(** ** Planned room change, accounting *)

Lemma filter_split_length {A} (p q : A -> bool) (l : list A) :
  (List.length (filter (fun x => p x && negb (q x)) l)
   + List.length (filter (fun x => p x && q x) l)
   = List.length (filter p l))%nat.
Proof.
  induction l as [| x t IH]; [reflexivity |]. simpl.
  destruct (p x), (q x); simpl; lia.
Qed.

(** X9. [optimize_for_room_change] accounts for every affected row exactly
    once, and touches nothing but the room: when the new room is unknown the
    timetable is unchanged and nothing is broadcast; otherwise the number of
    rows moved plus the number of capacity issues reported is the number of
    active rows of the old room in the affected cohorts. On both paths no
    row is added or removed, and cohort, subject, day, hour, instructor and
    status of every row stay as they were. *)
Theorem room_change_accounts_for_every_row
    (old_room_id new_room_id : string) (affected_batches : option (list string))
    (db : Db.t) :
  let r := optimize_for_room_change old_room_id new_room_id affected_batches db in
  let affected e :=
    active_in_room old_room_id e && in_batches affected_batches e in
  (map session_of (Db.timetables (fst r)) = map session_of (Db.timetables db)
   /\ map Timetable.faculty_id (Db.timetables (fst r))
      = map Timetable.faculty_id (Db.timetables db)
   /\ map Timetable.status (Db.timetables (fst r))
      = map Timetable.status (Db.timetables db))
  /\ match snd r with
     | Some message =>
         (RoomChange.success_count message
          + len (RoomChange.capacity_issues message)
          = len (filter affected (Db.timetables db)))%Z
     | None =>
         find_classroom (Db.classrooms db) new_room_id = None
         /\ Db.timetables (fst r) = Db.timetables db
     end.
Proof.
  intros r affected. subst r. unfold optimize_for_room_change.
  destruct (find_classroom (Db.classrooms db) new_room_id) as [new_room |] eqn:Hroom.
  - unfold query.
    pose proof (room_change_fold (Db.batches db) new_room new_room_id affected
                  (Db.timetables db) [] 0%Z []) as Hf.
    simpl List.length in Hf. simpl app in Hf.
    fold affected. rewrite Hf. cbn [fst snd Db.timetables Db.set_timetables Db.add_log
                                   RoomChange.success_count
                                   RoomChange.capacity_issues].
    split; [split; [| split] |].
    + rewrite map_map. apply map_ext. intros e.
      destruct (affected e && negb (over_capacity (Db.batches db) new_room e));
        reflexivity.
    + rewrite map_map. apply map_ext. intros e.
      destruct (affected e && negb (over_capacity (Db.batches db) new_room e));
        reflexivity.
    + rewrite map_map. apply map_ext. intros e.
      destruct (affected e && negb (over_capacity (Db.batches db) new_room e));
        reflexivity.
    + unfold len. rewrite length_map.
      pose proof (filter_split_length affected
                    (over_capacity (Db.batches db) new_room)
                    (Db.timetables db)) as Hs.
      lia.
  - simpl. auto.
Qed.

(** * Further properties of the engine *)

(** ** Feasibility of the operators *)

Lemma create_loop_length data classes :
  forall chromosome used s,
    (List.length (fst (create_loop data classes chromosome used s))
     <= List.length chromosome + List.length classes)%nat.
Proof.
  induction classes as [| class_info rest IH]; intros chromosome used s; simpl.
  - unfold ret. simpl. lia.
  - unfold bind.
    destruct (_create_gene class_info used data s) as [[r |] s1].
    + unfold get_heap.
      specialize (IH (chromosome ++ [r])
                     (Used.record used (deref (St.heap s1) r)) s1).
      rewrite length_app in IH. simpl in IH. lia.
    + specialize (IH chromosome used s1). lia.
Qed.

Lemma sorted_length {A} (leb : A -> A -> bool) (l : list A) :
  List.length (sorted leb l) = List.length l.
Proof.
  induction l as [| x t IH]; [reflexivity |]. simpl. rewrite <- IH.
  generalize (sorted leb t). intros l. clear.
  induction l as [| y l IH]; [reflexivity |]. simpl.
  destruct (leb x y); simpl; [reflexivity | now rewrite IH].
Qed.

Lemma class_keys_classes classes :
  forall s, map snd (fst (class_keys classes s)) = classes.
Proof.
  induction classes as [| x rest IH]; intros s; simpl; [reflexivity |].
  unfold bind, rand, ret.
  destruct (Random.random (St.rng s)) as [u g].
  specialize (IH (St.mk (St.heap s) g)).
  destruct (class_keys rest _) as [keyed s1]. simpl in *. now rewrite IH.
Qed.

(** X10. A chromosome built by [create_chromosome] has no double booking:
    no instructor, cohort or room holds two of its assignments at one
    (day, hour). It holds at most one assignment per requested session
    (a session that finds no free slot is left out). *)
Theorem initial_schedule_has_no_double_booking (data : Data.t) (s : St.t) :
  let c := fst (create_chromosome data s) in
  let s' := snd (create_chromosome data s) in
  feasible (genes_of (St.heap s') c)
  /\ (List.length c <= List.length (Data.classes_to_schedule data))%nat.
Proof.
  intros c s'. split.
  - apply (create_chromosome_feasible data s c s').
    subst c s'. now destruct (create_chromosome data s).
  - subst c. unfold create_chromosome, bind.
    pose proof (class_keys_classes (Data.classes_to_schedule data) s) as Hk.
    destruct (class_keys (Data.classes_to_schedule data) s) as [keyed s1].
    simpl in Hk.
    match goal with
    | |- (List.length (fst (create_loop ?d ?cl ?ch ?u ?st)) <= _)%nat =>
        pose proof (create_loop_length d cl ch u st) as Hl
    end.
    rewrite length_map, sorted_length in Hl. simpl in Hl.
    rewrite <- Hk, length_map. exact Hl.
Qed.

(** X11. Breeding keeps feasibility at the moment it returns: for two
    parents without double booking, the child of [crossover] has none, and
    neither has what [mutate] makes of that child, whatever the draws and
    the mutation rate. *)
Theorem breeding_keeps_feasibility
    (mutation_rate : Q) (parent1 parent2 : Chromosome) (s : St.t) :
  feasible (genes_of (St.heap s) parent1) ->
  feasible (genes_of (St.heap s) parent2) ->
  let child := fst (crossover parent1 parent2 s) in
  let s1 := snd (crossover parent1 parent2 s) in
  let mutant := fst (mutate mutation_rate child s1) in
  let s2 := snd (mutate mutation_rate child s1) in
  feasible (genes_of (St.heap s1) child)
  /\ feasible (genes_of (St.heap s2) mutant).
Proof.
  intros H1 H2 child s1 mutant s2.
  assert (Hc : feasible (genes_of (St.heap s1) child)).
  { apply (crossover_feasible parent1 parent2 s child s1); auto.
    subst child s1. now destruct (crossover parent1 parent2 s). }
  split; [exact Hc |].
  apply (mutate_feasible mutation_rate child s1 mutant s2); auto.
  subst mutant s2. now destruct (mutate mutation_rate child s1).
Qed.

(** Two parents over [breeding_heap]; the mutation moves the first
    assignment onto the slot of the second, which the repair then drops. *)
Lemma breeding_keeps_feasibility_witness :
  feasible (genes_of (St.heap (snd breeding_result)) (fst breeding_result))
  /\ fst breeding_result = [0]%nat.
Proof.
  split; [| reflexivity].
  apply (breeding_keeps_feasibility 1 breeding_parent1 breeding_parent2
                                    breeding_state).
  - unfold feasible. simpl.
    split; [| split]; repeat constructor; simpl; intuition discriminate.
  - unfold feasible. simpl.
    split; [| split]; repeat constructor; simpl; intuition discriminate.
Defined.

(** ** What the repair keeps *)

Lemma key_eq_false (k k' : string) (ts ts' : timeslot) :
  (k, ts) <> (k', ts') -> String.eqb k k' && timeslot_eqb ts ts' = false.
Proof.
  intros H. destruct (String.eqb k k') eqn:Ek; [| reflexivity].
  destruct (timeslot_eqb ts ts') eqn:Et; [| reflexivity].
  apply String.eqb_eq in Ek. apply timeslot_eqb_eq in Et. congruence.
Qed.

Lemma repair_scan_keeps h c :
  forall u,
    feasible (genes_of h c) ->
    (forall g, In g (genes_of h c) -> Used.conflicts u g = false) ->
    repair_scan h u c = c.
Proof.
  induction c as [| r rest IH]; intros u Hf Hu; [reflexivity |].
  simpl. rewrite (Hu (deref h r)) by (simpl; auto).
  f_equal. destruct Hf as [Nf [Nb Nr]]. simpl in Nf, Nb, Nr.
  inversion Nf as [| kf lf Hnf Nf']. inversion Nb as [| kb lb Hnb Nb'].
  inversion Nr as [| kr lr Hnr Nr']. subst.
  apply IH; [repeat split; assumption |].
  intros g Hg. specialize (Hu g (or_intror Hg)).
  unfold Used.conflicts in *.
  cbn [Used.record Used.faculty Used.batch Used.room].
  apply orb_false_iff in Hu. destruct Hu as [Hu Hur].
  apply orb_false_iff in Hu. destruct Hu as [Huf Hub].
  rewrite !slot_in_add, Huf, Hub, Hur, !orb_false_r.
  rewrite !key_eq_false; [reflexivity | | |].
  - intros E. apply Hnr. change (In (room_key (deref h r))
                                    (map room_key (genes_of h rest))).
    unfold room_key at 1. rewrite E. now apply (in_map room_key).
  - intros E. apply Hnb. change (In (batch_key (deref h r))
                                    (map batch_key (genes_of h rest))).
    unfold batch_key at 1. rewrite E. now apply (in_map batch_key).
  - intros E. apply Hnf. change (In (faculty_key (deref h r))
                                    (map faculty_key (genes_of h rest))).
    unfold faculty_key at 1. rewrite E. now apply (in_map faculty_key).
Qed.

Lemma repair_scan_length h c :
  forall u, (List.length (repair_scan h u c) <= List.length c)%nat.
Proof.
  induction c as [| r rest IH]; intros u; simpl; [lia |].
  destruct (Used.conflicts u (deref h r)); simpl.
  - specialize (IH u). lia.
  - specialize (IH (Used.record u (deref h r))). lia.
Qed.

Lemma repair_scan_full h c :
  forall u,
    List.length (repair_scan h u c) = List.length c -> repair_scan h u c = c.
Proof.
  induction c as [| r rest IH]; intros u; simpl; [reflexivity |].
  destruct (Used.conflicts u (deref h r)); simpl.
  - pose proof (repair_scan_length h rest u). lia.
  - intros H. f_equal. apply IH. lia.
Qed.

(** X12. [_repair_chromosome] returns its argument unchanged exactly when
    the argument has no double booking; so a repair that drops nothing
    certifies the schedule, and every schedule with a double booking comes
    back strictly shorter. *)
Theorem repair_keeps_exactly_the_feasible (h : heap) (c : Chromosome) :
  (_repair_chromosome h c = c <-> feasible (genes_of h c))
  /\ (List.length (_repair_chromosome h c) <= List.length c)%nat
  /\ (~ feasible (genes_of h c) ->
      (List.length (_repair_chromosome h c) < List.length c)%nat).
Proof.
  assert (Hfix : _repair_chromosome h c = c -> feasible (genes_of h c)).
  { intros E. rewrite <- E. apply repair_feasible. }
  pose proof (repair_scan_length h c Used.empty) as Hle.
  rewrite <- repair_as_scan in Hle.
  split; [split | split].
  - exact Hfix.
  - intros Hf. rewrite repair_as_scan. apply repair_scan_keeps; [exact Hf |].
    intros g _. reflexivity.
  - exact Hle.
  - intros Hn.
    destruct (Nat.eq_dec (List.length (_repair_chromosome h c)) (List.length c))
      as [E | E]; [| lia].
    exfalso. apply Hn, Hfix. rewrite repair_as_scan in *.
    now apply repair_scan_full.
Qed.

(** ** Fitness *)

Lemma dedup_length_le (l : list timeslot) :
  (List.length (dedup timeslot_eqb l) <= List.length l)%nat.
Proof.
  induction l as [| x t IH]; simpl; [lia |].
  destruct (existsb (timeslot_eqb x) t); simpl; lia.
Qed.

Lemma repeats_nonneg l : (0 <= repeats l)%Z.
Proof. unfold repeats, len. pose proof (dedup_length_le l). lia. Qed.

Lemma repeats_zero_distinct l : repeats l = 0%Z -> NoDup l.
Proof.
  unfold repeats, len. induction l as [| x t IH]; intros H; [constructor |].
  cbn [dedup] in H. pose proof (dedup_length_le t) as Hle.
  destruct (existsb (timeslot_eqb x) t) eqn:E; cbn [List.length] in H; [lia |].
  constructor; [| apply IH; lia].
  intros Hin. assert (Ht : existsb (timeslot_eqb x) t = true).
  { apply existsb_exists. exists x. split; [exact Hin |].
    now apply timeslot_eqb_eq. }
  congruence.
Qed.

Lemma all_repeats_nonneg d : (0 <= all_repeats d)%Z.
Proof.
  unfold all_repeats. induction d as [| e t IH]; simpl; [lia |].
  pose proof (repeats_nonneg (snd e)). lia.
Qed.

Lemma all_repeats_zero d k l :
  all_repeats d = 0%Z -> In (k, l) d -> repeats l = 0%Z.
Proof.
  unfold all_repeats. induction d as [| e t IH]; simpl; [intros _ [] |].
  intros H Hin. pose proof (repeats_nonneg (snd e)).
  pose proof (all_repeats_nonneg t) as Ht. unfold all_repeats in Ht.
  destruct Hin as [-> | Hin]; [simpl in *; lia | apply IH; [lia | exact Hin]].
Qed.

Lemma hard_penalty_sum d :
  forall p, hard_penalty weights d p = (p + 1000 * all_repeats d)%Z.
Proof.
  unfold hard_penalty, all_repeats, Zsum.
  induction d as [| e t IH]; intros p; cbn [fold_left map fold_right].
  - lia.
  - rewrite IH. unfold repeats.
    change (Weights.hard_constraint weights) with 1000%Z.
    destruct (len (dedup timeslot_eqb (snd e)) =? len (snd e))%Z eqn:E;
      cbn [negb].
    + apply Z.eqb_eq in E. lia.
    + lia.
Qed.

Lemma gap_term_nonneg p : (0 <= gap_term p)%Z.
Proof. unfold gap_term. destruct (_ >? 1)%Z eqn:E; lia. Qed.

Lemma excess_term_nonneg hours : (0 <= excess_term hours)%Z.
Proof.
  unfold excess_term. destruct (consecutive_loop hours 1 0) as [cc mc].
  destruct (_ >? _)%Z eqn:E; lia.
Qed.

Lemma day_terms_nonneg hours : (0 <= day_terms gap_term hours)%Z.
Proof.
  unfold day_terms. destruct (len hours <=? 1)%Z; [lia |].
  pose proof (excess_term_nonneg (sorted Z.leb hours)).
  assert (0 <= Zsum (map gap_term (adjacent (sorted Z.leb hours))))%Z; [| lia].
  induction (adjacent (sorted Z.leb hours)) as [| p t IH]; simpl; [lia |].
  pose proof (gap_term_nonneg p). lia.
Qed.

Lemma quality_penalty_nonneg slots :
  (0 <= _calculate_schedule_quality_penalty slots weights)%Z.
Proof.
  unfold _calculate_schedule_quality_penalty. rewrite fold_day_penalty.
  induction (group_hours slots) as [| dh t IH]; simpl; [lia |].
  pose proof (day_terms_nonneg (snd dh)). lia.
Qed.

Lemma quality_fold_grows (d : list (string * list timeslot)) :
  forall p,
    (p <= fold_left (fun p e =>
                       (p + _calculate_schedule_quality_penalty (snd e) weights)%Z)
                    d p)%Z.
Proof.
  induction d as [| e t IH]; intros p; simpl; [lia |].
  pose proof (quality_penalty_nonneg (snd e)).
  specialize (IH (p + _calculate_schedule_quality_penalty (snd e) weights)%Z).
  lia.
Qed.

Lemma square_nonneg (a : Q) : (0 <= a * a)%Q.
Proof. destruct a as [n d]. unfold Qle, Qmult. simpl. nia. Qed.

Lemma squares_nonneg (mean : Q) (xs : list Z) :
  (0 <= fold_right (fun x acc => (inject_Z x - mean) * (inject_Z x - mean) + acc)
                   0 xs)%Q.
Proof.
  induction xs as [| x t IH]; simpl; [apply Qle_refl |].
  pose proof (square_nonneg (inject_Z x - mean)) as H.
  set (sq := ((inject_Z x - mean) * (inject_Z x - mean))%Q) in *.
  lra.
Qed.

Lemma np_var_nonneg xs : (0 <= np_var xs)%Q.
Proof.
  unfold np_var. cbv zeta. unfold Qdiv at 1.
  apply Qmult_le_0_compat; [apply squares_nonneg |].
  apply Qinv_le_0_compat. unfold len.
  change 0%Q with (inject_Z 0). rewrite <- Zle_Qle. lia.
Qed.

Lemma overload_fold_grows (d : list (string * list timeslot)) :
  forall p : Q,
    (p <= fold_left
            (fun p e =>
               match daily_hours (snd e) with
               | [] => p
               | dh => (p + inject_Z (Weights.faculty_overload weights)
                            * np_var dh)%Q
               end) d p)%Q.
Proof.
  induction d as [| e t IH]; intros p; cbn [fold_left]; [apply Qle_refl |].
  eapply Qle_trans; [| apply IH].
  destruct (daily_hours (snd e)) as [| x dh]; [apply Qle_refl |].
  pose proof (np_var_nonneg (x :: dh)) as Hv.
  assert (H : (0 <= inject_Z (Weights.faculty_overload weights)
                    * np_var (x :: dh))%Q)
    by (apply Qmult_le_0_compat; [discriminate | exact Hv]).
  set (term := (inject_Z (Weights.faculty_overload weights)
                * np_var (x :: dh))%Q) in *.
  clearbody term. lra.
Qed.

(** The hard part of the penalty is a lower bound of the whole. *)
Lemma total_penalty_hard gs :
  (inject_Z (1000 * (all_repeats (group_slots Gene.faculty_id gs)
                     + all_repeats (group_slots Gene.batch_id gs)
                     + all_repeats (group_slots Gene.room_id gs)))
   <= total_penalty gs)%Q.
Proof.
  unfold total_penalty.
  eapply Qle_trans; [| apply overload_fold_grows].
  rewrite <- Zle_Qle.
  eapply Z.le_trans; [| apply quality_fold_grows].
  cbn [fold_left]. rewrite !hard_penalty_sum. lia.
Qed.

Lemma total_penalty_nonneg gs : (0 <= total_penalty gs)%Q.
Proof.
  eapply Qle_trans; [| apply total_penalty_hard].
  change 0%Q with (inject_Z 0). rewrite <- Zle_Qle.
  pose proof (all_repeats_nonneg (group_slots Gene.faculty_id gs)).
  pose proof (all_repeats_nonneg (group_slots Gene.batch_id gs)).
  pose proof (all_repeats_nonneg (group_slots Gene.room_id gs)).
  lia.
Qed.

Lemma dict_get_in {V} (d : list (string * V)) k v :
  dict_get String.eqb d k = Some v -> In (k, v) d.
Proof.
  induction d as [| [k' v'] t IH]; simpl; [discriminate |].
  destruct (String.eqb k' k) eqn:E.
  - apply String.eqb_eq in E. intros H. injection H as ->. subst. now left.
  - intros H. right. now apply IH.
Qed.

Lemma opt_list_group (key : Gene.t -> string) gs :
  forall d k,
    opt_list (fold_left (fun d g => dict_append d (key g) (Gene.slot g)) gs d) k
    = opt_list d k
      ++ map Gene.slot (filter (fun g => String.eqb (key g) k) gs).
Proof.
  induction gs as [| g t IH]; intros d k; simpl.
  - now rewrite app_nil_r.
  - rewrite IH, opt_list_append.
    destruct (String.eqb (key g) k); simpl; [| reflexivity].
    now rewrite <- app_assoc.
Qed.

Lemma group_slots_distinct (key : Gene.t -> string) gs :
  all_repeats (group_slots key gs) = 0%Z ->
  forall k, NoDup (map Gene.slot (filter (fun g => String.eqb (key g) k) gs)).
Proof.
  intros H k.
  pose proof (opt_list_group key gs [] k) as Ho. simpl in Ho.
  change (opt_list [] k) with (@nil timeslot) in Ho. simpl in Ho.
  fold (group_slots key gs) in Ho. rewrite <- Ho. unfold opt_list.
  destruct (dict_get String.eqb (group_slots key gs) k) as [l |] eqn:E;
    [| constructor].
  apply repeats_zero_distinct. eapply all_repeats_zero; [exact H |].
  apply dict_get_in, E.
Qed.

Lemma keys_distinct (key : Gene.t -> string) gs :
  (forall k, NoDup (map Gene.slot (filter (fun g => String.eqb (key g) k) gs))) ->
  NoDup (map (fun g => (key g, Gene.slot g)) gs).
Proof.
  induction gs as [| g t IH]; intros H; simpl; [constructor |].
  constructor.
  - intros Hin. apply in_map_iff in Hin. destruct Hin as [g' [E Hg']].
    pose proof (f_equal fst E) as Ek. pose proof (f_equal snd E) as Es.
    cbn [fst snd] in Ek, Es.
    specialize (H (key g)). simpl in H. rewrite String.eqb_refl in H.
    simpl in H. inversion H as [| x l Hn _]. apply Hn.
    rewrite <- Es. apply in_map. apply filter_In. split; [exact Hg' |].
    rewrite Ek. apply String.eqb_refl.
  - apply IH. intros k. specialize (H k). simpl in H.
    destruct (String.eqb (key g) k); [now inversion H | exact H].
Qed.

Lemma low_penalty_feasible gs :
  (total_penalty gs < 1000)%Q -> feasible gs.
Proof.
  intros H.
  pose proof (total_penalty_hard gs) as Hh.
  pose proof (all_repeats_nonneg (group_slots Gene.faculty_id gs)) as Hf.
  pose proof (all_repeats_nonneg (group_slots Gene.batch_id gs)) as Hb.
  pose proof (all_repeats_nonneg (group_slots Gene.room_id gs)) as Hr.
  assert (Hz : (1000 * (all_repeats (group_slots Gene.faculty_id gs)
                        + all_repeats (group_slots Gene.batch_id gs)
                        + all_repeats (group_slots Gene.room_id gs)) < 1000)%Z).
  { rewrite Zlt_Qlt. eapply Qle_lt_trans; [exact Hh | exact H]. }
  split; [| split].
  - apply (keys_distinct Gene.faculty_id), group_slots_distinct. lia.
  - apply (keys_distinct Gene.batch_id), group_slots_distinct. lia.
  - apply (keys_distinct Gene.room_id), group_slots_distinct. lia.
Qed.

(** X13. The fitness [1 / (1 + penalty)] of a non-empty chromosome lies in
    (0, 1], that of the empty one is 0. One repeated (instructor, slot),
    (cohort, slot) or (room, slot) costs 1000, which no soft term can
    offset: a fitness above 1/1001 certifies that the chromosome has no
    double booking, and so does the early-stop threshold 0.99. *)
Theorem fitness_certifies_hard_constraints (h : heap) (c : Chromosome) :
  (calculate_fitness h c == 0 <-> c = [])%Q
  /\ (0 <= calculate_fitness h c <= 1)%Q
  /\ ((1 # 1001 < calculate_fitness h c)%Q -> feasible (genes_of h c))
  /\ (near_optimal (calculate_fitness h c) = true -> feasible (genes_of h c)).
Proof.
  assert (Hcert : (1 # 1001 < calculate_fitness h c)%Q ->
                  feasible (genes_of h c)).
  { destruct c as [| r t]; [intros H; discriminate H |].
    unfold calculate_fitness. rewrite Qred_correct.
    pose proof (total_penalty_nonneg (genes_of h (r :: t))) as Hp.
    set (p := total_penalty (genes_of h (r :: t))) in *.
    intros H. apply low_penalty_feasible. fold p.
    apply Qnot_le_lt. intros Hc.
    assert (Hle : (1 / (1 + p) <= 1 # 1001)%Q)
      by (apply Qle_shift_div_r; lra).
    apply (Qlt_irrefl (1 # 1001)). eapply Qlt_le_trans; eassumption. }
  split; [| split; [| split]].
  - destruct c as [| r t]; [split; reflexivity |].
    split; [| discriminate].
    unfold calculate_fitness. rewrite Qred_correct.
    pose proof (total_penalty_nonneg (genes_of h (r :: t))) as Hp.
    set (p := total_penalty (genes_of h (r :: t))) in *.
    intros H. exfalso.
    assert (Hpos : (0 < 1 / (1 + p))%Q).
    { apply Qlt_shift_div_l; lra. }
    rewrite H in Hpos. discriminate Hpos.
  - destruct c as [| r t]; [split; discriminate |].
    unfold calculate_fitness. rewrite Qred_correct.
    pose proof (total_penalty_nonneg (genes_of h (r :: t))) as Hp.
    set (p := total_penalty (genes_of h (r :: t))) in *.
    split.
    + apply Qle_shift_div_l; lra.
    + apply Qle_shift_div_r; lra.
  - exact Hcert.
  - unfold near_optimal. intros H. apply Qle_bool_iff in H. apply Hcert.
    eapply Qlt_le_trans; [| exact H]. reflexivity.
Qed.

(** ** Selection and the run as a whole *)

Lemma randbelow_lt n g : (0 < n)%nat -> (fst (Random.randbelow n g) < n)%nat.
Proof.
  intros Hn. unfold Random.randbelow, Random.next. cbn [fst].
  assert (H : (Random.draws g (Random.pos g) mod N.of_nat n < N.of_nat n)%N)
    by (apply N.mod_lt; lia).
  lia.
Qed.

Lemma sample_nonempty {A} k (d : A) t g :
  fst (Random.sample (S k) (d :: t) g) <> [].
Proof.
  rewrite sample_cons.
  destruct (Random.randbelow (List.length (d :: t)) g) as [j g1].
  destruct (Random.sample k _ g1) as [rest g2]. discriminate.
Qed.

Lemma tournament_some config population_fitness s :
  (0 < Z.min (GAConfig.tournament_size config) (len population_fitness))%Z ->
  exists c s', tournament_selection config population_fitness s = (Some c, s').
Proof.
  intros Hsize. unfold tournament_selection.
  destruct (_ <? 0)%Z eqn:Eneg; [lia |].
  unfold bind, rand.
  destruct (Z.to_nat _) as [| k] eqn:Ek; [lia |].
  destruct population_fitness as [| d t]; [unfold len in Hsize; simpl in Hsize; lia |].
  pose proof (sample_nonempty k d t (St.rng s)) as Hne.
  destruct (Random.sample (S k) (d :: t) (St.rng s)) as [tournament g].
  destruct tournament as [| x rest]; [now elim Hne |].
  unfold ret. eauto.
Qed.

(** X14. [tournament_selection] raises exactly when
    [min(tournament_size, len(population))] is not positive, that is for an
    empty population or a tournament size below 1; otherwise it returns a
    chromosome of the population. It never writes to a gene. *)
Theorem tournament_selection_result
    (config : GAConfig.t) (population_fitness : list scored) (s : St.t) :
  let size := Z.min (GAConfig.tournament_size config) (len population_fitness) in
  match fst (tournament_selection config population_fitness s) with
  | None => (size <= 0)%Z
  | Some c => (0 < size)%Z /\ In c (map snd population_fitness)
  end
  /\ St.heap (snd (tournament_selection config population_fitness s))
     = St.heap s.
Proof.
  intros size. unfold tournament_selection. fold size.
  destruct (size <? 0)%Z eqn:Eneg; [unfold ret; simpl; split; [lia | reflexivity] |].
  unfold bind, rand.
  destruct (Random.sample (Z.to_nat size) population_fitness (St.rng s))
    as [tournament g] eqn:E.
  destruct tournament as [| x rest]; unfold ret; cbn [fst snd St.heap].
  - split; [| reflexivity].
    destruct (Z.to_nat size) as [| k] eqn:Ek; [lia |].
    destruct population_fitness as [| d t]; [unfold size, len; simpl; lia |].
    exfalso. apply (sample_nonempty k d t (St.rng s)). now rewrite E.
  - split; [| reflexivity]. split.
    + destruct (Z.to_nat size) as [| k] eqn:Ek; [| lia].
      simpl in E. discriminate E.
    + apply in_map.
      eapply (sample_in _ population_fitness (St.rng s)). rewrite E. cbn [fst].
      apply first_best_in.
Qed.

Lemma ranked_length h population :
  List.length (ranked h population) = List.length population.
Proof. unfold ranked. now rewrite sorted_length, length_map. Qed.

Lemma offspring_some config population_fitness :
  (0 < Z.min (GAConfig.tournament_size config) (len population_fitness))%Z ->
  forall turns next_population s,
    exists children s',
      offspring turns config population_fitness next_population s
      = (Some children, s')
      /\ List.length children = (List.length next_population + turns)%nat.
Proof.
  intros Hsize. induction turns as [| turns IH]; intros np s; simpl.
  - unfold ret. exists np, s. split; [reflexivity | lia].
  - unfold bind.
    destruct (tournament_some config population_fitness s Hsize)
      as [p1 [s1 E1]]. rewrite E1.
    destruct (tournament_some config population_fitness s1 Hsize)
      as [p2 [s2 E2]]. rewrite E2.
    destruct (crossover p1 p2 s2) as [child s3].
    destruct (mutate _ child s3) as [child' s4].
    destruct (IH (np ++ [child']) s4) as [children [s' [E Hl]]].
    exists children, s'. split; [exact E |].
    rewrite Hl, length_app. simpl. lia.
Qed.

Lemma slice_to_length {A} k (l : list A) :
  (List.length (slice_to k l) <= List.length l)%nat.
Proof. unfold slice_to. destruct (k <? 0)%Z; rewrite length_firstn; lia. Qed.

Lemma generation_some l s :
  breeds l ->
  exists fl l' s',
    generation l s = (Some (fl, l'), s')
    /\ breeds l'
    /\ exists e pf, Loop.population_fitness l' = Some (e :: pf).
Proof.
  intros [Hlen [Hpop Hsize]].
  unfold generation, bind, get_heap.
  fold (ranked (St.heap s) (Loop.population l)).
  pose proof (ranked_length (St.heap s) (Loop.population l)) as Hr.
  destruct (ranked (St.heap s) (Loop.population l)) as [| [f top] rest] eqn:Er.
  { unfold len in Hlen. simpl in Hr. lia. }
  destruct (Qle_bool (99 # 100) f).
  - unfold ret. do 3 eexists. split; [reflexivity |]. split.
    + unfold breeds. simpl. auto.
    + simpl. eauto.
  - set (config := if (_ >? 20)%Z then _ else Loop.config l).
    assert (Hcp : GAConfig.population_size config
                  = GAConfig.population_size (Loop.config l))
      by (unfold config; destruct (_ >? 20)%Z; reflexivity).
    assert (Hct : GAConfig.tournament_size config
                  = GAConfig.tournament_size (Loop.config l))
      by (unfold config; destruct (_ >? 20)%Z; reflexivity).
    match goal with
    | |- context [offspring _ _ _ ?np s] => set (next_population := np)
    end.
    assert (Hnext : (List.length next_population
                     <= List.length (Loop.population l))%nat).
    { unfold next_population. rewrite length_map, <- Hr. apply slice_to_length. }
    match goal with
    | |- context [offspring ?n ?c ?pf ?np s] =>
        destruct (offspring_some c pf) with
          (turns := n) (next_population := np) (s := s)
          as [children [s' [Eo Hl]]];
        [rewrite Hct; unfold len in *; cbn [List.length] in *; lia
        | rewrite Eo]
    end.
    unfold ret. do 3 eexists. split; [reflexivity |]. split.
    + unfold breeds. simpl. rewrite Hcp, Hct. split; [| auto].
      unfold len in *. rewrite Hl, Hcp. lia.
    + simpl. eauto.
Qed.

Lemma generations_some n :
  forall l s,
    breeds l ->
    exists l' s',
      generations n l s = (Some l', s')
      /\ breeds l'
      /\ ((0 < n)%nat -> exists e pf, Loop.population_fitness l' = Some (e :: pf)).
Proof.
  induction n as [| n IH]; intros l s Hl; simpl.
  - unfold ret. exists l, s. split; [reflexivity |]. split; [exact Hl | lia].
  - unfold bind.
    destruct (generation_some l s Hl) as [fl [l1 [s1 [Eg [Hl1 Hpf]]]]].
    rewrite Eg. destruct fl.
    + destruct (IH l1 s1 Hl1) as [l' [s' [E [Hl' Hpf']]]].
      exists l', s'. split; [exact E |]. split; [exact Hl' |].
      intros _. destruct n as [| n']; [| apply Hpf'; lia].
      simpl in E. unfold ret in E. injection E as <- <-. exact Hpf.
    + unfold ret. exists l1, s1. auto.
Qed.

Lemma initial_population_length n data :
  forall s, List.length (fst (initial_population n data s)) = n.
Proof.
  induction n as [| n IH]; intros s; simpl; [reflexivity |].
  unfold bind. destruct (create_chromosome data s) as [c s1].
  specialize (IH s1). destruct (initial_population n data s1) as [rest s2].
  unfold ret. simpl in *. now rewrite IH.
Qed.

(** X15. With a session passed, a population size, a generation budget and
    a tournament size of at least 1, [run_evolution] returns a schedule:
    no selection, indexing or lookup of the run raises, whatever the input
    tables and the draws. *)
Theorem run_evolution_returns_a_schedule
    (config : GAConfig.t) (data : Data.t) (s : St.t) :
  (1 <= GAConfig.population_size config)%Z ->
  (1 <= GAConfig.max_generations config)%Z ->
  (1 <= GAConfig.tournament_size config)%Z ->
  exists r s', run_evolution config data true s = (Some r, s').
Proof.
  intros Hpop Hgen Hsize. unfold run_evolution, bind.
  pose proof (initial_population_length
                (Z.to_nat (GAConfig.population_size config)) data s) as Hlen.
  destruct (initial_population _ data s) as [population s1]. cbn [fst] in Hlen.
  destruct (generations_some (Z.to_nat (GAConfig.max_generations config))
              (Loop.mk config [] population 0 None 0 None) s1)
    as [l [s2 [Eg [_ Hpf]]]].
  { unfold breeds, len. simpl. rewrite Hlen. split; [lia | auto]. }
  rewrite Eg. cbn [negb].
  destruct Hpf as [[f top] [pf Hpf]]; [lia |]. rewrite Hpf.
  destruct (Loop.best_chromosome l) as [[| g c] |]; unfold ret; eauto.
Qed.

(** One chromosome, one generation, on Scenario A. *)
Lemma run_evolution_returns_a_schedule_witness :
  exists r s',
    run_evolution one_child_config scenario_A true zero_state = (Some r, s').
Proof.
  apply run_evolution_returns_a_schedule; simpl; lia.
Defined.

(** X16. [run_evolution] returns no schedule when it is called without a
    session (the closing [db.close()] is not guarded, and [db] defaults to
    [None]), when the population size is below 1 (the first generation
    indexes an empty population) and when the generation budget is below 1
    (the returned name is never bound). *)
Theorem run_evolution_failures
    (config : GAConfig.t) (data : Data.t) (s : St.t) :
  fst (run_evolution config data false s) = None
  /\ ((GAConfig.population_size config <= 0)%Z ->
      forall db, fst (run_evolution config data db s) = None)
  /\ ((GAConfig.max_generations config <= 0)%Z ->
      forall db, fst (run_evolution config data db s) = None).
Proof.
  split; [| split].
  - unfold run_evolution, bind.
    destruct (initial_population _ data s) as [population s1].
    destruct (generations _ _ s1) as [[l |] s2]; reflexivity.
  - intros Hpop db. unfold run_evolution, bind.
    replace (Z.to_nat (GAConfig.population_size config)) with O by lia.
    simpl initial_population. unfold ret at 1.
    destruct (Z.to_nat (GAConfig.max_generations config)) as [| n].
    + simpl. destruct db; reflexivity.
    + simpl. reflexivity.
  - intros Hgen db. unfold run_evolution, bind.
    destruct (initial_population _ data s) as [population s1].
    replace (Z.to_nat (GAConfig.max_generations config)) with O by lia.
    simpl. destruct db; reflexivity.
Qed.

(** ** The adaptive mutation rate *)

Lemma py_min_raise (r : Q) :
  (0 <= r)%Q -> (r <= 1 # 10)%Q ->
  (r <= py_min (1 # 10) (r * (11 # 10)))%Q
  /\ (py_min (1 # 10) (r * (11 # 10)) <= 1 # 10)%Q.
Proof.
  intros H0 H1. unfold py_min.
  destruct (Qle_bool (1 # 10) (r * (11 # 10))) eqn:E; simpl.
  - split; [exact H1 | apply Qle_refl].
  - assert (Hlt : (r * (11 # 10) < 1 # 10)%Q).
    { apply Qnot_le_lt. intros Hc. apply Qle_bool_iff in Hc. congruence. }
    split; lra.
Qed.

Lemma set_rate_twice c r r' :
  GAConfig.set_mutation_rate (GAConfig.set_mutation_rate c r) r'
  = GAConfig.set_mutation_rate c r'.
Proof. reflexivity. Qed.

Lemma generation_config l s fl l' s' :
  generation l s = (Some (fl, l'), s') ->
  List.length (Loop.fitness_history l') = S (List.length (Loop.fitness_history l))
  /\ (Loop.generations_without_improvement l' <= 0
      \/ Loop.generations_without_improvement l'
         = Loop.generations_without_improvement l + 1)%Z
  /\ (Loop.config l' = Loop.config l
      \/ ((20 < Loop.generations_without_improvement l')%Z
          /\ Loop.config l'
             = GAConfig.set_mutation_rate (Loop.config l)
                 (py_min (1 # 10)
                    (GAConfig.mutation_rate (Loop.config l) * (11 # 10))))).
Proof.
  unfold generation, bind, get_heap.
  destruct (sorted _ _) as [| [f top] rest]; [discriminate |].
  destruct (Qle_bool (99 # 100) f).
  - unfold ret. intros H. injection H as <- <- <-. simpl.
    rewrite length_app. simpl.
    split; [lia |].
    destruct (negb _); (split; [lia | left; reflexivity]).
  - match goal with
    | |- context [offspring ?n ?c ?pf ?np s] =>
        destruct (offspring n c pf np s) as [[children |] s2]
    end; unfold ret; intros H; [| discriminate].
    injection H as <- <- <-. simpl. rewrite length_app. simpl.
    split; [lia |].
    set (gwi := if negb _ then 0%Z else _).
    assert (Hg : (gwi <= 0
                  \/ gwi = Loop.generations_without_improvement l + 1)%Z).
    { unfold gwi. destruct (negb _); lia. }
    split; [exact Hg |].
    destruct (gwi >? 20)%Z eqn:E; [right | left; reflexivity].
    split; [lia | reflexivity].
Qed.

Lemma generation_config_inv c l s fl l' s' :
  (0 <= GAConfig.mutation_rate c)%Q ->
  generation l s = (Some (fl, l'), s') ->
  config_inv c l -> config_inv c l'.
Proof.
  intros Hc0 H [Hgwi [[rate [Ec [Hlo Hhi]]] Hearly]].
  apply generation_config in H. destruct H as [Hlen [Hcase Hcfg]].
  unfold config_inv, len in *. rewrite Hlen.
  split; [lia |]. split.
  - destruct Hcfg as [-> | [_ ->]]; [exists rate; auto |].
    rewrite Ec, set_rate_twice. simpl.
    destruct (py_min_raise rate) as [Hr Hr']; [lra | exact Hhi |].
    eexists. split; [reflexivity |]. split; [lra | exact Hr'].
  - intros Hn. destruct Hcfg as [-> | [Hbig _]]; [apply Hearly; lia | lia].
Qed.

Lemma generations_config c n :
  (0 <= GAConfig.mutation_rate c)%Q ->
  forall l s l' s',
    generations n l s = (Some l', s') ->
    config_inv c l ->
    config_inv c l'
    /\ (List.length (Loop.fitness_history l')
        <= List.length (Loop.fitness_history l) + n)%nat.
Proof.
  intros Hc0. induction n as [| n IH]; intros l s l' s'; simpl.
  - unfold ret. intros H. injection H as <- <-. split; [assumption | lia].
  - unfold bind.
    destruct (generation l s) as [[[fl l1] |] s1] eqn:Eg; [| discriminate].
    intros H Hl.
    pose proof (generation_config_inv c _ _ _ _ _ Hc0 Eg Hl) as Hl1.
    apply generation_config in Eg. destruct Eg as [Hlen _].
    destruct fl.
    + apply IH in H; [| exact Hl1]. destruct H as [Hl' Hn].
      split; [exact Hl' | lia].
    + unfold ret in H. injection H as <- <-. split; [exact Hl1 | lia].
Qed.

(** X17. The adaptive mutation rate of a run is bounded. For a starting
    rate in [0, 0.1], the configuration a run leaves behind differs from the
    one it started with at most in the mutation rate, which has not fallen
    and is at most 0.1; and a run with a budget of at most 20 generations
    leaves the configuration exactly as it was. *)
Theorem mutation_rate_stays_bounded
    (config : GAConfig.t) (data : Data.t) (db : bool)
    (s s' : St.t) (r : Run.t) :
  run_evolution config data db s = (Some r, s') ->
  (0 <= GAConfig.mutation_rate config)%Q ->
  (GAConfig.mutation_rate config <= 1 # 10)%Q ->
  (exists rate,
      Run.config r = GAConfig.set_mutation_rate config rate
      /\ (GAConfig.mutation_rate config <= rate)%Q /\ (rate <= 1 # 10)%Q)
  /\ ((GAConfig.max_generations config <= 20)%Z -> Run.config r = config).
Proof.
  intros H H0 H1. revert H. unfold run_evolution, bind.
  destruct (initial_population _ data s) as [population s1].
  destruct (generations _ _ s1) as [[l |] s2] eqn:Eg; [| discriminate].
  apply (generations_config config) in Eg; [| exact H0 |].
  2:{ unfold config_inv, len. simpl. split; [lia |]. split; [| reflexivity].
      exists (GAConfig.mutation_rate config).
      split; [now destruct config | split; [apply Qle_refl | exact H1]]. }
  destruct Eg as [[_ [Had Hearly]] Hn]. simpl in Hn.
  assert (Hres : forall c,
             (exists rate,
                 Run.config (Run.mk c (Loop.config l) (Loop.fitness_history l))
                 = GAConfig.set_mutation_rate config rate
                 /\ (GAConfig.mutation_rate config <= rate)%Q
                 /\ (rate <= 1 # 10)%Q)
             /\ ((GAConfig.max_generations config <= 20)%Z ->
                 Run.config (Run.mk c (Loop.config l) (Loop.fitness_history l))
                 = config)).
  { intros c. simpl. split; [exact Had |]. intros Hb. apply Hearly. lia. }
  destruct db; simpl negb; cbv iota; [| discriminate].
  destruct (Loop.best_chromosome l) as [[| g c] |];
    try (destruct (Loop.population_fitness l) as [[| [f top] rest] |];
         try discriminate);
    unfold ret; intros H; injection H as <- <-; apply Hres.
Qed.

(** A run of three generations: the configuration is left as it was. *)
Lemma mutation_rate_stays_bounded_witness :
  exists r s',
    run_evolution three_generations_config scenario_A true
                  (St.mk [] (Random.seed same_seed)) = (Some r, s')
    /\ Run.config r = three_generations_config.
Proof.
  destruct (run_evolution three_generations_config scenario_A true
              (St.mk [] (Random.seed same_seed))) as [[r |] s'] eqn:E.
  - exists r, s'. split; [reflexivity |].
    apply (mutation_rate_stays_bounded _ _ _ _ _ _ E).
    + discriminate.
    + discriminate.
    + simpl. lia.
  - vm_compute in E. discriminate E.
Defined.

(** ** What a run keeps true of every assignment *)

Lemma choice_days g :
  In (fst (Random.choice "" (Settings.DAYS settings) g)) (Settings.DAYS settings).
Proof.
  unfold Random.choice.
  pose proof (randbelow_lt (List.length (Settings.DAYS settings)) g) as Hj.
  destruct (Random.randbelow _ g) as [j g']. cbn [fst] in *.
  apply nth_In. apply Hj. simpl. lia.
Qed.

Lemma randint_range a b g :
  (a <= b)%Z -> (a <= fst (Random.randint a b g) <= b)%Z.
Proof.
  intros H. unfold Random.randint, Random.next. cbn [fst].
  pose proof (Z.mod_pos_bound (Z.of_N (Random.draws g (Random.pos g)))
                (b - a + 1)) as Hm.
  lia.
Qed.

Ltac run_draws :=
  repeat (cbn [St.rng St.heap];
          match goal with
          | |- context [Random.random ?g] =>
              destruct (Random.random g) as [? ?]
          | |- context [@Random.choice string ?d ?l ?g] =>
              let H := fresh "Hday" in
              pose proof (choice_days g) as H;
              destruct (@Random.choice string d l g) as [? ?];
              cbn [fst] in H
          | |- context [@Random.choice ?A ?d ?l ?g] =>
              destruct (@Random.choice A d l g) as [? ?]
          | |- context [Random.randint ?a ?b ?g] =>
              let H := fresh "Hint" in
              pose proof (randint_range a b g) as H;
              destruct (Random.randint a b g) as [? ?];
              cbn [fst] in H
          | |- context [@Random.sample ?A ?k ?p ?g] =>
              let H := fresh "Hpicked" in
              pose proof (@sample_in A k p g) as H;
              destruct (@Random.sample A k p g) as [? ?];
              cbn [fst] in H
          end);
  cbn [St.rng St.heap].

Section Keeping.
Variable P : Gene.t -> Prop.
Hypothesis P_slot : forall g ts, P g -> slot_ok ts -> P (Gene.set_slot g ts).
Hypothesis P_grid : forall g, P g -> slot_ok (Gene.slot g).

Lemma keeps_refl h : keeps P h h.
Proof. split; auto. Qed.

Lemma keeps_trans h1 h2 h3 : keeps P h1 h2 -> keeps P h2 h3 -> keeps P h1 h3.
Proof.
  intros [L1 K1] [L2 K2]. split; [congruence |].
  intros r Hr Hp. apply K2; [rewrite L1; exact Hr | now apply K1].
Qed.

Lemma keeps_placed h h' c : keeps P h h' -> placed P h c -> placed P h' c.
Proof.
  intros [L K] [HP Hr]. split.
  - unfold genes_of in *. rewrite Forall_map in *. rewrite Forall_forall in *.
    intros r Hin. apply K; auto.
  - intros r Hin. rewrite L. auto.
Qed.

Lemma grown_placed h new c : placed P h c -> placed P (h ++ new) c.
Proof.
  intros [HP Hr]. split.
  - unfold genes_of in *. rewrite Forall_map in *.
    rewrite Forall_forall in *. intros r Hin. unfold deref.
    rewrite app_nth1 by auto. now apply HP.
  - intros r Hin. rewrite length_app. specialize (Hr r Hin). lia.
Qed.

Lemma sub_placed h c c' : incl c' c -> placed P h c -> placed P h c'.
Proof.
  intros Hi [HP Hr]. split.
  - unfold genes_of in *. rewrite Forall_map in *.
    rewrite Forall_forall in *. auto.
  - auto.
Qed.

Lemma joined_placed h c1 c2 :
  placed P h c1 -> placed P h c2 -> placed P h (c1 ++ c2).
Proof.
  intros [H1 R1] [H2 R2]. split.
  - unfold genes_of in *. rewrite map_app. now apply Forall_app.
  - intros r Hin. apply in_app_or in Hin. destruct Hin; auto.
Qed.

Lemma placed_at h c r : placed P h c -> In r c -> P (deref h r).
Proof.
  intros [HP _] Hin. unfold genes_of in HP. rewrite Forall_map in HP.
  rewrite Forall_forall in HP. auto.
Qed.

Lemma store_slot_keeps h r ts : slot_ok ts -> keeps P h (store_slot h r ts).
Proof.
  intros Hts. unfold store_slot. split; [apply update_at_length |].
  unfold deref. revert r.
  induction h as [| x t IH]; intros [| r] [| r'] Hr Hp; simpl in *;
    try lia; auto.
  - apply IH; [lia | exact Hp].
Qed.

Lemma mutate_keeps mutation_rate c s c' s' :
  mutate mutation_rate c s = (c', s') ->
  placed P (St.heap s) c ->
  keeps P (St.heap s) (St.heap s').
Proof.
  unfold mutate. intros H Hc. revert H.
  destruct c as [| r0 c0].
  - unfold ret. intros H. injection H as <- <-. apply keeps_refl.
  - remember (r0 :: c0) as c eqn:Ec.
    assert (Hlen : (0 < List.length c)%nat) by (subst c; simpl; lia).
    clear Ec.
    unfold bind, rand, get_heap, set_gene_slot, ret.
    run_draws.
    destruct (negb (Qle_bool _ mutation_rate)).
    + intros H. injection H as <- <-. apply keeps_refl.
    + run_draws.
      match goal with k : mutation_type |- _ => destruct k end.
      * run_draws. intros H. injection H as <- <-. cbn [St.heap].
        apply store_slot_keeps. split; cbn [fst snd]; [assumption |].
        match goal with
        | Hh : (1 <= ?b)%Z -> (1 <= ?x <= ?b)%Z |- (1 <= ?x <= _)%Z =>
            apply Hh; simpl; lia
        end.
      * destruct (len c >? 1)%Z eqn:Emany.
        -- run_draws. intros H. injection H as <- <-. cbn [St.heap].
           match goal with
           | Hp : forall x, In x ?picked -> In x (seq 0 (List.length c)) |- _ =>
               assert (Hidx : forall k, In (nth (nth k picked O) c O) c)
           end.
           { intros k. apply nth_In.
             match goal with
             | Hp : forall x, In x ?picked -> In x (seq 0 (List.length c)) |- _ =>
                 destruct (nth_in_or_default k picked O) as [Hin | ->];
                 [apply Hp in Hin; apply in_seq in Hin; lia | exact Hlen]
             end. }
           eapply keeps_trans.
           ++ apply store_slot_keeps. apply P_grid.
              eapply placed_at; [exact Hc | apply Hidx].
           ++ apply store_slot_keeps. apply P_grid.
              eapply placed_at; [exact Hc | apply Hidx].
        -- intros H. injection H as <- <-. apply keeps_refl.
      * intros H. injection H as <- <-. apply keeps_refl.
Qed.

Variable data : Data.t.
Hypothesis create_P : forall s c s',
  create_chromosome data s = (c, s') ->
  (exists new, St.heap s' = St.heap s ++ new) /\ placed P (St.heap s') c.

Lemma initial_population_kept n :
  forall s population s',
    initial_population n data s = (population, s') ->
    (exists new, St.heap s' = St.heap s ++ new)
    /\ forall c, In c population -> placed P (St.heap s') c.
Proof.
  induction n as [| n IH]; intros s population s'; simpl.
  - unfold ret. intros H. injection H as <- <-.
    split; [exists []; now rewrite app_nil_r | intros c []].
  - unfold bind.
    destruct (create_chromosome data s) as [c s1] eqn:Ec.
    apply create_P in Ec. destruct Ec as [[new1 Hh1] Hc].
    destruct (initial_population n data s1) as [rest s2] eqn:Er.
    apply IH in Er. destruct Er as [[new2 Hh2] Hrest].
    unfold ret. intros H. injection H as <- <-. split.
    + exists (new1 ++ new2). now rewrite Hh2, Hh1, app_assoc.
    + intros c' [<- | Hin]; [| now apply Hrest].
      rewrite Hh2. now apply grown_placed.
Qed.

Lemma offspring_kept turns :
  forall config population_fitness next_population s children s',
    offspring turns config population_fitness next_population s
    = (Some children, s') ->
    (forall c, In c (map snd population_fitness) -> placed P (St.heap s) c) ->
    (forall c, In c next_population -> placed P (St.heap s) c) ->
    keeps P (St.heap s) (St.heap s')
    /\ forall c, In c children -> placed P (St.heap s') c.
Proof.
  induction turns as [| turns IH];
    intros config pf np s children s'; simpl.
  - unfold ret. intros H Hpf Hnp. injection H as <- <-.
    split; [apply keeps_refl | exact Hnp].
  - unfold bind.
    destruct (tournament_selection config pf s) as [[parent1 |] s1] eqn:E1.
    2:{ destruct (tournament_selection config pf s1) as [[parent2 |] s2];
          unfold ret; discriminate. }
    apply tournament_spec in E1. destruct E1 as [H1 Hp1].
    destruct (tournament_selection config pf s1) as [[parent2 |] s2] eqn:E2;
      [| unfold ret; discriminate].
    apply tournament_spec in E2. destruct E2 as [H2 Hp2].
    destruct (crossover parent1 parent2 s2) as [child s3] eqn:E3.
    apply crossover_spec in E3. destruct E3 as [H3 Hchild].
    destruct (mutate (GAConfig.mutation_rate config) child s3)
      as [child' s4] eqn:E4.
    intros H Hpf Hnp.
    assert (Hplaced : placed P (St.heap s3) child).
    { rewrite H3, H2, H1. eapply sub_placed; [exact Hchild |].
      apply joined_placed; auto. }
    pose proof (mutate_keeps _ _ _ _ _ E4 Hplaced) as Hk.
    apply mutate_spec in E4. destruct E4 as [_ Hchild'].
    rewrite H3, H2, H1 in Hk.
    apply IH in H.
    + destruct H as [Hs Hc]. split; [| exact Hc].
      eapply keeps_trans; eassumption.
    + intros c Hin. eapply keeps_placed; [exact Hk | auto].
    + intros c Hin. apply in_app_or in Hin. destruct Hin as [Hin | [<- | []]].
      * eapply keeps_placed; [exact Hk | auto].
      * eapply keeps_placed; [exact Hk |].
        eapply sub_placed; [exact Hchild' |].
        rewrite <- H1, <- H2, <- H3. exact Hplaced.
Qed.

Lemma generation_kept l s fl l' s' :
  generation l s = (Some (fl, l'), s') ->
  loop_placed P (St.heap s) l ->
  loop_placed P (St.heap s') l'.
Proof.
  intros H [Hpop [Hbest _]].
  pose proof (ranked_chromosomes (St.heap s) (Loop.population l)) as Hranked.
  revert H. unfold generation, bind, get_heap.
  fold (ranked (St.heap s) (Loop.population l)).
  destruct (ranked (St.heap s) (Loop.population l)) as [| [f top] rest] eqn:Er;
    [discriminate |].
  assert (Htop : placed P (St.heap s) top)
    by (apply Hpop, Hranked; now left).
  assert (Hbest' :
            forall c,
              (if negb (Qle_bool f (Loop.best_fitness l)) then Some top
               else Loop.best_chromosome l) = Some c ->
              placed P (St.heap s) c).
  { intros c. destruct (negb _); [intros E; injection E as <-; exact Htop | apply Hbest]. }
  destruct (Qle_bool (99 # 100) f).
  - unfold ret. intros H. injection H as <- <- <-.
    unfold loop_placed. simpl. split; [exact Hpop | split; [exact Hbest' |]].
    intros pf E. injection E as <-. intros c Hc. apply Hpop, Hranked, Hc.
  - match goal with
    | |- context [offspring ?n ?c ?pf ?np s] =>
        destruct (offspring n c pf np s) as [[children |] s2] eqn:Eo
    end; unfold ret; [| discriminate].
    apply offspring_kept in Eo.
    + destruct Eo as [Hs Hchildren].
      intros H. injection H as <- <- <-.
      unfold loop_placed. simpl. split; [exact Hchildren | split].
      * intros c Hc. eapply keeps_placed; [exact Hs | auto].
      * intros pf E. injection E as <-. intros c Hc.
        eapply keeps_placed; [exact Hs |]. apply Hpop, Hranked, Hc.
    + intros c Hc. apply Hpop, Hranked, Hc.
    + intros c Hc. apply Hpop, Hranked.
      apply in_map_iff in Hc. destruct Hc as [x [<- Hx]].
      apply in_map. eapply slice_to_incl, Hx.
Qed.

Lemma generations_kept n :
  forall l s l' s',
    generations n l s = (Some l', s') ->
    loop_placed P (St.heap s) l ->
    loop_placed P (St.heap s') l'.
Proof.
  induction n as [| n IH]; intros l s l' s'; simpl.
  - unfold ret. intros H. injection H as <- <-. auto.
  - unfold bind.
    destruct (generation l s) as [[[fl l1] |] s1] eqn:Eg; [| discriminate].
    intros H Hl. pose proof (generation_kept _ _ _ _ _ Eg Hl) as Hl1.
    destruct fl.
    + eapply IH; eassumption.
    + unfold ret in H. injection H as <- <-. exact Hl1.
Qed.

Lemma run_evolution_kept config db s r s' :
  run_evolution config data db s = (Some r, s') ->
  placed P (St.heap s') (Run.chromosome r).
Proof.
  unfold run_evolution, bind.
  destruct (initial_population _ data s) as [population s1] eqn:Ei.
  apply initial_population_kept in Ei. destruct Ei as [_ Hpop].
  destruct (generations _ _ s1) as [[l |] s2] eqn:Eg; [| discriminate].
  apply generations_kept in Eg.
  2:{ unfold loop_placed. simpl. split; [exact Hpop | split; discriminate]. }
  destruct Eg as [_ [Hbest Hpf]].
  destruct db; simpl negb; cbv iota; [| discriminate].
  destruct (Loop.best_chromosome l) as [[| g c] |] eqn:Eb.
  - destruct (Loop.population_fitness l) as [[| [f top] rest] |];
      try discriminate.
    unfold ret. intros H. injection H as <- <-. simpl.
    apply (Hpf _ eq_refl). now left.
  - unfold ret. intros H. injection H as <- <-. simpl. now apply Hbest.
  - destruct (Loop.population_fitness l) as [[| [f top] rest] |];
      try discriminate.
    unfold ret. intros H. injection H as <- <-. simpl.
    apply (Hpf _ eq_refl). now left.
Qed.

End Keeping.

(** ** Sessions of the returned timetable *)

Lemma timeslots_ok ts : In ts timeslots -> slot_ok ts.
Proof.
  unfold timeslots. intros H. apply in_flat_map in H.
  destruct H as [day [Hday H]]. apply in_map_iff in H.
  destruct H as [hour [<- Hhour]]. split; [exact Hday |].
  unfold range1 in Hhour. apply in_map_iff in Hhour.
  destruct Hhour as [k [<- Hk]]. apply in_seq in Hk. simpl in *. lia.
Qed.

Lemma preferred_slots_ok subject_type ts :
  In ts (_get_preferred_slots subject_type) -> slot_ok ts.
Proof.
  unfold _get_preferred_slots. intros H. apply timeslots_ok.
  destruct (String.eqb subject_type "Lab");
    apply in_app_or in H; destruct H as [H | H];
    apply filter_In in H; tauto.
Qed.

Lemma available_slots_slots class_info faculty_id used rooms slots ts room :
  In (ts, room) (available_slots_of class_info faculty_id used rooms slots) ->
  In ts slots.
Proof.
  unfold available_slots_of. intros H. apply in_flat_map in H.
  destruct H as [ts' [Hin H]].
  destruct (negb _ && negb _); [| contradiction].
  destruct (find _ rooms) as [room' |]; [| contradiction].
  destruct H as [H | []]. injection H as <- <-. exact Hin.
Qed.

Lemma possible_rooms_hold class_info data room :
  In room (possible_rooms_of class_info data) ->
  In room (if String.eqb (ClassInfo.subject_type class_info) "Lab"
           then Data.labs data else Data.lecture_halls data)
  /\ (ClassInfo.student_count class_info <= ClassroomRow.Capacity room)%Z.
Proof.
  unfold possible_rooms_of.
  destruct (String.eqb (ClassInfo.subject_type class_info) "Lab");
    intros H; apply filter_In in H; destruct H as [Hin Hcap]; split; auto; lia.
Qed.

Lemma create_gene_well class_info used data s res s' :
  In class_info (Data.classes_to_schedule data) ->
  _create_gene class_info used data s = (res, s') ->
  match res with
  | None => St.heap s' = St.heap s
  | Some r =>
      exists g,
        St.heap s' = St.heap s ++ [g] /\ r = List.length (St.heap s)
        /\ well_placed data g
  end.
Proof.
  intros Hclass. unfold _create_gene.
  destruct (dict_get pair_eqb _ _) as [faculty_id |] eqn:Ef;
    [| unfold ret; intros H; injection H as <- <-; reflexivity].
  destruct (String.eqb faculty_id "") eqn:Ee;
    [unfold ret; intros H; injection H as <- <-; reflexivity |].
  destruct (possible_rooms_of class_info data) as [| room0 rooms] eqn:Erooms;
    [unfold ret; intros H; injection H as <- <-; reflexivity |].
  destruct (available_slots_of _ _ _ _ _) as [| d avail] eqn:Eav;
    [unfold ret; intros H; injection H as <- <-; reflexivity |].
  unfold bind, rand, new_gene, alloc, ret.
  pose proof (choice_in d avail (St.rng s)) as Hin.
  destruct (Random.choice d (d :: avail) (St.rng s)) as [[ts room] g'].
  cbn [fst] in Hin. cbn beta iota.
  intros H. injection H as <- <-. cbn [St.heap].
  eexists. split; [reflexivity |]. split; [reflexivity |].
  rewrite <- Eav in Hin.
  pose proof (available_slots_rooms _ _ _ _ _ _ _ Hin) as Hroom.
  pose proof (available_slots_slots _ _ _ _ _ _ _ Hin) as Hslot.
  rewrite <- Erooms in Hroom. apply possible_rooms_hold in Hroom.
  apply preferred_slots_ok in Hslot.
  split; [| exact Hslot].
  exists class_info, room. simpl.
  split; [exact Hclass |]. split; [reflexivity |]. split; [reflexivity |].
  split; [exact Ef |]. split; [now apply String.eqb_neq |].
  split; [tauto |]. split; [reflexivity | tauto].
Qed.

Lemma create_loop_well data classes :
  forall chromosome used s c s',
    incl classes (Data.classes_to_schedule data) ->
    create_loop data classes chromosome used s = (c, s') ->
    exists new,
      St.heap s' = St.heap s ++ new
      /\ Forall (well_placed data) new
      /\ forall r, In r c ->
           In r chromosome
           \/ (List.length (St.heap s) <= r < List.length (St.heap s'))%nat.
Proof.
  induction classes as [| class_info rest IH];
    intros chromosome used s c s' Hincl; simpl.
  - unfold ret. intros H. injection H as <- <-.
    exists []. rewrite app_nil_r. repeat split; auto.
  - unfold bind.
    assert (Hrest : incl rest (Data.classes_to_schedule data))
      by (intros x Hx; apply Hincl; now right).
    destruct (_create_gene class_info used data s) as [[r |] s1] eqn:Eg;
      apply create_gene_well in Eg; try (apply Hincl; now left).
    + destruct Eg as [g [Hh [Hr Hg]]].
      unfold get_heap. intros H.
      apply IH in H; [| exact Hrest].
      destruct H as [new [Hh' [Hnew Hrefs]]].
      exists (g :: new). rewrite Hh', Hh, <- app_assoc. simpl.
      split; [reflexivity |]. split; [constructor; assumption |].
      intros r' Hr'. destruct (Hrefs r' Hr') as [Hc | Hc].
      * apply in_app_or in Hc. destruct Hc as [Hc | [<- | []]]; [now left |].
        right. rewrite Hr, !length_app. simpl. lia.
      * right. rewrite Hh', Hh in Hc. rewrite !length_app in *.
        simpl in *. lia.
    + intros H. apply IH in H; [| exact Hrest].
      rewrite Eg in H. exact H.
Qed.

Lemma create_chromosome_well data s c s' :
  create_chromosome data s = (c, s') ->
  (exists new, St.heap s' = St.heap s ++ new)
  /\ placed (well_placed data) (St.heap s') c.
Proof.
  unfold create_chromosome, bind.
  pose proof (class_keys_classes (Data.classes_to_schedule data) s) as Hm.
  destruct (class_keys (Data.classes_to_schedule data) s) as [keyed s1] eqn:Ek.
  apply class_keys_spec in Ek. destruct Ek as [Hh _]. cbn [fst] in Hm.
  intros H. apply create_loop_well in H.
  - destruct H as [new [Hh' [Hnew Hrefs]]]. rewrite Hh in *.
    split; [now exists new |]. split.
    + unfold genes_of. rewrite Forall_map, Forall_forall. intros r Hin.
      destruct (Hrefs r Hin) as [[] | Hr]. rewrite Hh' in *. unfold deref.
      rewrite app_nth2 by lia. rewrite Forall_forall in Hnew. apply Hnew.
      apply nth_In. rewrite length_app in Hr. lia.
    + intros r Hin. destruct (Hrefs r Hin) as [[] | Hr]. lia.
  - intros ci Hci. apply in_map_iff in Hci.
    destruct Hci as [kc [<- Hkc]]. apply sorted_in in Hkc.
    rewrite <- Hm. now apply in_map.
Qed.

Lemma well_placed_slot data g ts :
  well_placed data g -> slot_ok ts -> well_placed data (Gene.set_slot g ts).
Proof.
  intros [[class_info [room H]] _] Hts. split; [| exact Hts].
  exists class_info, room. exact H.
Qed.

(** X18. Every session of the timetable [run_evolution] returns is one of
    the requested sessions, taught by the instructor pre-selected for its
    cohort and subject, in a room of the pool of its subject type
    (laboratories for a Lab, lecture halls otherwise) whose capacity holds
    the cohort, at a day of the working week and an hour between 1 and
    [HOURS_PER_DAY]: crossover and mutation move sessions on the grid and
    change nothing else. *)
Theorem returned_sessions_are_well_placed
    (config : GAConfig.t) (data : Data.t) (db : bool)
    (s s' : St.t) (r : Run.t) :
  run_evolution config data db s = (Some r, s') ->
  Forall (well_placed data) (genes_of (St.heap s') (Run.chromosome r)).
Proof.
  intros H.
  apply (run_evolution_kept (well_placed data)) in H; [apply H | | |].
  - apply well_placed_slot.
  - intros g [_ Hg]. exact Hg.
  - apply create_chromosome_well.
Qed.

(** The run of three generations on Scenario A. *)
Lemma returned_sessions_are_well_placed_witness :
  exists r s',
    run_evolution three_generations_config scenario_A true
                  (St.mk [] (Random.seed same_seed)) = (Some r, s')
    /\ Forall (well_placed scenario_A)
              (genes_of (St.heap s') (Run.chromosome r)).
Proof.
  destruct (run_evolution three_generations_config scenario_A true
              (St.mk [] (Random.seed same_seed))) as [[r |] s'] eqn:E.
  - exists r, s'. split; [reflexivity |].
    exact (returned_sessions_are_well_placed _ _ _ _ _ _ E).
  - vm_compute in E. discriminate E.
Defined.

(** ** Sessions requested by [prepare_data] *)

Lemma pair_eqb_eq a b : pair_eqb a b = true <-> a = b.
Proof.
  unfold pair_eqb. destruct a as [a1 a2], b as [b1 b2]. simpl.
  rewrite andb_true_iff, !String.eqb_eq. split; [intros [-> ->] | intros E];
    [reflexivity | injection E; auto].
Qed.

Lemma dict_get_set_pair {V} (d : list ((string * string) * V)) k v k' :
  dict_get pair_eqb (dict_set pair_eqb d k v) k'
  = if pair_eqb k k' then Some v else dict_get pair_eqb d k'.
Proof.
  induction d as [| [k0 v0] t IH]; simpl; [reflexivity |].
  destruct (pair_eqb k0 k) eqn:E; simpl.
  - apply pair_eqb_eq in E. subst k0. destruct (pair_eqb k k'); reflexivity.
  - rewrite IH. destruct (pair_eqb k0 k') eqn:E'; [| reflexivity].
    apply pair_eqb_eq in E'. subst k0.
    destruct (pair_eqb k k') eqn:E2; [| reflexivity].
    apply pair_eqb_eq in E2. subst k'. rewrite pair_eqb_refl in E.
    discriminate E.
Qed.

Lemma hours_at_most_4 credits subject_type :
  (_calculate_hours_per_week credits subject_type <= 4)%Z.
Proof.
  unfold _calculate_hours_per_week.
  destruct (String.eqb subject_type "Lab"); [lia |].
  destruct (credits >=? 4)%Z; [lia |]. destruct (credits =? 3)%Z; lia.
Qed.

Lemma staffed_set faculty_df subjects_df map k best c :
  In best (qualified_list faculty_df (snd k)) ->
  staffed faculty_df subjects_df map c ->
  staffed faculty_df subjects_df (dict_set pair_eqb map k best) c.
Proof.
  intros Hbest [Hrow [Hh [Hb [f [Hf Hq]]]]].
  split; [exact Hrow |]. split; [exact Hh |]. split; [exact Hb |].
  rewrite dict_get_set_pair.
  destruct (pair_eqb k _) eqn:E; [| eauto].
  apply pair_eqb_eq in E. subst k. eauto.
Qed.

Lemma pair_step_staffed faculty_df subjects_df st p :
  let m := fst (fold_left faculty_row_step faculty_df ([], [])) in
  let st' := pair_step subjects_df m st p in
  (Forall (staffed faculty_df subjects_df (Prep.batch_subject_faculty_map st))
          (Prep.classes_to_schedule st)
   /\ qualified_map faculty_df (Prep.batch_subject_faculty_map st)) ->
  Forall (staffed faculty_df subjects_df (Prep.batch_subject_faculty_map st'))
         (Prep.classes_to_schedule st')
  /\ qualified_map faculty_df (Prep.batch_subject_faculty_map st').
Proof.
  intros m st' [Hc Hm]. subst st'. unfold pair_step.
  destruct p as [b s]. cbn [fst snd].
  destruct (subject_row subjects_df s) as [row |] eqn:Erow;
    [| rewrite subject_step_unknown by exact Erow; auto].
  destruct (opt_list m s) as [| f0 others] eqn:Eq;
    [rewrite subject_step_none by exact Eq; auto |].
  rewrite (subject_step_some _ _ _ _ _ _ row f0 others Erow Eq).
  cbv zeta. cbn [Prep.classes_to_schedule Prep.batch_subject_faculty_map].
  set (n := _calculate_hours_per_week (SubjectRow.credits row)
                                      (SubjectRow.type row)).
  set (best := least_loaded (Prep.faculty_workload st) f0 others).
  assert (Hbest : In best (qualified_list faculty_df s)).
  { pose proof (opt_list_faculty faculty_df [] [] s) as Ho.
    change (opt_list [] s) with (@nil string) in Ho. simpl in Ho.
    fold m in Ho. rewrite <- Ho, Eq. apply first_best_in. }
  split.
  - apply Forall_app. split.
    + eapply Forall_impl; [| exact Hc]. intros c.
      apply staffed_set. exact Hbest.
    + apply Forall_forall. intros c Hin.
      assert (Hpos : (0 < Z.to_nat n)%nat).
      { destruct (Z.to_nat n); [contradiction | lia]. }
      apply repeat_spec in Hin. subst c.
      split; [exists row; auto |]. split; [reflexivity |]. cbn.
      split; [pose proof (hours_at_most_4 (SubjectRow.credits row)
                                          (SubjectRow.type row)); fold n; lia |].
      exists best. rewrite dict_get_set_pair, pair_eqb_refl. auto.
  - intros k f. rewrite dict_get_set_pair.
    destruct (pair_eqb _ k) eqn:E; [| apply Hm].
    apply pair_eqb_eq in E. subst k. intros H. injection H as <-. exact Hbest.
Qed.

(** X19. Every session [prepare_data] requests is staffed: its subject is
    in the subject table, it carries the type and credits of the first row
    of that subject, its weekly hours are the ones computed from them and
    lie between 1 and 4, and the instructor recorded for its cohort and
    subject is one whose subject list names the subject. Every record of
    the pre-selection names such an instructor. *)
Theorem requested_sessions_are_staffed
    (batches_df : list BatchRow.t) (classrooms_df : list ClassroomRow.t)
    (faculty_df : list FacultyRow.t) (subjects_df : list SubjectRow.t) :
  let data := prepare_data batches_df classrooms_df faculty_df subjects_df in
  Forall (staffed faculty_df subjects_df (Data.batch_subject_faculty_map data))
         (Data.classes_to_schedule data)
  /\ qualified_map faculty_df (Data.batch_subject_faculty_map data).
Proof.
  intros data.
  destruct (prepare_data_state batches_df classrooms_df faculty_df subjects_df)
    as [Hc [Hm _]].
  fold data in Hc, Hm. rewrite Hc, Hm. clear Hc Hm data.
  induction (pairs_of batches_df) as [| p t IH] using rev_ind.
  - unfold state_after. simpl. split; [constructor | intros k f H; discriminate H].
  - rewrite state_after_snoc. apply pair_step_staffed. exact IH.
Qed.

(** ** The log of an instructor substitution *)

(** X20. What [handle_teacher_leave_optimization] leaves in the log. For an
    unknown leave request nothing is written at all. Otherwise exactly one
    record of type "substitute" is appended, and its status tells the
    outcome: it stays "running" (it is never closed) exactly when the
    original instructor has no active row, it is "failed" exactly when a
    slot conflict refused the substitution, and "completed" exactly when
    rows were handed over. Cohorts, rooms and leave requests are never
    touched. *)
Theorem substitution_log_tells_outcome
    (leave_id : Z) (original substitute : string) (db : Db.t) :
  let db' := handle_teacher_leave_optimization leave_id original substitute db in
  let affected := filter (active_of_faculty original) (Db.timetables db) in
  (~ In leave_id (Db.teacher_leaves db) -> db' = db)
  /\ (In leave_id (Db.teacher_leaves db) ->
      exists status message,
        Db.optimization_logs db'
        = Db.optimization_logs db
          ++ [OptimizationLog.mk "substitute" status message]
        /\ (status = "running" <-> affected = [])
        /\ (status = "failed"
            <-> slot_conflict (Db.timetables db) original substitute)
        /\ (status = "completed"
            <-> affected <> []
                /\ ~ slot_conflict (Db.timetables db) original substitute)
        /\ (status = "running" \/ status = "failed" \/ status = "completed"))
  /\ Db.batches db' = Db.batches db
  /\ Db.classrooms db' = Db.classrooms db
  /\ Db.teacher_leaves db' = Db.teacher_leaves db.
Proof.
  intros db' affected. subst db' affected.
  unfold handle_teacher_leave_optimization.
  pose proof (check_false_iff (Db.timetables db) original substitute) as Hck.
  pose proof (query_nil_iff (active_of_faculty original) (Db.timetables db))
    as Hnil.
  assert (Hconf : slot_conflict (Db.timetables db) original substitute ->
                  filter (active_of_faculty original) (Db.timetables db) <> []).
  { intros [a [b [Ha [Hpa _]]]] E.
    assert (Hin : In a (filter (active_of_faculty original) (Db.timetables db)))
      by (apply filter_In; now split).
    rewrite E in Hin. exact Hin. }
  destruct (existsb (Z.eqb leave_id) (Db.teacher_leaves db)) eqn:Hex; simpl negb;
    cbv iota.
  - assert (Hin : In leave_id (Db.teacher_leaves db)).
    { apply existsb_exists in Hex. destruct Hex as [x [Hx E]].
      apply Z.eqb_eq in E. now subst x. }
    destruct (query (active_of_faculty original) (Db.timetables db))
      as [| i idxs] eqn:Hq.
    + pose proof (proj1 Hnil eq_refl) as Hempty.
      split; [intros Hn; contradiction |]. split; [| auto].
      intros _. exists "running", None. split; [reflexivity |].
      split; [tauto |]. split; [| split; [| auto]].
      * split; [discriminate | intros Hc; now apply Hconf in Hc].
      * split; [discriminate | intros [Hn _]; contradiction].
    + assert (Hne : filter (active_of_faculty original) (Db.timetables db) <> []).
      { intros E. apply Hnil in E. discriminate E. }
      destruct (_check_substitute_availability substitute (i :: idxs)
                  (Db.timetables db)) eqn:Hc; simpl negb; cbv iota.
      * split; [intros Hn; contradiction |]. split; [| auto].
        intros _. exists "completed", None. split; [reflexivity |].
        assert (Hno : ~ slot_conflict (Db.timetables db) original substitute).
        { intros Hs. apply Hck in Hs. congruence. }
        split; [split; [discriminate | intros E; contradiction] |].
        split; [split; [discriminate | intros Hs; contradiction] |].
        split; [tauto | auto].
      * split; [intros Hn; contradiction |]. split; [| auto].
        intros _. eexists "failed", _. split; [reflexivity |].
        assert (Hyes : slot_conflict (Db.timetables db) original substitute)
          by (apply Hck; reflexivity).
        split; [split; [discriminate | intros E; contradiction] |].
        split; [tauto |].
        split; [split; [discriminate | intros [_ Hn]; contradiction] | auto].
  - split; [reflexivity |]. split; [| auto].
    intros Hin. exfalso.
    assert (existsb (Z.eqb leave_id) (Db.teacher_leaves db) = true).
    { apply existsb_exists. exists leave_id. split; [exact Hin | apply Z.eqb_refl]. }
    congruence.
Qed.
